(** * Smart budgeting app: a shallow embedding of the transaction core

    The development follows the Python sources
      - [models.py]                          (Transaction, Account, Budget)
      - [utils.py]                           (parse_csv_line)
      - [services/transaction_service.py]    (TransactionService)

    Modelling conventions.
    - Python objects live in an object store ([Heap]); a [ref] is the
      identity of an object.  [Account.transactions] is a list of
      references, so that the in-place mutations of [add_transaction] and
      [update_transaction] act on shared objects as they do in Python.
    - Python numbers ([int], [float], and [bool], which is a subclass of
      [int]) are modelled by their exact rational value in [Q]; binary64
      rounding is outside the model.
    - Text is modelled by [string] (code points 0..255); the classes [\s]
      and [\d] of the [re] module are their restrictions to that range.
    - Exceptions are values of type [exn]; a computation that may raise has
      type [result A]; a method that mutates the account is a [Cmd].
    - [datetime.date.today()] is a parameter [today] of the functions that
      read it. *)

From Stdlib Require Import ZArith QArith Qabs String Ascii List Lia.
From Stdlib Require Import DecimalString.
From stdpp Require Import base option list gmap strings.

Import ListNotations.
Local Open Scope string_scope.
Local Open Scope list_scope.
Local Open Scope Z_scope.

Set Default Proof Using "Type".

(** ** Exceptions and results *)

Inductive exn : Type :=
| InvalidTransactionError (msg : string)
| ValueError (msg : string).

(** [str(e)] *)
Definition exn_str (e : exn) : string :=
  match e with
  | InvalidTransactionError m => m
  | ValueError m => m
  end.

Definition result (A : Type) : Type := exn + A.

Definition raise {A} (e : exn) : result A := inl e.
Definition ret {A} (a : A) : result A := inr a.

Definition bind {A B} (m : result A) (f : A -> result B) : result B :=
  match m with
  | inl e => inl e
  | inr a => f a
  end.

Notation "'let*' x ':=' m 'in' f" := (bind m (fun x => f))
  (at level 10, x pattern, m at level 100, f at level 200, only parsing).

Definition is_ok {A} (m : result A) : bool :=
  match m with inr _ => true | inl _ => false end.

(** ** Calendar dates ([datetime.date]) *)

Record Date : Type := mkDate { year : Z; month : Z; day : Z }.

Definition is_leap (y : Z) : bool :=
  (y mod 4 =? 0) && (negb (y mod 100 =? 0) || (y mod 400 =? 0)).

Definition days_in_month (y m : Z) : Z :=
  if m =? 2 then (if is_leap y then 29 else 28)
  else if (m =? 4) || (m =? 6) || (m =? 9) || (m =? 11) then 30
  else 31.

(** [str(n)] for a Python integer *)
Definition str_of_Z (z : Z) : string := NilZero.string_of_int (Z.to_int z).

(** [datetime.date(y, m, d)]: raises [ValueError] outside the calendar
    ([MINYEAR = 1], [MAXYEAR = 9999]). *)
Definition date_new (y m d : Z) : result Date :=
  if negb ((1 <=? y) && (y <=? 9999)) then
    raise (ValueError ("year " +:+ str_of_Z y +:+ " is out of range"))
  else if negb ((1 <=? m) && (m <=? 12)) then
    raise (ValueError "month must be in 1..12")
  else if negb ((1 <=? d) && (d <=? days_in_month y m)) then
    raise (ValueError "day is out of range for month")
  else ret (mkDate y m d).

Definition valid_date (dt : Date) : bool :=
  is_ok (date_new (year dt) (month dt) (day dt)).

(** Comparison of dates is the lexicographic order on (year, month, day). *)
Definition date_compare (a b : Date) : comparison :=
  match year a ?= year b with
  | Eq => match month a ?= month b with
          | Eq => day a ?= day b
          | c => c
          end
  | c => c
  end.

Definition date_leb (a b : Date) : bool :=
  match date_compare a b with Gt => false | _ => true end.
Definition date_ltb (a b : Date) : bool :=
  match date_compare a b with Lt => true | _ => false end.
Definition date_geb (a b : Date) : bool := date_leb b a.

(** Zero padding of a non-negative number to [n] digits ([%04d], [%02d]). *)
Fixpoint zeros (k : nat) : string :=
  match k with
  | O => ""
  | S k' => String "0" (zeros k')
  end.

Definition zero_pad (n : nat) (s : string) : string :=
  zeros (n - String.length s) +:+ s.

(** [date.isoformat()]: [YYYY-MM-DD] *)
Definition isoformat (dt : Date) : string :=
  zero_pad 4 (str_of_Z (year dt)) +:+ "-" +:+
  zero_pad 2 (str_of_Z (month dt)) +:+ "-" +:+
  zero_pad 2 (str_of_Z (day dt)).

(** ** Python values

    The values that reach the constructor of [Transaction] and the update
    path of [Account]: [None], booleans, integers, floats, text and dates. *)

Inductive pyval : Type :=
| PyNone
| PyBool (b : bool)
| PyInt (z : Z)
| PyFloat (q : Q)
| PyStr (s : string)
| PyDate (d : Date).

(** [isinstance(v, datetime.date)] *)
Definition as_date (v : pyval) : option Date :=
  match v with PyDate d => Some d | _ => None end.

(** [isinstance(v, (int, float))], with the numeric value of [v]; [bool] is
    a subclass of [int]. *)
Definition as_number (v : pyval) : option Q :=
  match v with
  | PyBool b => Some (if b then 1%Q else 0%Q)
  | PyInt z => Some (inject_Z z)
  | PyFloat q => Some q
  | _ => None
  end.

(** [isinstance(v, str)] *)
Definition as_str (v : pyval) : option string :=
  match v with PyStr s => Some s | _ => None end.

(** Truth value of a string: the empty string is falsy. *)
Definition str_truthy (s : string) : bool :=
  match s with EmptyString => false | _ => true end.

(** ** Numbers

    A Python number is modelled by its exact rational value, and [+] by
    the exact sum.  The code computes on binary64 floats: the model agrees
    with it on comparisons, signs and [abs], and on every sum whose
    operands and partial results binary64 represents exactly, as is the
    case of the amounts of the sample states; rounding is outside the
    model.  The properties below that mention a sum or a parsed amount
    state its sign, compare two sums over the same list of amounts, or
    evaluate it on such samples. *)

Definition Qltb (x y : Q) : bool :=
  match Qcompare x y with Lt => true | _ => false end.

(** The builtin [sum]: a left fold of [+] starting from [0]. *)
Definition py_sum (l : list Q) : Q := fold_left Qplus l 0%Q.

(** ** models.py: Transaction *)

Record Transaction : Type := mkTransaction {
  t_date : Date;
  t_amount : Q;
  t_category : string;
  t_description : pyval;
  t_id : option Z
}.

Global Instance Transaction_inhabited : Inhabited Transaction :=
  populate (mkTransaction (mkDate 1 1 1) 0%Q "" PyNone None).

(** [Transaction.__init__]: the three checks, in source order, then the
    five assignments. *)
Definition Transaction_init (date amount category description : pyval)
    (id : option Z) : result Transaction :=
  match as_date date with
  | None => raise (InvalidTransactionError "date must be a datetime.date instance")
  | Some d =>
    match as_number amount with
    | None => raise (InvalidTransactionError "amount must be a number")
    | Some a =>
      match as_str category with
      | None => raise (InvalidTransactionError "category must be a non-empty string")
      | Some c =>
        if negb (str_truthy c)
        then raise (InvalidTransactionError "category must be a non-empty string")
        else ret (mkTransaction d a c description id)
      end
    end
  end.

(** [Transaction.to_dict]: a dict literal, as its list of items. *)
Inductive dictval : Type :=
| DStr (s : string)
| DNum (q : Q)
| DVal (v : pyval).

Definition to_dict (t : Transaction) : list (string * dictval) :=
  [ ("date", DStr (isoformat (t_date t)));
    ("amount", DNum (t_amount t));
    ("category", DStr (t_category t));
    ("description", DVal (t_description t)) ].

(** ** The object store

    A [ref] is the identity of a Python object; the store maps the
    references handed out so far to the current contents of the objects.
    [Transaction(...)] allocates the next free reference. *)

Abbreviation ref := nat (only parsing).
Abbreviation Heap := (list Transaction) (only parsing).

Definition deref (h : Heap) (r : ref) : Transaction := h !!! r.

Definition alloc (h : Heap) (t : Transaction) : Heap * ref :=
  (h ++ [t], length h).

Definition set_date (d : Date) (t : Transaction) : Transaction :=
  mkTransaction d (t_amount t) (t_category t) (t_description t) (t_id t).
Definition set_amount (a : Q) (t : Transaction) : Transaction :=
  mkTransaction (t_date t) a (t_category t) (t_description t) (t_id t).
Definition set_category (c : string) (t : Transaction) : Transaction :=
  mkTransaction (t_date t) (t_amount t) c (t_description t) (t_id t).
Definition set_description (v : pyval) (t : Transaction) : Transaction :=
  mkTransaction (t_date t) (t_amount t) (t_category t) v (t_id t).
Definition set_id (i : option Z) (t : Transaction) : Transaction :=
  mkTransaction (t_date t) (t_amount t) (t_category t) (t_description t) i.

(** ** models.py: Account *)

Record Account : Type := mkAccount {
  transactions : list ref;
  next_id : Z
}.

Record State : Type := mkState {
  heap : Heap;
  acct : Account
}.

(** [Account.__init__], on an empty object store *)
Definition Account_init : Account := mkAccount [] 1.
Definition init_state : State := mkState [] Account_init.

(** The transactions of the account, in list order, by value. *)
Definition live (s : State) : list Transaction :=
  map (deref (heap s)) (transactions (acct s)).

(** Commands: state passing with exceptions.  A command that raises
    returns the state it had reached, so that writes made before the
    exception stay visible. *)
Definition Cmd (A : Type) : Type := State -> State * result A.

Definition cret {A} (a : A) : Cmd A := fun s => (s, ret a).
Definition craise {A} (e : exn) : Cmd A := fun s => (s, raise e).
Definition cbind {A B} (m : Cmd A) (f : A -> Cmd B) : Cmd B :=
  fun s => match m s with
           | (s', inl e) => (s', inl e)
           | (s', inr a) => f a s'
           end.
Definition cwhen (b : bool) (m : Cmd unit) : Cmd unit :=
  if b then m else cret tt.

Declare Scope cmd_scope.
Delimit Scope cmd_scope with cmd.
Notation "m ;; k" := (cbind m (fun _ => k))
  (at level 100, k at level 200, right associativity, only parsing) : cmd_scope.

(** Attribute assignment [obj.field = v] on the object [r]. *)
Definition mutate (r : ref) (f : Transaction -> Transaction) : Cmd unit :=
  fun s => (mkState (alter f r (heap s)) (acct s), ret tt).

(** [Transaction(date, amount, category, description, id)]: validation,
    then allocation of the new object. *)
Definition Transaction_new (date amount category description : pyval)
    (id : option Z) : Cmd ref :=
  fun s => match Transaction_init date amount category description id with
           | inl e => (s, inl e)
           | inr t => let '(h, r) := alloc (heap s) t in
                      (mkState h (acct s), ret r)
           end.

(** [Account.add_transaction].  A reference that designates no
    Transaction object is not a Transaction instance. *)
Definition add_transaction (r : ref) : Cmd unit :=
  fun s =>
    match heap s !! r with
    | None => (s, raise (InvalidTransactionError "Must add a Transaction instance"))
    | Some _ =>
      let a := acct s in
      (mkState (alter (set_id (Some (next_id a))) r (heap s))
               (mkAccount (transactions a ++ [r]) (next_id a + 1)),
       ret tt)
    end.

(** [Account.list_transactions].  Each filter is applied when its value is
    truthy: a date object is always truthy, a string when it is not
    empty. *)
Definition list_transactions (s : State)
    (start_date end_date : option Date) (category : option string) : list ref :=
  let results := transactions (acct s) in
  let results :=
    match start_date with
    | Some d => List.filter (fun r => date_geb (t_date (deref (heap s) r)) d) results
    | None => results
    end in
  let results :=
    match end_date with
    | Some d => List.filter (fun r => date_leb (t_date (deref (heap s) r)) d) results
    | None => results
    end in
  let results :=
    match category with
    | Some c =>
      if str_truthy c
      then List.filter (fun r => String.eqb (t_category (deref (heap s) r)) c) results
      else results
    | None => results
    end in
  results.

(** [Account.get_balance] *)
Definition get_balance (s : State) : Q :=
  py_sum (map (fun r => t_amount (deref (heap s) r)) (transactions (acct s))).

(** [t.id == id] *)
Definition id_is (i : Z) (t : Transaction) : bool :=
  match t_id t with
  | Some j => j =? i
  | None => false
  end.

(** [Account.get_transaction_by_id]: the first object of the list with
    that id. *)
Definition get_transaction_by_id (s : State) (i : Z) : option ref :=
  List.find (fun r => id_is i (deref (heap s) r)) (transactions (acct s)).

Definition not_found (i : Z) : exn :=
  InvalidTransactionError ("Transaction with id " +:+ str_of_Z i +:+ " not found").

Definition is_none (v : pyval) : bool :=
  match v with PyNone => true | _ => false end.

(** [Account.update_transaction] *)
Definition update_transaction (i : Z) (date amount category description : pyval)
    : Cmd unit :=
  fun s =>
    match get_transaction_by_id s i with
    | None => craise (not_found i) s
    | Some r =>
      (cwhen (negb (is_none date))
         match as_date date with
         | None => craise (InvalidTransactionError "date must be a datetime.date instance")
         | Some d => mutate r (set_date d)
         end ;;
       cwhen (negb (is_none amount))
         match as_number amount with
         | None => craise (InvalidTransactionError "amount must be a number")
         | Some a => mutate r (set_amount a)
         end ;;
       cwhen (negb (is_none category))
         match as_str category with
         | None => craise (InvalidTransactionError "category must be a non-empty string")
         | Some c =>
           if negb (str_truthy c)
           then craise (InvalidTransactionError "category must be a non-empty string")
           else mutate r (set_category c)
         end ;;
       cwhen (negb (is_none description))
         (mutate r (set_description description)))%cmd s
    end.

(** [list.remove(x)]: removes the first occurrence. *)
Fixpoint remove_first (r : ref) (l : list ref) : list ref :=
  match l with
  | [] => []
  | x :: l' => if Nat.eqb x r then l' else x :: remove_first r l'
  end.

(** [Account.delete_transaction] *)
Definition delete_transaction (i : Z) : Cmd unit :=
  fun s =>
    match get_transaction_by_id s i with
    | None => craise (not_found i) s
    | Some r =>
      (mkState (heap s)
               (mkAccount (remove_first r (transactions (acct s))) (next_id (acct s))),
       ret tt)
    end.

(** ** models.py: Budget *)

Record Budget : Type := mkBudget { monthly_budgets : gmap string Q }.

Definition Budget_init : Budget := mkBudget ∅.

Definition set_budget (b : Budget) (category : string) (amount : Q) : result Budget :=
  if Qltb amount 0
  then raise (ValueError "Budget amount cannot be negative")
  else ret (mkBudget (<[category := amount]> (monthly_budgets b))).

Definition get_budget (b : Budget) (category : string) : Q :=
  default 0%Q (monthly_budgets b !! category).


(** ** Text: character classes, [str.strip], [str.splitlines] *)

Definition text : Type := list ascii.

Definition code (c : ascii) : N := N_of_ascii c.

(** [\d] *)
Definition is_digit (c : ascii) : bool :=
  ((48 <=? code c) && (code c <=? 57))%N.

(** [\s] and [str.isspace]: TAB LF VT FF CR, FS GS RS US, SPACE, NEL, NBSP *)
Definition is_space (c : ascii) : bool :=
  (((9 <=? code c) && (code c <=? 13)) ||
   ((28 <=? code c) && (code c <=? 32)) ||
   (code c =? 133) || (code c =? 160))%N.

(** Line boundaries of [str.splitlines]: LF VT FF CR, FS GS RS, NEL *)
Definition is_linebreak (c : ascii) : bool :=
  (((10 <=? code c) && (code c <=? 13)) ||
   ((28 <=? code c) && (code c <=? 30)) ||
   (code c =? 133))%N.

Definition is_char (a : ascii) (c : ascii) : bool := Ascii.eqb c a.
Definition not_char (a : ascii) (c : ascii) : bool := negb (Ascii.eqb c a).

Fixpoint drop_while (p : ascii -> bool) (s : text) : text :=
  match s with
  | [] => []
  | c :: s' => if p c then drop_while p s' else s
  end.

Fixpoint take_while (p : ascii -> bool) (s : text) : text :=
  match s with
  | [] => []
  | c :: s' => if p c then c :: take_while p s' else []
  end.

Definition lstrip (s : text) : text := drop_while is_space s.
Definition rstrip (s : text) : text := rev (drop_while is_space (rev s)).
(** [s.strip()] *)
Definition strip (s : text) : text := rstrip (lstrip s).

(** [s.splitlines()]: [cur] is the line being read, [after_cr] tells that
    the previous character was a carriage return, whose following line feed
    belongs to the same boundary. *)
Fixpoint splitlines_go (cur : text) (after_cr : bool) (s : text) : list text :=
  match s with
  | [] => match cur with [] => [] | _ => [cur] end
  | c :: s' =>
    if after_cr && (code c =? 10)%N then splitlines_go cur false s'
    else if is_linebreak c then cur :: splitlines_go [] (code c =? 13)%N s'
    else splitlines_go (cur ++ [c]) false s'
  end.

Definition splitlines (s : text) : list text := splitlines_go [] false s.

Definition text_of (s : string) : text := list_ascii_of_string s.
Definition str_of (s : text) : string := string_of_list_ascii s.

(** ** Regular expressions

    The fragment of [re] used by [parse_csv_line] and by [strptime],
    with the matching order of a backtracking engine: the left alternative
    first, greedy repetition and greedy option.  The matcher is written in
    continuation-passing style; the continuation is the rest of the
    pattern, and a failure of the continuation makes the matcher try its
    next choice. *)

Inductive regex : Type :=
| Eps
| Class (p : ascii -> bool)       (* one character of a class *)
| Cat (r1 r2 : regex)             (* r1 r2 *)
| Alt (r1 r2 : regex)             (* r1|r2 *)
| Opt (r : regex)                 (* r? *)
| Many (p : ascii -> bool)        (* c* over a character class *)
| Grp (name : string) (r : regex) (* (?P<name>r) *).

Definition captures : Type := list (string * text).

Fixpoint many {R} (p : ascii -> bool) (s : text) (k : text -> option R) : option R :=
  match s with
  | c :: s' =>
    if p c
    then match many p s' k with
         | Some x => Some x
         | None => k s
         end
    else k s
  | [] => k []
  end.

Fixpoint run {R} (r : regex) (s : text) (caps : captures)
    (k : text -> captures -> option R) : option R :=
  match r with
  | Eps => k s caps
  | Class p =>
    match s with
    | c :: s' => if p c then k s' caps else None
    | [] => None
    end
  | Cat r1 r2 => run r1 s caps (fun s1 c1 => run r2 s1 c1 k)
  | Alt r1 r2 =>
    match run r1 s caps k with
    | Some x => Some x
    | None => run r2 s caps k
    end
  | Opt r' =>
    match run r' s caps k with
    | Some x => Some x
    | None => k s caps
    end
  | Many p => many p s (fun s' => k s' caps)
  | Grp name r' =>
    run r' s caps
        (fun s' c' => k s' ((name, take (length s - length s') s) :: c'))
  end.

(** [pattern.match(s)]: a match anchored at the start; the result is the
    captures and the unmatched rest of [s]. *)
Definition re_match (r : regex) (s : text) : option (captures * text) :=
  run r s [] (fun s' c => Some (c, s')).

(** [m.group(name)]: [None] when the group did not take part. *)
Fixpoint group (c : captures) (name : string) : option text :=
  match c with
  | [] => None
  | (n, v) :: c' => if String.eqb n name then Some v else group c' name
  end.

(** Derived forms *)
Definition Lit (a : ascii) : regex := Class (is_char a).
Definition Plus (p : ascii -> bool) : regex := Cat (Class p) (Many p).
Fixpoint Times (n : nat) (r : regex) : regex :=
  match n with
  | O => Eps
  | S O => r
  | S n' => Cat r (Times n' r)
  end.
(** [r{1,2}] *)
Definition OneOrTwo (r : regex) : regex := Cat r (Opt r).
Definition Digit : regex := Class is_digit.
Definition Spaces : regex := Many is_space.
Definition between (lo hi : ascii) (c : ascii) : bool :=
  ((code lo <=? code c) && (code c <=? code hi))%N.

Fixpoint Seq (l : list regex) : regex :=
  match l with
  | [] => Eps
  | [r] => r
  | r :: l' => Cat r (Seq l')
  end.

(** ** [int(s)] and [float(s)] on decimal numerals *)

Definition digit_val (c : ascii) : Z := Z.of_N (code c) - 48.

Definition int_of_digits (s : text) : Z :=
  fold_left (fun acc c => acc * 10 + digit_val c) s 0.

(** [int(s)]: surrounding white space is ignored. *)
Definition py_int (s : text) : Z := int_of_digits (strip s).

(** [float(s)] for [s] of the form [-?\d+(\.\d+)?]: the rational denoted by
    the numeral, in lowest terms.  [float] rounds this number to the
    nearest binary64 value; the two agree on the numerals that binary64
    represents exactly. *)
Definition py_float (s : text) : Q :=
  let '(neg, s1) :=
    match s with
    | "-"%char :: s' => (true, s')
    | _ => (false, s)
    end in
  let ip := take_while is_digit s1 in
  let fp :=
    match drop_while is_digit s1 with
    | "."%char :: f => take_while is_digit f
    | _ => []
    end in
  let q := Qred (Qmake (int_of_digits (ip ++ fp))
                       (Z.to_pos (10 ^ Z.of_nat (length fp)))) in
  if neg then Qopp q else q.

(** ** [datetime.datetime.strptime(s, fmt).date()]

    After [_strptime]: the format is turned into a regular expression, one
    named group per directive; the text must match it entirely; the
    groups are converted with [int] and the date is built from them. *)

Inductive fmt_item : Type :=
| Dir_Y | Dir_m | Dir_d
| Fmt_lit (c : ascii).

Definition fmt_item_regex (f : fmt_item) : regex :=
  match f with
  | Dir_Y => (* (?P<Y>\d\d\d\d) *)
    Grp "Y" (Times 4 Digit)
  | Dir_m => (* (?P<m>1[0-2]|0[1-9]|[1-9]) *)
    Grp "m" (Alt (Cat (Lit "1") (Class (between "0" "2")))
            (Alt (Cat (Lit "0") (Class (between "1" "9")))
                 (Class (between "1" "9"))))
  | Dir_d => (* (?P<d>3[0-1]|[1-2]\d|0[1-9]|[1-9]| [1-9]) *)
    Grp "d" (Alt (Cat (Lit "3") (Class (between "0" "1")))
            (Alt (Cat (Class (between "1" "2")) Digit)
            (Alt (Cat (Lit "0") (Class (between "1" "9")))
            (Alt (Class (between "1" "9"))
                 (Cat (Lit " ") (Class (between "1" "9")))))))
  | Fmt_lit c => Lit c
  end.

Definition fmt_item_str (f : fmt_item) : string :=
  match f with
  | Dir_Y => "%Y"
  | Dir_m => "%m"
  | Dir_d => "%d"
  | Fmt_lit c => String c ""
  end.

Definition fmt_str (f : list fmt_item) : string :=
  fold_right (fun i acc => fmt_item_str i +:+ acc) "" f.

(** [repr(s)] of a text without quotes, backslashes or control
    characters, which is the case of the date group of a CSV line. *)
Definition py_repr (s : string) : string := "'" +:+ s +:+ "'".

Definition strptime (s : text) (f : list fmt_item) : result Date :=
  match re_match (Seq (map fmt_item_regex f)) s with
  | None =>
    raise (ValueError ("time data " +:+ py_repr (str_of s) +:+
                       " does not match format " +:+ py_repr (fmt_str f)))
  | Some (found, rest) =>
    match rest with
    | _ :: _ => raise (ValueError ("unconverted data remains: " +:+ str_of rest))
    | [] =>
      let y := from_option py_int 1900 (group found "Y") in
      let m := from_option py_int 1 (group found "m") in
      let d := from_option py_int 1 (group found "d") in
      date_new y m d
    end
  end.

(** ["%m/%d/%Y"] and ["%Y-%m-%d"] *)
Definition fmt_us : list fmt_item :=
  [Dir_m; Fmt_lit "/"; Dir_d; Fmt_lit "/"; Dir_Y].
Definition fmt_iso : list fmt_item :=
  [Dir_Y; Fmt_lit "-"; Dir_m; Fmt_lit "-"; Dir_d].

(** ** utils.py: parse_csv_line *)

(** [\d{4}-\d{2}-\d{2}|\d{1,2}/\d{1,2}/\d{4}] *)
Definition date_regex : regex :=
  Alt (Seq [Times 4 Digit; Lit "-"; Times 2 Digit; Lit "-"; Times 2 Digit])
      (Seq [OneOrTwo Digit; Lit "/"; OneOrTwo Digit; Lit "/"; Times 4 Digit]).

(** [-?\d+(?:\.\d+)?] *)
Definition amount_regex : regex :=
  Seq [Opt (Lit "-"); Plus is_digit; Opt (Cat (Lit ".") (Plus is_digit))].

(** The pattern of [parse_csv_line], piece by piece. *)
Definition csv_pattern : regex :=
  Seq [ Spaces; Grp "date" date_regex; Spaces; Lit ","; Spaces;
        Grp "amount" amount_regex; Spaces; Lit ","; Spaces;
        Grp "category" (Plus (not_char ",")); Spaces;
        Opt (Seq [Lit ","; Spaces; Grp "description" (Many (not_char "010"))]) ].

Definition format_error (line : string) : exn :=
  ValueError ("Line does not match expected format: " +:+ line).

Definition parse_csv_line (line : string) : result (Date * Q * string * string) :=
  match re_match csv_pattern (text_of line) with
  | None => raise (format_error line)
  | Some (m, _) =>
    let date_str := default [] (group m "date") in
    let* date :=
      (if existsb (is_char "/") date_str
       then strptime date_str fmt_us
       else strptime date_str fmt_iso) in
    let amount := py_float (default [] (group m "amount")) in
    let category := str_of (strip (default [] (group m "category"))) in
    let description :=
      match group m "description" with
      | Some d => str_of d
      | None => ""
      end in
    ret (date, amount, category, description)
  end.

(** ** Dictionaries with insertion order

    [category_totals] is a [dict]: its items are kept in the order in which
    the keys were first inserted. *)

Definition dict (V : Type) : Type := list (string * V).

(** [d.get(k, default)] *)
Fixpoint dict_get {V} (d : dict V) (k : string) (dflt : V) : V :=
  match d with
  | [] => dflt
  | (k', v) :: d' => if String.eqb k' k then v else dict_get d' k dflt
  end.

(** [d[k] = v] *)
Fixpoint dict_set {V} (d : dict V) (k : string) (v : V) : dict V :=
  match d with
  | [] => [(k, v)]
  | (k', v') :: d' =>
    if String.eqb k' k then (k', v) :: d' else (k', v') :: dict_set d' k v
  end.

Definition dict_keys {V} (d : dict V) : list string := map fst d.

(** ** services/transaction_service.py: TransactionService

    The service holds the account (here: the state) and an optional
    budget.  [today] stands for [datetime.date.today()]. *)

(** [TransactionService.create_transaction] *)
Definition create_transaction (date amount category description : pyval) : Cmd ref :=
  cbind (Transaction_new date amount category description None) (fun r =>
  cbind (add_transaction r) (fun _ =>
  cret r)).

(** The block shared by the three monthly aggregations: the default
    year and month, and the two dates handed to [list_transactions]. *)
Definition month_bounds (today : Date) (y m : option Z) : result (Date * Date) :=
  let '(y, m) :=
    match y, m with
    | Some y, Some m => (y, m)
    | _, _ => (year today, month today)
    end in
  let* start_month := date_new y m 1 in
  let* end_month := (if m =? 12 then date_new (y + 1) 1 1 else date_new y (m + 1) 1) in
  ret (start_month, end_month).

Definition monthly_transactions (s : State) (today : Date) (y m : option Z)
    : result (list ref) :=
  let* bounds := month_bounds today y m in
  let '(start_month, end_month) := bounds in
  ret (list_transactions s (Some start_month) (Some end_month) None).

Definition amount_of (s : State) (r : ref) : Q := t_amount (deref (heap s) r).
Definition category_of (s : State) (r : ref) : string := t_category (deref (heap s) r).
Definition date_of (s : State) (r : ref) : Date := t_date (deref (heap s) r).

(** [TransactionService.get_monthly_spending] *)
Definition get_monthly_spending (s : State) (today : Date) (y m : option Z) : result Q :=
  let* txs := monthly_transactions s today y m in
  ret (py_sum (map (fun r => Qabs (amount_of s r))
                   (List.filter (fun r => Qltb (amount_of s r) 0) txs))).

(** [TransactionService.get_monthly_income] *)
Definition get_monthly_income (s : State) (today : Date) (y m : option Z) : result Q :=
  let* txs := monthly_transactions s today y m in
  ret (py_sum (map (fun r => amount_of s r)
                   (List.filter (fun r => Qltb 0 (amount_of s r)) txs))).

Definition add_to_totals (s : State) (totals : dict Q) (r : ref) : dict Q :=
  dict_set totals (category_of s r)
           (dict_get totals (category_of s r) 0 + amount_of s r)%Q.

(** [TransactionService.get_category_totals] *)
Definition get_category_totals (s : State) (today : Date) (y m : option Z)
    : result (dict Q) :=
  let* txs := monthly_transactions s today y m in
  ret (fold_left (add_to_totals s) txs []).

(** [{k: abs(v) for k, v in category_totals.items() if v < 0}] *)
Definition spending_of_totals (totals : dict Q) : dict Q :=
  fold_left (fun d '(k, v) => if Qltb v 0 then dict_set d k (Qabs v) else d)
            totals [].

(** [TransactionService.get_category_spending] *)
Definition get_category_spending (s : State) (today : Date) (y m : option Z)
    : result (dict Q) :=
  let* category_totals := get_category_totals s today y m in
  ret (spending_of_totals category_totals).

Record BudgetStatus : Type := mkBudgetStatus {
  bs_budget : Q;
  bs_spent : Q;
  bs_remaining : Q
}.

(** [TransactionService.get_budget_status]; a [Budget] object is truthy. *)
Definition get_budget_status (s : State) (budget : option Budget) (today : Date)
    (category : string) : result (option BudgetStatus) :=
  match budget with
  | None => ret None
  | Some b =>
    let* totals := get_category_totals s today None None in
    let spent := Qabs (dict_get totals category 0%Q) in
    let budget_amount := get_budget b category in
    let remaining := (budget_amount - spent)%Q in
    ret (Some (mkBudgetStatus budget_amount spent remaining))
  end.

(** One turn of the loop of [import_transactions_from_csv]: the body of
    the [try], which either completes or raises. *)
Definition import_line (line : text) : Cmd unit :=
  fun s =>
    match parse_csv_line (str_of line) with
    | inl e => (s, inl e)
    | inr (date, amount, category, description) =>
      cbind (create_transaction (PyDate date) (PyFloat amount) (PyStr category)
                                (PyStr description))
            (fun _ => cret tt) s
    end.

Definition line_error (i : Z) (e : exn) : string :=
  "Line " +:+ str_of_Z (i + 1) +:+ ": " +:+ exn_str e.

(** The [for i, line in enumerate(lines)] loop; [i] is the index of the
    first line of [lines]. *)
Fixpoint import_loop (i : Z) (lines : list text) (s : State)
    (imported : Z) (errors : list string) : State * (Z * list string) :=
  match lines with
  | [] => (s, (imported, errors))
  | line :: lines' =>
    match import_line line s with
    | (s', inr _) => import_loop (i + 1) lines' s' (imported + 1) errors
    | (s', inl e) => import_loop (i + 1) lines' s' imported (errors ++ [line_error i e])
    end
  end.

(** [TransactionService.import_transactions_from_csv] *)
Definition import_transactions_from_csv (csv_content : string) (s : State)
    : State * (Z * list string) :=
  let lines := splitlines (strip (text_of csv_content)) in
  import_loop 0 lines s 0 [].

(** ** The aggregations in the words of the specification

    The month window is the half-open interval from the first day of the
    month (included) to the first day of the next month (excluded). *)

(** First day of the month, and first day of the following month. *)
Definition first_of_month (y m : Z) : Date := mkDate y m 1.
Definition first_of_next_month (y m : Z) : Date :=
  if m =? 12 then mkDate (y + 1) 1 1 else mkDate y (m + 1) 1.

Definition in_month_window (y m : Z) (d : Date) : bool :=
  date_leb (first_of_month y m) d && date_ltb d (first_of_next_month y m).

(** The transactions of the account that lie in the month window. *)
Definition spec_window (s : State) (y m : Z) : list Transaction :=
  List.filter (fun t => in_month_window y m (t_date t)) (live s).

(** Sum of the absolute values of the strictly negative amounts. *)
Definition spec_monthly_spending (s : State) (y m : Z) : Q :=
  py_sum (map Qabs (List.filter (fun a => Qltb a 0) (map t_amount (spec_window s y m)))).

(** Sum of the strictly positive amounts. *)
Definition spec_monthly_income (s : State) (y m : Z) : Q :=
  py_sum (List.filter (fun a => Qltb 0 a) (map t_amount (spec_window s y m))).

(** The categories of a list, each once, in order of first occurrence;
    [seen] are the categories met so far. *)
Fixpoint first_occurrences (seen : list string) (l : list string) : list string :=
  match l with
  | [] => []
  | c :: l' =>
    if existsb (String.eqb c) seen
    then first_occurrences seen l'
    else c :: first_occurrences (seen ++ [c]) l'
  end.

(** The amounts of the transactions of category [c]. *)
Definition amounts_in (c : string) (l : list Transaction) : list Q :=
  map t_amount (List.filter (fun t => String.eqb (t_category t) c) l).

(** Category totals of a list of transactions: each category once, in
    order of first occurrence, with the signed sum of its amounts. *)
Definition totals_of (l : list Transaction) : dict Q :=
  map (fun c => (c, py_sum (amounts_in c l))) (first_occurrences [] (map t_category l)).

Definition spec_category_totals (s : State) (y m : Z) : dict Q :=
  totals_of (spec_window s y m).

(** The categories with a strictly negative total, with its magnitude. *)
Definition spec_category_spending (s : State) (y m : Z) : dict Q :=
  map (fun kv => (fst kv, Qabs (snd kv)))
      (List.filter (fun kv => Qltb (snd kv) 0) (spec_category_totals s y m)).

(** Budget status: the stored limit, the magnitude of a negative net
    total of the current month (0 when the net is not negative), and their
    difference. *)
Definition spec_budget_status (s : State) (budget : option Budget) (today : Date)
    (category : string) : option BudgetStatus :=
  match budget with
  | None => None
  | Some b =>
    let net := dict_get (spec_category_totals s (year today) (month today)) category 0%Q in
    let spent := if Qltb net 0 then Qabs net else 0%Q in
    Some (mkBudgetStatus (get_budget b category) spent (get_budget b category - spent)%Q)
  end.

(** ** Sample states *)

Definition mid_october : Date := mkDate 2023 10 15.

(** The transaction of the test suite, saved in an empty account. *)
Definition one_transaction : State :=
  mkState [mkTransaction (mkDate 2023 10 1) 100%Q "Income" (PyStr "Salary") (Some 1)]
          (mkAccount [0%nat] 2).

(** Two transactions dated on the first of November 2023. *)
Definition november_first : State :=
  mkState [ mkTransaction (mkDate 2023 11 1) (-50)%Q "Groceries" (PyStr "") (Some 1);
            mkTransaction (mkDate 2023 11 1) 1000%Q "Income" (PyStr "") (Some 2) ]
          (mkAccount [0%nat; 1%nat] 3).

(** One transaction dated on the first of January 2024. *)
Definition january_first : State :=
  mkState [ mkTransaction (mkDate 2024 1 1) (-50)%Q "Groceries" (PyStr "") (Some 1) ]
          (mkAccount [0%nat] 2).

(** Two transactions in October 2023 and two on the first of November. *)
Definition october_and_boundary : State :=
  mkState [ mkTransaction (mkDate 2023 10 15) (-20)%Q "Groceries" (PyStr "") (Some 1);
            mkTransaction (mkDate 2023 10 20) 300%Q "Income" (PyStr "") (Some 2);
            mkTransaction (mkDate 2023 11 1) (-50)%Q "Groceries" (PyStr "") (Some 3);
            mkTransaction (mkDate 2023 11 1) 1000%Q "Income" (PyStr "") (Some 4) ]
          (mkAccount [0%nat; 1%nat; 2%nat; 3%nat] 5).

(** A purchase in October 2023 and one on the first of November, in two
    categories. *)
Definition rent_on_boundary : State :=
  mkState [ mkTransaction (mkDate 2023 10 15) (-20)%Q "Groceries" (PyStr "") (Some 1);
            mkTransaction (mkDate 2023 11 1) (-700)%Q "Rent" (PyStr "") (Some 2) ]
          (mkAccount [0%nat; 1%nat] 3).

(** A salary received in October 2023, and a budget for that category. *)
Definition salary_state : State :=
  mkState [ mkTransaction (mkDate 2023 10 2) 1000%Q "Salary" (PyStr "") (Some 1) ]
          (mkAccount [0%nat] 2).
Definition salary_budget : Budget := mkBudget (<["Salary" := 100%Q]> ∅).

(** ** Sequences of operations on an account

    The operations that a client of [models.py] can perform: construct a
    Transaction object, and call the three mutators of the account.  An
    operation that raises leaves the state it had reached. *)

Inductive op : Type :=
| OpNew (date amount category description : pyval) (id : option Z)
| OpAdd (r : ref)
| OpUpdate (i : Z) (date amount category description : pyval)
| OpDelete (i : Z).

Definition exec (o : op) : Cmd unit :=
  match o with
  | OpNew date amount category description id =>
    cbind (Transaction_new date amount category description id) (fun _ => cret tt)
  | OpAdd r => add_transaction r
  | OpUpdate i date amount category description =>
    update_transaction i date amount category description
  | OpDelete i => delete_transaction i
  end.

Definition step (s : State) (o : op) : State := fst (exec o s).

Definition run_ops (s : State) (ops : list op) : State := fold_left step ops s.

(** The id that an operation assigns: the id read from the object after a
    call of [add_transaction] that returned. *)
Definition assigned_by (o : op) (s : State) : list Z :=
  match o with
  | OpAdd r =>
    match add_transaction r s with
    | (s', inr _) =>
      match t_id (deref (heap s') r) with
      | Some i => [i]
      | None => []
      end
    | (_, inl _) => []
    end
  | _ => []
  end.

(** The ids assigned along a sequence of operations, in order. *)
Fixpoint assigned (s : State) (ops : list op) : list Z :=
  match ops with
  | [] => []
  | o :: ops' => assigned_by o s ++ assigned (step s o) ops'
  end.

(** The number of calls of [add_transaction] that returned. *)
Fixpoint count_adds (s : State) (ops : list op) : nat :=
  match ops with
  | [] => O
  | o :: ops' =>
    (match o with
     | OpAdd r => if is_ok (snd (add_transaction r s)) then 1 else 0
     | _ => 0
     end + count_adds (step s o) ops')%nat
  end.

(** The id stored in the object [r], if [r] is allocated. *)
Definition idof (s : State) (r : ref) : option (option Z) :=
  t_id <$> (heap s !! r).

(** The invariant of the identifiers: the counter is positive, every
    transaction of the account is an allocated object whose id lies
    between 1 and the counter, and two references of the account with the
    same id are the same object. *)
Definition ids_inv (s : State) : Prop :=
  1 <= next_id (acct s) /\
  (forall r, In r (transactions (acct s)) ->
             exists i, idof s r = Some (Some i) /\ 1 <= i < next_id (acct s)) /\
  (forall r1 r2, In r1 (transactions (acct s)) -> In r2 (transactions (acct s)) ->
                 idof s r1 = idof s r2 -> r1 = r2).

(** Commands that change neither the account nor the id of any object. *)
Definition keeps_ids {A} (c : Cmd A) : Prop :=
  forall s, acct (fst (c s)) = acct s /\ forall r, idof (fst (c s)) r = idof s r.

(** ** The outcome of one CSV line

    What the body of the [try] of [import_transactions_from_csv] computes
    from a line before it touches the account: the parsed fields, checked
    by the constructor of [Transaction]. *)
Definition line_result (line : text) : result Transaction :=
  let* fields := parse_csv_line (str_of line) in
  let '(date, amount, category, description) := fields in
  Transaction_init (PyDate date) (PyFloat amount) (PyStr category)
                   (PyStr description) None.

(** The transactions of the lines that succeed, in order. *)
Fixpoint imported_transactions (lines : list text) : list Transaction :=
  match lines with
  | [] => []
  | line :: lines' =>
    match line_result line with
    | inr t => t :: imported_transactions lines'
    | inl _ => imported_transactions lines'
    end
  end.

(** The messages of the lines that fail, in order; [i] lines precede
    [lines] in the input, so that the first of [lines] is line [i + 1]. *)
Fixpoint import_errors (i : Z) (lines : list text) : list string :=
  match lines with
  | [] => []
  | line :: lines' =>
    match line_result line with
    | inr _ => import_errors (i + 1) lines'
    | inl e =>
      ("Line " +:+ str_of_Z (i + 1) +:+ ": " +:+ exn_str e)
        :: import_errors (i + 1) lines'
    end
  end.

(** Consecutive ids from [n] on. *)
Fixpoint number_from (n : Z) (l : list Transaction) : list Transaction :=
  match l with
  | [] => []
  | t :: l' => set_id (Some n) t :: number_from (n + 1) l'
  end.

Definition newline : string := String "010" "".

(** Three lines, the second of which is not a CSV line. *)
Definition three_lines : string :=
  "2023-10-01,-50.00,Groceries,Weekly shop" +:+ newline +:+
  "not a transaction" +:+ newline +:+
  "10/02/2023,1000,Income" +:+ newline.

(** ** The language of a regular expression

    [matches r w]: the text [w] belongs to the language of [r].  The
    matcher consumes only such texts (lemma [run_sound]). *)

Inductive matches : regex -> text -> Prop :=
| M_eps : matches Eps []
| M_class p c : p c = true -> matches (Class p) [c]
| M_cat r1 r2 w1 w2 :
    matches r1 w1 -> matches r2 w2 -> matches (Cat r1 r2) (w1 ++ w2)
| M_alt_l r1 r2 w : matches r1 w -> matches (Alt r1 r2) w
| M_alt_r r1 r2 w : matches r2 w -> matches (Alt r1 r2) w
| M_opt_none r : matches (Opt r) []
| M_opt_some r w : matches r w -> matches (Opt r) w
| M_many p w : forallb p w = true -> matches (Many p) w
| M_grp name r w : matches r w -> matches (Grp name r) w.

(** ** The fields of a line, in the words of the specification *)

(** [s.split(sep)] *)
Fixpoint split_on (sep : ascii) (s : text) : list text :=
  match s with
  | [] => [[]]
  | c :: s' =>
    if Ascii.eqb c sep then [] :: split_on sep s'
    else match split_on sep s' with
         | h :: t => (c :: h) :: t
         | [] => [[c]]
         end
  end.

(** The [n]-th comma-separated field of a line, without the white space
    around it; empty when the line has fewer fields. *)
Definition field (n : nat) (line : string) : text :=
  strip (nth n (split_on "," (text_of line)) []).

Definition digits (lo hi : nat) (w : text) : bool :=
  forallb is_digit w && (lo <=? length w)%nat && (length w <=? hi)%nat.

(** [YYYY-MM-DD] *)
Definition iso_shape (d : text) : bool :=
  match split_on "-" d with
  | [y; m; dd] => digits 4 4 y && digits 2 2 m && digits 2 2 dd
  | _ => false
  end.

(** [M/D/YYYY], one or two digits for the month and for the day *)
Definition us_shape (d : text) : bool :=
  match split_on "/" d with
  | [m; dd; y] => digits 1 2 m && digits 1 2 dd && digits 4 4 y
  | _ => false
  end.

Definition date_shape (d : text) : bool := iso_shape d || us_shape d.

Definition nonempty_digits (w : text) : bool :=
  forallb is_digit w && (1 <=? length w)%nat.

(** An optional minus sign, digits, and an optional fraction of a point
    and digits. *)
Definition amount_shape (a : text) : bool :=
  let a' :=
    match a with
    | c :: r => if Ascii.eqb c "-" then r else a
    | [] => a
    end in
  match split_on "." a' with
  | [ip] => nonempty_digits ip
  | [ip; fp] => nonempty_digits ip && nonempty_digits fp
  | _ => false
  end.

(** A text without white space at either end. *)
Definition tight (w : text) : bool :=
  match w with
  | [] => false
  | c :: _ => negb (is_space c) && negb (is_space (List.last w c))
  end.

(** One step of the loop of [get_category_totals], on a transaction given
    by value. *)
Definition add_amount (totals : dict Q) (t : Transaction) : dict Q :=
  dict_set totals (t_category t)
           (dict_get totals (t_category t) 0 + t_amount t)%Q.

(** Every character class of [r] lies within the class [q]. *)
Fixpoint classes_within (q : ascii -> bool) (r : regex) : Prop :=
  match r with
  | Eps => True
  | Class p | Many p => forall c, p c = true -> q c = true
  | Cat r1 r2 | Alt r1 r2 => classes_within q r1 /\ classes_within q r2
  | Opt r' | Grp _ r' => classes_within q r'
  end.

(** A bounded universal quantifier: [P] holds of the [n] integers from
    [z] on. *)
Fixpoint all_from (P : Z -> bool) (z : Z) (n : nat) : bool :=
  match n with
  | O => true
  | S n' => P z && all_from P (z + 1) n'
  end.

(** A number below [10^n], padded to [n] digits, has [n] characters and
    reads back as itself. *)
Definition pad_ok (n : nat) (z : Z) : bool :=
  let s := text_of (zero_pad n (str_of_Z z)) in
  (length s =? n)%nat && (int_of_digits s =? z).

(** ** Dates as they are written in a line *)

(** [M/D/YYYY] with [pad] digits at least for the month and the day *)
Definition us_format (pad : nat) (dt : Date) : string :=
  zero_pad pad (str_of_Z (month dt)) +:+ "/" +:+
  zero_pad pad (str_of_Z (day dt)) +:+ "/" +:+
  zero_pad 4 (str_of_Z (year dt)).

Definition date_eqb (a b : Date) : bool :=
  (year a =? year b) && (month a =? month b) && (day a =? day b).

(** The line made of a written date and of the last three fields of the
    first test line is parsed to the date [dt] and to these fields. *)
Definition parses_to (written : string) (dt : Date) : bool :=
  match parse_csv_line (written +:+ ",-50.00,Groceries,Weekly shop") with
  | inr (d, a, c, ds) =>
    date_eqb d dt && Qeq_bool a (-50) && String.eqb c "Groceries"
    && String.eqb ds "Weekly shop"
  | inl _ => false
  end.

Definition accepted (dt : Date) : bool :=
  parses_to (isoformat dt) dt && parses_to (us_format 1 dt) dt
  && parses_to (us_format 2 dt) dt.

(** ** repositories/transaction_repository.py: TransactionRepository

    The repository holds the account; its methods forward to it, and
    [update] and [delete] turn an [InvalidTransactionError] into [False]. *)

Module TransactionRepository.

(** [save] *)
Definition save (r : ref) : Cmd ref :=
  cbind (add_transaction r) (fun _ => cret r).

(** [find_by_id] *)
Definition find_by_id (s : State) (transaction_id : Z) : option ref :=
  get_transaction_by_id s transaction_id.

(** The dictionary of filters of [find_all]: each of the three keys is
    present or not. *)
Record Filters : Type := mkFilters {
  f_start_date : option Date;
  f_end_date : option Date;
  f_category : option string
}.

(** [find_all]: [filters or {}] is the empty dictionary when [filters] is
    [None]. *)
Definition find_all (s : State) (filters : option Filters) : list ref :=
  match filters with
  | None => list_transactions s None None None
  | Some f => list_transactions s (f_start_date f) (f_end_date f) (f_category f)
  end.

(** [find_by_date_range] *)
Definition find_by_date_range (s : State) (start_date : Date)
    (end_date : option Date) : list ref :=
  list_transactions s (Some start_date) end_date None.

(** [find_by_category] *)
Definition find_by_category (s : State) (category : string) : list ref :=
  list_transactions s None None (Some category).

(** [try: ...; return True; except InvalidTransactionError: return False]:
    any other exception propagates. *)
Definition catch_invalid (c : Cmd unit) : Cmd bool :=
  fun s =>
    match c s with
    | (s', inr _) => (s', ret true)
    | (s', inl (InvalidTransactionError _)) => (s', ret false)
    | (s', inl e) => (s', inl e)
    end.

(** [update] *)
Definition update (transaction_id : Z) (date amount category description : pyval)
    : Cmd bool :=
  catch_invalid (update_transaction transaction_id date amount category description).

(** [delete] *)
Definition delete (transaction_id : Z) : Cmd bool :=
  catch_invalid (delete_transaction transaction_id).

(** [get_balance] *)
Definition get_balance (s : State) : Q := get_balance s.

(** [count] *)
Definition count (s : State) : nat := length (transactions (acct s)).

(** [exists] *)
Definition exists_ (s : State) (transaction_id : Z) : bool :=
  match find_by_id s transaction_id with
  | Some _ => true
  | None => false
  end.

End TransactionRepository.

(** ** Auxiliary notions for the properties of the account *)

(** The value that a keyword argument of [update_transaction] gives to a
    field: [None] keeps the field. *)
Definition upd_date (v : pyval) (t : Transaction) : Transaction :=
  match as_date v with Some d => set_date d t | None => t end.
Definition upd_amount (v : pyval) (t : Transaction) : Transaction :=
  match as_number v with Some a => set_amount a t | None => t end.
Definition upd_category (v : pyval) (t : Transaction) : Transaction :=
  match as_str v with Some c => set_category c t | None => t end.
Definition upd_description (v : pyval) (t : Transaction) : Transaction :=
  if is_none v then t else set_description v t.

Definition is_Some_b {A} (o : option A) : bool :=
  match o with Some _ => true | None => false end.

(** The arguments that [update_transaction] accepts: each of date, amount
    and category is [None] or passes the check of its field. *)
Definition valid_update (date amount category : pyval) : bool :=
  (is_none date || is_Some_b (as_date date)) &&
  (is_none amount || is_Some_b (as_number amount)) &&
  (is_none category ||
   match as_str category with Some c => str_truthy c | None => false end).

(** A sequence of calls of [Budget.set_budget]; a call that raises leaves
    the budget as it was. *)
Definition set_budget_calls (b : Budget) (calls : list (string * Q)) : Budget :=
  fold_left (fun b call =>
               match set_budget b (fst call) (snd call) with
               | inr b' => b'
               | inl _ => b
               end) calls b.

(** No dangling reference: every transaction of the account is an
    allocated object. *)
Definition allocated (s : State) : Prop :=
  forall r, In r (transactions (acct s)) -> (r < length (heap s))%nat.

(** An account with one transaction, and a second object not yet added. *)
Definition one_added_one_new : State :=
  mkState [ mkTransaction (mkDate 2023 10 1) 100%Q "Income" (PyStr "Salary") (Some 1);
            mkTransaction (mkDate 2023 10 2) (-50)%Q "Groceries" (PyStr "") None ]
          (mkAccount [0%nat] 2).

(** The account of the test suite after two saves. *)
Definition two_transactions : State :=
  mkState [ mkTransaction (mkDate 2023 10 1) 100%Q "Income" (PyStr "") (Some 1);
            mkTransaction (mkDate 2023 10 1) (-50)%Q "Groceries" (PyStr "") (Some 2) ]
          (mkAccount [0%nat; 1%nat] 3).


(** Commands that write to the object [r] only, and allocate nothing. *)
Definition only_touches {A} (r : ref) (c : Cmd A) : Prop :=
  forall s, length (heap (fst (c s))) = length (heap s) /\
            forall x, x <> r -> heap (fst (c s)) !! x = heap s !! x.

(** ** The groups of a match

    [matches_with r w c c']: the text [w] is in the language of [r], and a
    match of [w] that starts with the captures [c] ends with the captures
    [c']: each group puts the text it has matched in front. *)
Inductive matches_with : regex -> text -> captures -> captures -> Prop :=
| MW_eps c : matches_with Eps [] c c
| MW_class p a c : p a = true -> matches_with (Class p) [a] c c
| MW_cat r1 r2 w1 w2 c c1 c2 :
    matches_with r1 w1 c c1 -> matches_with r2 w2 c1 c2 ->
    matches_with (Cat r1 r2) (w1 ++ w2) c c2
| MW_alt_l r1 r2 w c c' : matches_with r1 w c c' -> matches_with (Alt r1 r2) w c c'
| MW_alt_r r1 r2 w c c' : matches_with r2 w c c' -> matches_with (Alt r1 r2) w c c'
| MW_opt_none r c : matches_with (Opt r) [] c c
| MW_opt_some r w c c' : matches_with r w c c' -> matches_with (Opt r) w c c'
| MW_many p w c : forallb p w = true -> matches_with (Many p) w c c
| MW_grp name r w c c' :
    matches_with r w c c' -> matches_with (Grp name r) w c ((name, w) :: c').

(** Expressions without group *)
Fixpoint group_free (r : regex) : bool :=
  match r with
  | Cat r1 r2 | Alt r1 r2 => group_free r1 && group_free r2
  | Opt r' => group_free r'
  | Grp _ _ => false
  | _ => true
  end.

(** The format that [parse_csv_line] chooses for a date text *)
Definition format_of (date_str : text) : list fmt_item :=
  if existsb (is_char "/") date_str then fmt_us else fmt_iso.

(** The pattern of [parse_csv_line] up to the second comma, and from
    there on. *)
Definition csv_head : regex :=
  Seq [ Spaces; Grp "date" date_regex; Spaces; Lit ","; Spaces;
        Grp "amount" amount_regex; Spaces; Lit "," ].
Definition csv_tail : regex :=
  Seq [ Spaces; Grp "category" (Plus (not_char ",")); Spaces;
        Opt (Seq [Lit ","; Spaces; Grp "description" (Many (not_char "010"))]) ].

(** The text after the first comma of [s], when there is one *)
Definition after_comma (s : text) : option text :=
  match drop_while (not_char ",") s with
  | _ :: v => Some v
  | [] => None
  end.

(** The description of a line: the text after the third comma, without
    the white space in front of it, up to the first line feed; empty when
    the line has no third comma. *)
Definition description_field (line : string) : text :=
  match after_comma (text_of line) with
  | Some s1 =>
    match after_comma s1 with
    | Some s2 =>
      match after_comma s2 with
      | Some v => take_while (not_char "010") (lstrip v)
      | None => []
      end
    | None => []
    end
  | None => []
  end.

(** A text at which a repetition of the class [p] cannot go on *)
Definition stops (p : ascii -> bool) (u : text) : Prop :=
  match u with
  | [] => True
  | y :: _ => p y = false
  end.

(** ** The arguments of the constructor, read off the values

    The classes of arguments that the specification of [Transaction]
    names, decided on the value itself and not through the tests of
    [Transaction_init]: a date object, a number ([bool] is a subclass of
    [int]), a text that is not empty; and the number that a numeric
    argument denotes. *)
Definition is_date_object (v : pyval) : bool :=
  match v with PyDate _ => true | _ => false end.

Definition is_numeric (v : pyval) : bool :=
  match v with PyBool _ | PyInt _ | PyFloat _ => true | _ => false end.

Definition is_nonempty_text (v : pyval) : bool :=
  match v with PyStr (String _ _) => true | _ => false end.

Definition number_value (v : pyval) : Q :=
  match v with
  | PyBool true => 1%Q
  | PyInt z => inject_Z z
  | PyFloat q => q
  | _ => 0%Q
  end.

(** The number of calls of [add_transaction] in a sequence of operations
    whose argument is a Transaction object (an allocated reference at the
    time of the call), whatever the calls do. *)
Fixpoint count_object_adds (s : State) (ops : list op) : nat :=
  match ops with
  | [] => O
  | o :: ops' =>
    (match o with
     | OpAdd r => if (r <? length (heap s))%nat then 1 else 0
     | _ => 0
     end + count_object_adds (step s o) ops')%nat
  end.

(** No call of [add_transaction] in the sequence is given an object that
    is in the account at the time of the call. *)
Fixpoint adds_new_objects (s : State) (ops : list op) : Prop :=
  match ops with
  | [] => True
  | o :: ops' =>
    match o with
    | OpAdd r => ~ In r (transactions (acct s))
    | _ => True
    end /\ adds_new_objects (step s o) ops'
  end.

(** Two transactions created and added, the first deleted, a third
    created and added. *)
Definition add_add_delete_add : list op :=
  [ OpNew (PyDate (mkDate 2023 10 1)) (PyFloat 100) (PyStr "Income") (PyStr "") None;
    OpAdd 0%nat;
    OpNew (PyDate (mkDate 2023 10 2)) (PyFloat (-50)) (PyStr "Groceries") (PyStr "") None;
    OpAdd 1%nat;
    OpDelete 1;
    OpNew (PyDate (mkDate 2023 10 3)) (PyFloat (-5)) (PyStr "Coffee") (PyStr "") None;
    OpAdd 2%nat ].

(** [first_match r w rest]: on the text [w ++ rest], the matcher of [r]
    answers what the continuation answers at [rest], whenever the
    continuation accepts there. *)
Definition first_match (r : regex) (w rest : text) : Prop :=
  forall R c (k : text -> captures -> option R) x,
    k rest c = Some x -> run r (w ++ rest) c k = Some x.

(** * Properties *)

(** ** The model on sample inputs

    Dates, lines and formats on which the definitions are run; the
    results are those of the Python library. *)

Example isoformat_ex : isoformat (mkDate 2023 10 1) = "2023-10-01".
Proof. reflexivity. Qed.

Example isoformat_pad : isoformat (mkDate 5 1 2) = "0005-01-02".
Proof. reflexivity. Qed.

Example fmt_us_str : fmt_str fmt_us = "%m/%d/%Y".
Proof. reflexivity. Qed.

Example fmt_iso_str : fmt_str fmt_iso = "%Y-%m-%d".
Proof. reflexivity. Qed.

Example parse_iso_line :
  parse_csv_line "2023-10-01,-50.00,Groceries,Weekly shop"
  = inr (mkDate 2023 10 1, (-50)%Q, "Groceries", "Weekly shop").
Proof. vm_compute. reflexivity. Qed.

Example parse_us_line :
  parse_csv_line "10/01/2023,-50.00,Groceries"
  = inr (mkDate 2023 10 1, (-50)%Q, "Groceries", "").
Proof. vm_compute. reflexivity. Qed.

Example parse_spaces_line :
  parse_csv_line "  1/2/2023 , 12.5 ,  Eating out  ,  a, b"
  = inr (mkDate 2023 1 2, (25 # 2)%Q, "Eating out", "a, b").
Proof. vm_compute. reflexivity. Qed.

Example parse_blank_category :
  parse_csv_line "2023-10-01,5, ,x"
  = inr (mkDate 2023 10 1, 5%Q, "", "x").
Proof. vm_compute. reflexivity. Qed.

Example parse_bad_amount :
  parse_csv_line "2023-10-01,abc,Groceries"
  = inl (format_error "2023-10-01,abc,Groceries").
Proof. vm_compute. reflexivity. Qed.

Example parse_bad_month :
  parse_csv_line "2023-13-01,-5,Groceries"
  = inl (ValueError "time data '2023-13-01' does not match format '%Y-%m-%d'").
Proof. vm_compute. reflexivity. Qed.

Example parse_bad_day :
  parse_csv_line "2/30/2023,-5,Groceries"
  = inl (ValueError "day is out of range for month").
Proof. vm_compute. reflexivity. Qed.

Example parse_unconverted :
  parse_csv_line "2023-10-32,-5,Groceries"
  = inl (ValueError "unconverted data remains: 2").
Proof. vm_compute. reflexivity. Qed.

Example parse_year_zero :
  parse_csv_line "0000-10-01,-5,Groceries"
  = inl (ValueError "year 0 is out of range").
Proof. vm_compute. reflexivity. Qed.

Example splitlines_ex :
  map str_of (splitlines (text_of (String "a" (String "013" (String "010"
                (String "010" (String "b" (String "013" "")))))))) = ["a"; ""; "b"].
Proof. vm_compute. reflexivity. Qed.

(** ** Account.list_transactions *)

(** C10.  An empty category string is falsy, so [list_transactions] with
    [category=""] applies no category filter: it returns what the call
    without the filter returns, all categories included, and not the
    transactions whose category is the empty string. *)
Theorem list_transactions_empty_category :
  (forall s start_date end_date,
      list_transactions s start_date end_date (Some "")
      = list_transactions s start_date end_date None) /\
  (forall s, list_transactions s None None (Some "") = transactions (acct s)) /\
  (exists s,
      list_transactions s None None (Some "")
      <> List.filter (fun r => String.eqb (category_of s r) "")
                     (transactions (acct s))).
Proof.
  split; [|split].
  - intros s sd ed. reflexivity.
  - intros s. reflexivity.
  - exists (mkState [mkTransaction (mkDate 2023 10 1) (-50)%Q "Groceries" (PyStr "") (Some 1)]
                    (mkAccount [0%nat] 2)).
    vm_compute. discriminate.
Qed.

(** A non-empty category does restrict the result. *)
Lemma list_transactions_category s start_date end_date c :
  str_truthy c = true ->
  list_transactions s start_date end_date (Some c)
  = List.filter (fun r => String.eqb (category_of s r) c)
                (list_transactions s start_date end_date None).
Proof. intros Hc. unfold list_transactions. rewrite Hc. reflexivity. Qed.

(** ** Account.update_transaction *)

Lemma cbind_raise {A B} (m : Cmd A) (f : A -> Cmd B) s s' e :
  m s = (s', inl e) -> cbind m f s = (s', inl e).
Proof. intros H. unfold cbind. rewrite H. reflexivity. Qed.

Lemma cbind_ret {A B} (m : Cmd A) (f : A -> Cmd B) s s' a :
  m s = (s', inr a) -> cbind m f s = f a s'.
Proof. intros H. unfold cbind. rewrite H. reflexivity. Qed.

Lemma found_is_allocated s i r :
  get_transaction_by_id s i = Some r -> (r < length (heap s))%nat.
Proof.
  unfold get_transaction_by_id. intros H.
  apply find_some in H as [_ H].
  destruct (decide (r < length (heap s))%nat) as [|Hge]; [assumption|].
  unfold deref, id_is in H.
  rewrite list_lookup_total_alt, lookup_ge_None_2 in H by lia.
  discriminate.
Qed.

Lemma deref_alter h r f :
  (r < length h)%nat -> deref (alter f r h) r = f (deref h r).
Proof.
  intros Hr. unfold deref.
  destruct (lookup_lt_is_Some_2 h r Hr) as [t Ht].
  rewrite !list_lookup_total_alt, list_lookup_alter_eq, Ht. reflexivity.
Qed.

Lemma deref_alter_ne h r r' f :
  r <> r' -> deref (alter f r h) r' = deref h r'.
Proof.
  intros Hr. unfold deref.
  rewrite !list_lookup_total_alt, list_lookup_alter_ne by assumption. reflexivity.
Qed.

(** C9.  [update_transaction] checks and writes the fields one after the
    other, in the order date, amount, category, description.  A rejected
    date leaves the transaction untouched; a rejected amount is reported
    after the date has been written; a rejected category after the date and
    the amount have been written.  The update is not atomic. *)
Theorem update_transaction_not_atomic s i r :
  get_transaction_by_id s i = Some r ->
  (forall date amount category description,
      is_none date = false -> as_date date = None ->
      update_transaction i date amount category description s
      = (s, inl (InvalidTransactionError "date must be a datetime.date instance"))) /\
  (forall d amount category description,
      is_none amount = false -> as_number amount = None ->
      let s' := mkState (alter (set_date d) r (heap s)) (acct s) in
      update_transaction i (PyDate d) amount category description s
      = (s', inl (InvalidTransactionError "amount must be a number")) /\
      t_date (deref (heap s') r) = d) /\
  (forall d a category description,
      is_none category = false ->
      (forall c, as_str category = Some c -> c = "") ->
      let s' := mkState (alter (set_amount a) r (alter (set_date d) r (heap s)))
                        (acct s) in
      update_transaction i (PyDate d) (PyFloat a) category description s
      = (s', inl (InvalidTransactionError "category must be a non-empty string")) /\
      t_date (deref (heap s') r) = d /\ t_amount (deref (heap s') r) = a).
Proof.
  intros Hfind. pose proof (found_is_allocated _ _ _ Hfind) as Hr.
  split; [|split].
  - intros date amount category description Hn Hd.
    unfold update_transaction. rewrite Hfind.
    apply cbind_raise. unfold cwhen. rewrite Hn, Hd. reflexivity.
  - intros d amount category description Hn Ha s'. split.
    + unfold update_transaction. rewrite Hfind.
      erewrite cbind_ret by reflexivity.
      apply cbind_raise. unfold cwhen. rewrite Hn, Ha. reflexivity.
    + subst s'. cbn [heap]. rewrite deref_alter by assumption. reflexivity.
  - intros d a category description Hn Hc s'. split; [|split].
    + unfold update_transaction. rewrite Hfind.
      erewrite cbind_ret by reflexivity.
      erewrite cbind_ret by reflexivity.
      apply cbind_raise. unfold cwhen. rewrite Hn. cbn [negb].
      destruct (as_str category) as [c|] eqn:Hs; [|reflexivity].
      rewrite (Hc c eq_refl). reflexivity.
    + subst s'. cbn [heap].
      rewrite !deref_alter by (rewrite ?length_alter; assumption). reflexivity.
    + subst s'. cbn [heap].
      rewrite !deref_alter by (rewrite ?length_alter; assumption). reflexivity.
Qed.

(** The update of the test suite's transaction with a new date and the
    text "100" as amount raises, and the stored date has changed. *)
Lemma update_transaction_not_atomic_witness :
  get_transaction_by_id one_transaction 1 = Some 0%nat /\
  fst (update_transaction 1 (PyDate (mkDate 2024 1 1)) (PyStr "100") PyNone PyNone
                          one_transaction)
  = mkState [mkTransaction (mkDate 2024 1 1) 100%Q "Income" (PyStr "Salary") (Some 1)]
            (mkAccount [0%nat] 2) /\
  snd (update_transaction 1 (PyDate (mkDate 2024 1 1)) (PyStr "100") PyNone PyNone
                          one_transaction)
  = inl (InvalidTransactionError "amount must be a number").
Proof.
  split; [reflexivity|].
  destruct (update_transaction_not_atomic one_transaction 1 0%nat eq_refl)
    as (_ & H & _).
  destruct (H (mkDate 2024 1 1) (PyStr "100") PyNone PyNone eq_refl eq_refl)
    as [-> _].
  split; reflexivity.
Defined.

(** ** Transaction: construction and serialization *)

Lemma text_of_append (a b : string) : text_of (a +:+ b) = text_of a ++ text_of b.
Proof.
  unfold text_of. induction a as [|c a IH]; [reflexivity|].
  change (c :: list_ascii_of_string (a +:+ b)
          = c :: (list_ascii_of_string a ++ list_ascii_of_string b)).
  f_equal. exact IH.
Qed.

Lemma str_of_text_of (s : string) : str_of (text_of s) = s.
Proof. apply string_of_list_ascii_of_string. Qed.

Lemma text_of_str_of (l : text) : text_of (str_of l) = l.
Proof. apply list_ascii_of_string_of_list_ascii. Qed.

Lemma all_from_spec (P : Z -> bool) (n : nat) : forall z0,
  all_from P z0 n = true ->
  forall z, z0 <= z < z0 + Z.of_nat n -> P z = true.
Proof.
  induction n as [|n IH]; intros z0 H z Hz; [lia|].
  cbn in H. apply andb_true_iff in H as [H0 H].
  destruct (Z.eq_dec z z0) as [->|Hne]; [exact H0|].
  apply (IH (z0 + 1) H). lia.
Qed.

Lemma forall_below (P : Z -> bool) (n : Z) :
  all_from P 0 (Z.to_nat n) = true ->
  forall z, 0 <= z < n -> P z = true.
Proof.
  intros H z Hz. apply (all_from_spec P (Z.to_nat n) 0 H). lia.
Qed.

Lemma pad_ok_4 z : 0 <= z < 10000 -> pad_ok 4 z = true.
Proof. apply forall_below. vm_compute. reflexivity. Qed.

Lemma pad_ok_2 z : 0 <= z < 100 -> pad_ok 2 z = true.
Proof. apply forall_below. vm_compute. reflexivity. Qed.

Lemma pad_ok_inv n z :
  pad_ok n z = true ->
  length (text_of (zero_pad n (str_of_Z z))) = n /\
  int_of_digits (text_of (zero_pad n (str_of_Z z))) = z.
Proof.
  unfold pad_ok. cbv zeta. rewrite andb_true_iff, Nat.eqb_eq, Z.eqb_eq. tauto.
Qed.

Lemma valid_date_bounds d :
  valid_date d = true ->
  1 <= year d <= 9999 /\ 1 <= month d <= 12 /\ 1 <= day d <= 31.
Proof.
  unfold valid_date, date_new.
  destruct ((1 <=? year d) && (year d <=? 9999)) eqn:Hy; [|discriminate].
  destruct ((1 <=? month d) && (month d <=? 12)) eqn:Hm; [|discriminate].
  destruct ((1 <=? day d) && (day d <=? days_in_month (year d) (month d))) eqn:Hd;
    [|discriminate].
  intros _.
  assert (days_in_month (year d) (month d) <= 31).
  { unfold days_in_month.
    repeat match goal with |- context [if ?b then _ else _] => destruct b end; lia. }
  lia.
Qed.

(** The ISO-8601 text determines the date. *)
Lemma isoformat_inj d1 d2 :
  valid_date d1 = true -> valid_date d2 = true ->
  isoformat d1 = isoformat d2 -> d1 = d2.
Proof.
  intros H1 H2 Heq.
  apply valid_date_bounds in H1 as (Hy1 & Hm1 & Hd1).
  apply valid_date_bounds in H2 as (Hy2 & Hm2 & Hd2).
  apply (f_equal text_of) in Heq. unfold isoformat in Heq.
  rewrite !text_of_append in Heq.
  destruct (pad_ok_inv 4 (year d1)) as [Ly1 Iy1]; [apply pad_ok_4; lia|].
  destruct (pad_ok_inv 4 (year d2)) as [Ly2 Iy2]; [apply pad_ok_4; lia|].
  destruct (pad_ok_inv 2 (month d1)) as [Lm1 Im1]; [apply pad_ok_2; lia|].
  destruct (pad_ok_inv 2 (month d2)) as [Lm2 Im2]; [apply pad_ok_2; lia|].
  destruct (pad_ok_inv 2 (day d1)) as [Ld1 Id1]; [apply pad_ok_2; lia|].
  destruct (pad_ok_inv 2 (day d2)) as [Ld2 Id2]; [apply pad_ok_2; lia|].
  apply app_inj_1 in Heq as [Ey Heq]; [|congruence].
  cbn [text_of list_ascii_of_string app] in Heq.
  injection Heq as Heq.
  apply app_inj_1 in Heq as [Em Heq]; [|congruence].
  injection Heq as Heq.
  destruct d1 as [y1 m1 dd1], d2 as [y2 m2 dd2]; cbn [year month day] in *.
  f_equal; congruence.
Qed.

(** C8.  The constructor raises exactly when the date argument is not
    a date object, the amount is not a number, or the category is not a
    text or is empty; what it raises is [InvalidTransactionError], with the
    message of the first of the three tests that fails, in the order date,
    amount, category; a failed construction allocates no object.  For a
    date object, a number and a non-empty text it returns the transaction
    with these values, the description and the id as given, whose
    serialized view carries the ISO-8601 text of the date, the amount, the
    category and the description, and no id; the ISO-8601 text determines
    the date. *)
Theorem Transaction_init_validation :
  (forall date amount category description id,
      (exists msg, Transaction_init date amount category description id
                   = inl (InvalidTransactionError msg))
      <-> is_date_object date && is_numeric amount && is_nonempty_text category
          = false) /\
  (forall date amount category description id e,
      Transaction_init date amount category description id = inl e ->
      e = InvalidTransactionError
            (if negb (is_date_object date)
             then "date must be a datetime.date instance"
             else if negb (is_numeric amount) then "amount must be a number"
             else "category must be a non-empty string") /\
      forall s, Transaction_new date amount category description id s = (s, inl e)) /\
  (forall d amount c description id,
      is_numeric amount = true -> c <> "" ->
      Transaction_init (PyDate d) amount (PyStr c) description id
      = inr (mkTransaction d (number_value amount) c description id) /\
      to_dict (mkTransaction d (number_value amount) c description id)
      = [ ("date", DStr (isoformat d)); ("amount", DNum (number_value amount));
          ("category", DStr c); ("description", DVal description) ] /\
      ~ In "id" (map fst (to_dict (mkTransaction d (number_value amount) c
                                                 description id)))) /\
  (forall d1 d2, valid_date d1 = true -> valid_date d2 = true ->
                 isoformat d1 = isoformat d2 -> d1 = d2).
Proof.
  split; [|split; [|split]].
  - intros date amount category description id.
    destruct date; cbn;
      try (split; [reflexivity|intros _; eexists; reflexivity]).
    destruct amount; cbn;
      try (split; [reflexivity|intros _; eexists; reflexivity]);
      (destruct category as [| | | |[|x c]|]; cbn;
       try (split; [reflexivity|intros _; eexists; reflexivity]);
       (split; [intros [msg H]; discriminate H|discriminate])).
  - intros date amount category description id e He.
    split; [|intros s; unfold Transaction_new; rewrite He; reflexivity].
    revert He. destruct date; cbn; try (intros [= <-]; reflexivity).
    destruct amount; cbn; try (intros [= <-]; reflexivity);
      (destruct category as [| | | |[|x c]|]; cbn;
       first [intros [= <-]; reflexivity | discriminate]).
  - intros d amount c description id Ha Hc.
    split; [|split; [reflexivity|]].
    + destruct c as [|x c]; [congruence|].
      destruct amount as [|[]| | | |]; try discriminate Ha; reflexivity.
    + cbn. intros [H|[H|[H|[H|[]]]]]; discriminate.
  - exact isoformat_inj.
Qed.

(** The transaction of the test suite; a text in place of the amount. *)
Lemma Transaction_init_validation_witness :
  Transaction_init (PyDate (mkDate 2023 10 1)) (PyFloat (-50)) (PyStr "Groceries")
                   (PyStr "Weekly shop") None
  = inr (mkTransaction (mkDate 2023 10 1) (-50)%Q "Groceries" (PyStr "Weekly shop")
                       None) /\
  (exists msg, Transaction_init (PyDate (mkDate 2023 10 1)) (PyStr "fifty")
                                (PyStr "Groceries") PyNone None
               = inl (InvalidTransactionError msg)).
Proof.
  split.
  - exact (proj1 (proj1 (proj2 (proj2 Transaction_init_validation))
                        (mkDate 2023 10 1) (PyFloat (-50)) "Groceries"
                        (PyStr "Weekly shop") None eq_refl
                        ltac:(discriminate))).
  - exact (proj2 (proj1 Transaction_init_validation
                        (PyDate (mkDate 2023 10 1)) (PyStr "fifty")
                        (PyStr "Groceries") PyNone None) eq_refl).
Defined.

(** ** The month window *)

Lemma filter_filter {A} (p q : A -> bool) (l : list A) :
  List.filter q (List.filter p l) = List.filter (fun x => p x && q x) l.
Proof.
  induction l as [|x l IH]; cbn; [reflexivity|].
  destruct (p x); cbn; [|exact IH].
  destruct (q x); [f_equal|]; exact IH.
Qed.

(** What [list_transactions] selects between two dates: both ends are
    included. *)
Lemma list_transactions_between s a b :
  list_transactions s (Some a) (Some b) None
  = List.filter (fun r => date_leb a (date_of s r) && date_leb (date_of s r) b)
                (transactions (acct s)).
Proof. unfold list_transactions. apply filter_filter. Qed.

Lemma days_in_month_ge y m : 28 <= days_in_month y m.
Proof.
  unfold days_in_month.
  repeat match goal with |- context [if ?b then _ else _] => destruct b end; lia.
Qed.

Lemma date_new_ok y m d :
  1 <= y <= 9999 -> 1 <= m <= 12 -> 1 <= d <= days_in_month y m ->
  date_new y m d = inr (mkDate y m d).
Proof.
  intros Hy Hm Hd. unfold date_new.
  assert (E1 : (1 <=? y) && (y <=? 9999) = true) by lia.
  assert (E2 : (1 <=? m) && (m <=? 12) = true) by lia.
  assert (E3 : (1 <=? d) && (d <=? days_in_month y m) = true) by lia.
  rewrite E1, E2, E3. reflexivity.
Qed.

Lemma month_bounds_ok today y m :
  1 <= y <= 9998 -> 1 <= m <= 12 ->
  month_bounds today (Some y) (Some m)
  = inr (first_of_month y m, first_of_next_month y m).
Proof.
  intros Hy Hm. unfold month_bounds, first_of_month, first_of_next_month.
  rewrite (date_new_ok y m 1) by (pose proof (days_in_month_ge y m); lia).
  cbn [bind].
  destruct (m =? 12) eqn:E12.
  - rewrite date_new_ok by (pose proof (days_in_month_ge (y + 1) 1); lia).
    reflexivity.
  - rewrite date_new_ok by (pose proof (days_in_month_ge y (m + 1)); lia).
    reflexivity.
Qed.

(** The transactions that the monthly aggregations of the service read:
    those dated from the first of the month up to and including the first
    of the next month. *)
Lemma monthly_transactions_inclusive s today y m :
  1 <= y <= 9998 -> 1 <= m <= 12 ->
  monthly_transactions s today (Some y) (Some m)
  = inr (List.filter
           (fun r => date_leb (first_of_month y m) (date_of s r) &&
                     date_leb (date_of s r) (first_of_next_month y m))
           (transactions (acct s))).
Proof.
  intros Hy Hm. unfold monthly_transactions.
  rewrite month_bounds_ok by assumption. cbn [bind ret].
  f_equal. apply list_transactions_between.
Qed.

Lemma date_compare_eq a b : date_compare a b = Eq -> a = b.
Proof.
  unfold date_compare. destruct a as [y1 m1 d1], b as [y2 m2 d2]; cbn.
  destruct (y1 ?= y2) eqn:Ey; try discriminate.
  destruct (m1 ?= m2) eqn:Em; try discriminate.
  intros Ed. apply Z.compare_eq in Ey, Em, Ed. congruence.
Qed.

Lemma date_leb_ltb a b : a <> b -> date_leb a b = date_ltb a b.
Proof.
  intros Hne. unfold date_leb, date_ltb.
  destruct (date_compare a b) eqn:E; try reflexivity.
  apply date_compare_eq in E. contradiction.
Qed.

Lemma filter_ext_in_bool {A} (p q : A -> bool) (l : list A) :
  (forall x, In x l -> p x = q x) -> List.filter p l = List.filter q l.
Proof.
  induction l as [|x l IH]; intros H; cbn; [reflexivity|].
  rewrite (H x) by (left; reflexivity).
  rewrite IH by (intros; apply H; right; assumption). reflexivity.
Qed.

(** Away from the first day of the next month, the service reads exactly
    the half-open window. *)
Lemma monthly_transactions_off_boundary s today y m :
  1 <= y <= 9998 -> 1 <= m <= 12 ->
  (forall r, In r (transactions (acct s)) -> date_of s r <> first_of_next_month y m) ->
  monthly_transactions s today (Some y) (Some m)
  = inr (List.filter (fun r => in_month_window y m (date_of s r))
                     (transactions (acct s))).
Proof.
  intros Hy Hm Hoff. rewrite monthly_transactions_inclusive by assumption.
  f_equal. apply filter_ext_in_bool. intros r Hr.
  unfold in_month_window.
  rewrite (date_leb_ltb (date_of s r) (first_of_next_month y m))
    by (apply Hoff; assumption).
  reflexivity.
Qed.

(** C1.  The aggregations for October 2023 read the transactions dated
    on the first of November 2023, which lie outside the half-open window
    of October; likewise December 2023 reads the first of January 2024.
    [list_transactions] compares with [<=] against the first day of the
    next month. *)
Theorem monthly_window_includes_next_first :
  in_month_window 2023 10 (mkDate 2023 11 1) = false /\
  monthly_transactions november_first mid_october (Some 2023) (Some 10)
  = inr [0%nat; 1%nat] /\
  get_monthly_spending november_first mid_october (Some 2023) (Some 10) = inr 50%Q /\
  get_monthly_income november_first mid_october (Some 2023) (Some 10) = inr 1000%Q /\
  get_category_totals november_first mid_october (Some 2023) (Some 10)
  = inr [("Groceries", (-50)%Q); ("Income", 1000%Q)] /\
  in_month_window 2023 12 (mkDate 2024 1 1) = false /\
  monthly_transactions january_first mid_october (Some 2023) (Some 12)
  = inr [0%nat].
Proof. vm_compute. repeat split; reflexivity. Qed.

(** ** Monthly spending and income *)

(** C3.  For October 2023 the service adds the purchase and the income
    dated on the first of November to the sums: spending is 70 where the
    amounts of the window add up to 20, income is 1300 where they add up
    to 300; with nothing dated in October the spending is 50, not 0.  The
    cause is the upper end of the window, as for the window itself. *)
Theorem monthly_sums_read_next_first :
  get_monthly_spending october_and_boundary mid_october (Some 2023) (Some 10)
  = inr 70%Q /\
  spec_monthly_spending october_and_boundary 2023 10 = 20%Q /\
  get_monthly_income october_and_boundary mid_october (Some 2023) (Some 10)
  = inr 1300%Q /\
  spec_monthly_income october_and_boundary 2023 10 = 300%Q /\
  spec_window november_first 2023 10 = [] /\
  get_monthly_spending november_first mid_october (Some 2023) (Some 10)
  = inr 50%Q.
Proof. vm_compute. repeat split; reflexivity. Qed.

(** ** Category totals *)

(** C4.  For October 2023 the totals of the service contain the
    category [Rent], whose only transaction is dated on the first of
    November, and so does the spending breakdown; the totals of the month
    window contain [Groceries] alone.  The cause is the upper end of the
    window. *)
Theorem category_totals_read_next_first :
  get_category_totals rent_on_boundary mid_october (Some 2023) (Some 10)
  = inr [("Groceries", (-20)%Q); ("Rent", (-700)%Q)] /\
  spec_category_totals rent_on_boundary 2023 10 = [("Groceries", (-20)%Q)] /\
  get_category_spending rent_on_boundary mid_october (Some 2023) (Some 10)
  = inr [("Groceries", 20%Q); ("Rent", 700%Q)] /\
  spec_category_spending rent_on_boundary 2023 10 = [("Groceries", 20%Q)].
Proof. vm_compute. repeat split; reflexivity. Qed.

(** ** Budget status *)

(** C2.  For a category whose net total of the month is positive, the
    service reports the total as spent: with a salary of 1000 and a limit
    of 100, [spent] is 1000 and [remaining] is -900, where the status in
    the words of the specification has [spent] 0 and [remaining] 100.
    [get_budget_status] takes [abs] of the total whatever its sign. *)
Theorem budget_status_counts_income_as_spent :
  get_budget_status salary_state (Some salary_budget) mid_october "Salary"
  = inr (Some (mkBudgetStatus 100%Q 1000%Q (-900)%Q)) /\
  spec_budget_status salary_state (Some salary_budget) mid_october "Salary"
  = Some (mkBudgetStatus 100%Q 0%Q 100%Q).
Proof. vm_compute. repeat split; reflexivity. Qed.

(** Without a budget the service answers [None]. *)
Lemma get_budget_status_no_budget s today category :
  get_budget_status s None today category = inr None.
Proof. reflexivity. Qed.

(** ** Identifiers *)

Lemma idof_deref s r i : idof s r = Some (Some i) -> t_id (deref (heap s) r) = Some i.
Proof.
  unfold idof, deref. intros H.
  destruct (heap s !! r) as [t|] eqn:Ht; [|discriminate].
  rewrite list_lookup_total_alt, Ht. cbn in *. congruence.
Qed.

Lemma keeps_ids_cret {A} (a : A) : keeps_ids (cret a).
Proof. intros s. split; reflexivity. Qed.

Lemma keeps_ids_craise {A} e : keeps_ids (@craise A e).
Proof. intros s. split; reflexivity. Qed.

Lemma keeps_ids_cbind {A B} (m : Cmd A) (f : A -> Cmd B) :
  keeps_ids m -> (forall a, keeps_ids (f a)) -> keeps_ids (cbind m f).
Proof.
  intros Hm Hf s. unfold cbind. specialize (Hm s).
  destruct (m s) as [s' [e|a]]; cbn [fst] in *; [exact Hm|].
  destruct Hm as [Ha Hi]. destruct (Hf a s') as [Ha' Hi'].
  split; [congruence|]. intros r. rewrite Hi'. apply Hi.
Qed.

Lemma keeps_ids_cwhen b (m : Cmd unit) : keeps_ids m -> keeps_ids (cwhen b m).
Proof. intros Hm. destruct b; [exact Hm|apply keeps_ids_cret]. Qed.

Lemma keeps_ids_mutate r f :
  (forall t, t_id (f t) = t_id t) -> keeps_ids (mutate r f).
Proof.
  intros Hf s. split; [reflexivity|]. intros r'. unfold idof, mutate. cbn.
  destruct (decide (r = r')) as [<-|Hne].
  - rewrite list_lookup_alter_eq. destruct (heap s !! r); cbn; [|reflexivity].
    rewrite Hf. reflexivity.
  - rewrite list_lookup_alter_ne by assumption. reflexivity.
Qed.

Lemma keeps_ids_update i date amount category description :
  keeps_ids (update_transaction i date amount category description).
Proof.
  intros s. unfold update_transaction.
  destruct (get_transaction_by_id s i) as [r|]; [|apply keeps_ids_craise].
  revert s.
  repeat first
    [ apply keeps_ids_cbind; [|intros _]
    | apply keeps_ids_cwhen ].
  - destruct (as_date date); [apply keeps_ids_mutate; reflexivity|apply keeps_ids_craise].
  - destruct (as_number amount); [apply keeps_ids_mutate; reflexivity|apply keeps_ids_craise].
  - destruct (as_str category) as [c|]; [|apply keeps_ids_craise].
    destruct (negb (str_truthy c)); [apply keeps_ids_craise|].
    apply keeps_ids_mutate; reflexivity.
  - apply keeps_ids_mutate; reflexivity.
Qed.

Lemma keeps_ids_inv s s' :
  acct s' = acct s -> (forall r, idof s' r = idof s r) -> ids_inv s -> ids_inv s'.
Proof.
  intros Ha Hi (H0 & H1 & H2). unfold ids_inv. rewrite Ha.
  split; [exact H0|]. split.
  - intros r Hr. rewrite Hi. apply H1, Hr.
  - intros r1 r2 Hr1 Hr2. rewrite !Hi. apply H2; assumption.
Qed.

Lemma in_remove_first r x l : In x (remove_first r l) -> In x l.
Proof.
  induction l as [|y l IH]; cbn; [tauto|].
  destruct (Nat.eqb y r); cbn; tauto.
Qed.

Lemma add_transaction_ok s r t :
  heap s !! r = Some t ->
  add_transaction r s
  = (mkState (alter (set_id (Some (next_id (acct s)))) r (heap s))
             (mkAccount (transactions (acct s) ++ [r]) (next_id (acct s) + 1)),
     inr tt).
Proof. intros H. unfold add_transaction. rewrite H. reflexivity. Qed.

Lemma add_transaction_fail s r :
  heap s !! r = None ->
  add_transaction r s
  = (s, inl (InvalidTransactionError "Must add a Transaction instance")).
Proof. intros H. unfold add_transaction. rewrite H. reflexivity. Qed.

Lemma step_inv s o : ids_inv s -> ids_inv (step s o).
Proof.
  intros Hinv. unfold step. destruct o as [d a c ds id|r|i d a c ds|i]; cbn [exec].
  - (* construction: the store grows at its end *)
    unfold cbind, Transaction_new.
    destruct (Transaction_init d a c ds id) as [e|t]; cbn; [exact Hinv|].
    destruct Hinv as (H0 & H1 & H2). split; [exact H0|]. split; cbn.
    + intros r Hr. destruct (H1 r Hr) as (i & Hi & Hb). exists i. split; [|exact Hb].
      unfold idof in *. cbn.
      destruct (heap s !! r) as [t'|] eqn:Ht; [|discriminate].
      rewrite (lookup_app_l_Some _ _ _ _ Ht). exact Hi.
    + intros r1 r2 Hr1 Hr2 Heq. apply H2; try assumption.
      destruct (H1 r1 Hr1) as (i1 & Hi1 & _), (H1 r2 Hr2) as (i2 & Hi2 & _).
      unfold idof in *. cbn in Heq.
      destruct (heap s !! r1) as [t1|] eqn:Ht1; [|discriminate].
      destruct (heap s !! r2) as [t2|] eqn:Ht2; [|discriminate].
      rewrite (lookup_app_l_Some _ _ _ _ Ht1), (lookup_app_l_Some _ _ _ _ Ht2) in Heq.
      exact Heq.
  - (* add *)
    destruct (heap s !! r) as [t|] eqn:Ht.
    2:{ rewrite add_transaction_fail by assumption. exact Hinv. }
    rewrite (add_transaction_ok _ _ _ Ht). cbn [fst].
    destruct Hinv as (H0 & H1 & H2).
    assert (Hr : forall x, idof (mkState (alter (set_id (Some (next_id (acct s)))) r (heap s))
                                (mkAccount (transactions (acct s) ++ [r])
                                           (next_id (acct s) + 1))) x
                      = if decide (r = x) then Some (Some (next_id (acct s)))
                        else idof s x).
    { intros x. unfold idof. cbn. destruct (decide (r = x)) as [<-|Hne].
      - rewrite list_lookup_alter_eq, Ht. reflexivity.
      - rewrite list_lookup_alter_ne by assumption. reflexivity. }
    split; [cbn; lia|]. split; cbn [acct transactions next_id].
    + intros x Hx. rewrite Hr. destruct (decide (r = x)) as [<-|Hne].
      * exists (next_id (acct s)). split; [reflexivity|lia].
      * apply in_app_or in Hx as [Hx|[Hx|[]]]; [|congruence].
        destruct (H1 x Hx) as (i & Hi & Hb). exists i. split; [exact Hi|lia].
    + intros r1 r2 Hr1 Hr2. rewrite !Hr.
      destruct (decide (r = r1)) as [<-|Hne1], (decide (r = r2)) as [E2|Hne2];
        try congruence.
      * intros Heq. apply in_app_or in Hr2 as [Hr2|[Hr2|[]]]; [|congruence].
        destruct (H1 r2 Hr2) as (i & Hi & Hb). rewrite Hi in Heq.
        injection Heq as Heq. lia.
      * intros Heq. apply in_app_or in Hr1 as [Hr1|[Hr1|[]]]; [|congruence].
        destruct (H1 r1 Hr1) as (i & Hi & Hb). rewrite Hi in Heq.
        injection Heq as Heq. lia.
      * intros Heq. apply in_app_or in Hr1 as [Hr1|[Hr1|[]]]; [|congruence].
        apply in_app_or in Hr2 as [Hr2|[Hr2|[]]]; [|congruence].
        apply H2; assumption.
  - (* update *)
    destruct (keeps_ids_update i d a c ds s) as [Ha Hi].
    eapply keeps_ids_inv; eassumption.
  - (* delete *)
    unfold delete_transaction.
    destruct (get_transaction_by_id s i) as [r|]; cbn; [|exact Hinv].
    destruct Hinv as (H0 & H1 & H2). split; [exact H0|]. split; cbn.
    + intros x Hx. apply H1. eapply in_remove_first, Hx.
    + intros r1 r2 Hr1 Hr2. apply H2; eapply in_remove_first; eassumption.
Qed.

Lemma run_ops_inv ops : forall s, ids_inv s -> ids_inv (run_ops s ops).
Proof.
  induction ops as [|o ops IH]; intros s Hs; [exact Hs|].
  cbn. apply IH, step_inv, Hs.
Qed.

Lemma init_state_inv : ids_inv init_state.
Proof.
  split; [cbn; lia|]. split; cbn; intros; contradiction.
Qed.

Lemma run_ops_app ops1 ops2 s :
  run_ops s (ops1 ++ ops2) = run_ops (run_ops s ops1) ops2.
Proof. unfold run_ops. apply fold_left_app. Qed.

(** Only a call of [add_transaction] that returns moves the counter, by
    one, and the id it assigns is the value the counter had. *)
Lemma step_counter s o :
  next_id (acct (step s o))
  = next_id (acct s) + Z.of_nat (count_adds s [o]) /\
  assigned_by o s = if (count_adds s [o] =? 0)%nat then [] else [next_id (acct s)].
Proof.
  unfold step. destruct o as [d a c ds id|r|i d a c ds|i]; cbn [exec count_adds assigned_by].
  - unfold cbind, Transaction_new.
    destruct (Transaction_init d a c ds id); cbn; split; (lia || reflexivity).
  - destruct (heap s !! r) as [t|] eqn:Ht.
    + rewrite (add_transaction_ok _ _ _ Ht). cbn.
      rewrite deref_alter by (eapply lookup_lt_Some; eassumption).
      cbn. split; [lia|reflexivity].
    + rewrite add_transaction_fail by assumption. cbn. split; [lia|reflexivity].
  - destruct (keeps_ids_update i d a c ds s) as [Ha _]. rewrite Ha. cbn.
    split; [lia|reflexivity].
  - unfold delete_transaction.
    destruct (get_transaction_by_id s i); cbn; split; (lia || reflexivity).
Qed.

Lemma count_adds_cons s o ops :
  count_adds s (o :: ops) = (count_adds s [o] + count_adds (step s o) ops)%nat.
Proof. cbn. lia. Qed.

Lemma assigned_counter ops : forall s,
  assigned s ops
  = map (fun k => next_id (acct s) + Z.of_nat k) (seq 0 (count_adds s ops)) /\
  next_id (acct (run_ops s ops)) = next_id (acct s) + Z.of_nat (count_adds s ops).
Proof.
  induction ops as [|o ops IH]; intros s.
  - cbn. split; [reflexivity|lia].
  - destruct (IH (step s o)) as [IHa IHn].
    destruct (step_counter s o) as [Hn Ha].
    rewrite count_adds_cons. cbn [assigned run_ops fold_left].
    fold (run_ops (step s o) ops). rewrite Ha, IHa, IHn, Hn.
    destruct (count_adds s [o]) as [|[|k]] eqn:Ec.
    + cbn. split; [|lia]. apply map_ext. intros k. lia.
    + cbn [Nat.eqb Nat.add seq map app]. split; [|lia].
      f_equal; [f_equal; lia|].
      rewrite <- seq_shift, map_map. apply map_ext. intros k. lia.
    + exfalso. cbn in Ec.
      destruct o; try discriminate.
      destruct (is_ok (snd (add_transaction r s))); discriminate.
Qed.

Lemma assigned_range s ops i :
  In i (assigned s ops) ->
  next_id (acct s) <= i < next_id (acct (run_ops s ops)).
Proof.
  destruct (assigned_counter ops s) as [-> ->].
  rewrite in_map_iff. intros (k & <- & Hk). apply in_seq in Hk. lia.
Qed.

(** [add_transaction] returns exactly on the Transaction objects. *)
Lemma add_transaction_returns s r :
  is_ok (snd (add_transaction r s)) = (r <? length (heap s))%nat.
Proof.
  destruct (heap s !! r) as [t|] eqn:Ht.
  - rewrite (add_transaction_ok _ _ _ Ht). cbn. symmetry. apply Nat.ltb_lt.
    eapply lookup_lt_Some, Ht.
  - rewrite (add_transaction_fail _ _ Ht). cbn. symmetry. apply Nat.ltb_ge.
    apply lookup_ge_None, Ht.
Qed.

Lemma count_adds_objects ops : forall s,
  count_adds s ops = count_object_adds s ops.
Proof.
  induction ops as [|o ops IH]; intros s; [reflexivity|].
  cbn [count_adds count_object_adds]. rewrite IH.
  destruct o; try reflexivity. rewrite add_transaction_returns. reflexivity.
Qed.

Lemma NoDup_snoc (l : list nat) r : List.NoDup l -> ~ In r l -> List.NoDup (l ++ [r]).
Proof.
  induction 1 as [|x l Hx Hl IH]; intros Hr; cbn.
  - constructor; [intros []|constructor].
  - constructor.
    + rewrite in_app_iff. intros [H|[H|[]]]; [contradiction|].
      subst x. apply Hr. left. reflexivity.
    + apply IH. intros H. apply Hr. right. exact H.
Qed.

Lemma NoDup_remove_first r l : List.NoDup l -> List.NoDup (remove_first r l).
Proof.
  induction 1 as [|x l Hx Hl IH]; cbn; [constructor|].
  destruct (Nat.eqb x r); [exact Hl|].
  constructor; [|exact IH]. intros H. apply Hx. eapply in_remove_first, H.
Qed.

(** The list of the account holds no object twice as long as no object is
    added while it is in the account. *)
Lemma step_NoDup s o :
  match o with
  | OpAdd r => ~ In r (transactions (acct s))
  | _ => True
  end ->
  List.NoDup (transactions (acct s)) ->
  List.NoDup (transactions (acct (step s o))).
Proof.
  intros Ho Hnd. unfold step. destruct o as [d a c ds id|r|i d a c ds|i]; cbn [exec].
  - unfold cbind, Transaction_new.
    destruct (Transaction_init d a c ds id); cbn; exact Hnd.
  - destruct (heap s !! r) as [t|] eqn:Ht.
    + rewrite (add_transaction_ok _ _ _ Ht). cbn. apply NoDup_snoc; assumption.
    + rewrite (add_transaction_fail _ _ Ht). exact Hnd.
  - destruct (keeps_ids_update i d a c ds s) as [-> _]. exact Hnd.
  - unfold delete_transaction.
    destruct (get_transaction_by_id s i); cbn; [|exact Hnd].
    apply NoDup_remove_first, Hnd.
Qed.

Lemma run_ops_NoDup ops : forall s,
  adds_new_objects s ops -> List.NoDup (transactions (acct s)) ->
  List.NoDup (transactions (acct (run_ops s ops))).
Proof.
  induction ops as [|o ops IH]; intros s Hops Hnd; [exact Hnd|].
  destruct Hops as [Ho Hops]. cbn [run_ops fold_left]. fold (run_ops (step s o) ops).
  apply IH; [exact Hops|]. apply step_NoDup; assumption.
Qed.

(** C7.  Along every sequence of operations on a new account, with [n]
    the number of calls of [add_transaction] on a Transaction object: each
    such call returns, gives the object the value of the counter as id,
    appends it and moves the counter by one; the ids handed out are
    1, 2, 3, ..., [n] in order, whatever the transactions contain, and the
    counter is [n + 1]; the counter exceeds every id handed out and the id
    of every transaction of the account; two transactions of the account
    with the same id are the same object; when no object is added while it
    is in the account, no two positions of the list carry the same id; and
    an id handed out once is not handed out again by any later operation,
    whether its transaction was deleted or not. *)
Theorem account_ids ops :
  let s := run_ops init_state ops in
  let n := count_object_adds init_state ops in
  (forall r, (r < length (heap s))%nat ->
             add_transaction r s
             = (mkState (alter (set_id (Some (next_id (acct s)))) r (heap s))
                        (mkAccount (transactions (acct s) ++ [r])
                                   (next_id (acct s) + 1)),
                inr tt) /\
             assigned s [OpAdd r] = [next_id (acct s)]) /\
  assigned init_state ops = map Z.of_nat (seq 1 n) /\
  next_id (acct s) = Z.of_nat n + 1 /\
  (forall i, In i (assigned init_state ops) -> i < next_id (acct s)) /\
  (forall r, In r (transactions (acct s)) ->
             exists i, t_id (deref (heap s) r) = Some i /\ 1 <= i < next_id (acct s)) /\
  (forall r1 r2, In r1 (transactions (acct s)) -> In r2 (transactions (acct s)) ->
                 t_id (deref (heap s) r1) = t_id (deref (heap s) r2) -> r1 = r2) /\
  (List.NoDup (transactions (acct s)) ->
   List.NoDup (map (fun r => t_id (deref (heap s) r)) (transactions (acct s)))) /\
  (adds_new_objects init_state ops ->
   List.NoDup (map (fun r => t_id (deref (heap s) r)) (transactions (acct s)))) /\
  (forall ops' i, In i (assigned init_state ops) -> ~ In i (assigned s ops')).
Proof.
  intros s n.
  destruct (assigned_counter ops init_state) as [Ha Hn]. fold s in Ha, Hn.
  rewrite count_adds_objects in Ha, Hn. fold n in Ha, Hn.
  cbn [init_state acct Account_init next_id] in Ha, Hn.
  destruct (run_ops_inv ops init_state init_state_inv) as (H0 & H1 & H2). fold s in H0, H1, H2.
  assert (Hinj : forall r1 r2,
             In r1 (transactions (acct s)) -> In r2 (transactions (acct s)) ->
             t_id (deref (heap s) r1) = t_id (deref (heap s) r2) -> r1 = r2).
  { intros r1 r2 Hr1 Hr2 Heq. apply H2; try assumption.
    destruct (H1 r1 Hr1) as (i1 & Hi1 & _), (H1 r2 Hr2) as (i2 & Hi2 & _).
    rewrite Hi1, Hi2. rewrite (idof_deref _ _ _ Hi1), (idof_deref _ _ _ Hi2) in Heq.
    congruence. }
  assert (Hpos : List.NoDup (transactions (acct s)) ->
                 List.NoDup (map (fun r => t_id (deref (heap s) r))
                                 (transactions (acct s)))).
  { intros Hnd. revert Hinj. generalize (transactions (acct s)) Hnd.
    induction 1 as [|r l Hr Hl IH]; intros Hinj; cbn; constructor.
    + rewrite in_map_iff. intros (r' & Heq & Hr').
      assert (r = r'); [|subst; contradiction].
      apply Hinj; [left; reflexivity|right; assumption|congruence].
    + apply IH. intros r1 r2 Hr1 Hr2. apply Hinj; right; assumption. }
  split; [|split; [|split; [|split; [|split; [|split; [|split; [|split]]]]]]].
  - intros r Hr. destruct (lookup_lt_is_Some_2 (heap s) r Hr) as [t Ht].
    split; [apply (add_transaction_ok _ _ _ Ht)|].
    cbn [assigned assigned_by]. rewrite (add_transaction_ok _ _ _ Ht). cbn [heap].
    rewrite deref_alter by exact Hr. reflexivity.
  - rewrite Ha, <- seq_shift, map_map. apply map_ext. intros k. lia.
  - lia.
  - intros i Hi. apply (assigned_range init_state ops). exact Hi.
  - intros r Hr. destruct (H1 r Hr) as (i & Hi & Hb).
    exists i. split; [apply idof_deref, Hi|exact Hb].
  - exact Hinj.
  - exact Hpos.
  - intros Hops. apply Hpos. apply run_ops_NoDup; [exact Hops|constructor].
  - intros ops' i Hi Hi'.
    apply (assigned_range init_state ops) in Hi. apply assigned_range in Hi'.
    fold s in Hi. lia.
Qed.

(** Two transactions added, the first deleted, a third added. *)
Lemma account_ids_witness :
  assigned init_state add_add_delete_add = [1; 2; 3] /\
  next_id (acct (run_ops init_state add_add_delete_add)) = 4 /\
  List.NoDup (map (fun r => t_id (deref (heap (run_ops init_state add_add_delete_add)) r))
                  (transactions (acct (run_ops init_state add_add_delete_add)))).
Proof.
  split; [exact (proj1 (proj2 (account_ids add_add_delete_add)))|].
  split; [exact (proj1 (proj2 (proj2 (account_ids add_add_delete_add))))|].
  apply (proj1 (proj2 (proj2 (proj2 (proj2 (proj2 (proj2 (proj2
           (account_ids add_add_delete_add))))))))).
  cbn. repeat split; intros H; repeat destruct H as [H|H]; try discriminate H;
    try contradiction.
Defined.

(** The ids of the account after two adds, a delete and a third add: the
    deleted id 1 is not handed out again. *)
Example ids_after_delete :
  let ops := [ OpNew (PyDate (mkDate 2023 10 1)) (PyFloat 100) (PyStr "Income") (PyStr "") None;
               OpAdd 0%nat;
               OpNew (PyDate (mkDate 2023 10 2)) (PyFloat (-50)) (PyStr "Groceries") (PyStr "") None;
               OpAdd 1%nat;
               OpDelete 1;
               OpNew (PyDate (mkDate 2023 10 3)) (PyFloat (-5)) (PyStr "Coffee") (PyStr "") None;
               OpAdd 2%nat ] in
  assigned init_state ops = [1; 2; 3] /\
  map t_id (live (run_ops init_state ops)) = [Some 2; Some 3].
Proof. vm_compute. split; reflexivity. Qed.

(** Adding the same object twice: the list holds it twice, with the id
    of the second add. *)
Example same_object_twice :
  let ops := [ OpNew (PyDate (mkDate 2023 10 1)) (PyFloat 100) (PyStr "Income") (PyStr "") None;
               OpAdd 0%nat; OpAdd 0%nat ] in
  transactions (acct (run_ops init_state ops)) = [0%nat; 0%nat] /\
  map t_id (live (run_ops init_state ops)) = [Some 2; Some 2].
Proof. vm_compute. split; reflexivity. Qed.

(** ** CSV import *)

Lemma alter_last {A} (f : A -> A) (l : list A) (x : A) :
  alter f (length l) (l ++ [x]) = l ++ [f x].
Proof.
  induction l as [|y l IH]; cbn; [reflexivity|]. f_equal. exact IH.
Qed.

(** One line: a line that fails changes nothing; a line that succeeds
    allocates one object, numbers it with the counter and appends it. *)
Lemma import_line_spec line s :
  import_line line s
  = match line_result line with
    | inl e => (s, inl e)
    | inr t =>
      (mkState (heap s ++ [set_id (Some (next_id (acct s))) t])
               (mkAccount (transactions (acct s) ++ [length (heap s)])
                          (next_id (acct s) + 1)),
       inr tt)
    end.
Proof.
  unfold import_line, line_result.
  destruct (parse_csv_line (str_of line)) as [e|[[[d a] c] ds]]; cbn [bind];
    [reflexivity|].
  unfold cbind, create_transaction, cbind, Transaction_new.
  destruct (Transaction_init _ _ _ _ _) as [e|t]; [reflexivity|].
  unfold alloc, add_transaction, ret. cbn [heap acct].
  rewrite lookup_app_r, Nat.sub_diag by lia. cbn.
  rewrite alter_last. reflexivity.
Qed.

Lemma import_loop_spec lines : forall i s imported errors,
  import_loop i lines s imported errors
  = (mkState (heap s ++ number_from (next_id (acct s)) (imported_transactions lines))
             (mkAccount (transactions (acct s)
                         ++ seq (length (heap s)) (length (imported_transactions lines)))
                        (next_id (acct s)
                         + Z.of_nat (length (imported_transactions lines)))),
     (imported + Z.of_nat (length (imported_transactions lines)),
      errors ++ import_errors i lines)).
Proof.
  induction lines as [|line lines IH]; intros i s imported errors.
  - cbn. rewrite !app_nil_r, !Z.add_0_r. destruct s as [h [l n]]. reflexivity.
  - cbn [import_loop imported_transactions import_errors].
    rewrite import_line_spec.
    destruct (line_result line) as [e|t]; rewrite IH.
    + unfold line_error. rewrite <- app_assoc. reflexivity.
    + cbn [heap acct transactions next_id number_from length seq].
      rewrite <- !app_assoc, length_app. cbn [length app].
      rewrite Nat.add_1_r, Nat2Z.inj_succ.
      f_equal; [f_equal; f_equal; lia|f_equal; lia].
Qed.

(** C5.  The import handles the lines of the trimmed input one by one,
    in order.  A line that fails adds its message [Line k: ...], [k]
    counted from 1, to the errors and leaves the account as it was; a
    line that succeeds appends one transaction, numbered with the next id;
    nothing is undone.  The result is the number of lines that succeeded
    and the messages in order.  On three lines whose second fails, on a
    new account: two imported, one message for line 2, and the account
    holds the first and third transactions with ids 1 and 2. *)
Theorem import_transactions_from_csv_spec :
  (forall csv s,
      let lines := splitlines (strip (text_of csv)) in
      let new := imported_transactions lines in
      import_transactions_from_csv csv s
      = (mkState (heap s ++ number_from (next_id (acct s)) new)
                 (mkAccount (transactions (acct s) ++ seq (length (heap s)) (length new))
                            (next_id (acct s) + Z.of_nat (length new))),
         (Z.of_nat (length new), import_errors 0 lines))) /\
  (forall csv l1 l2 l3 t1 e t3,
      splitlines (strip (text_of csv)) = [l1; l2; l3] ->
      line_result l1 = inr t1 -> line_result l2 = inl e -> line_result l3 = inr t3 ->
      snd (import_transactions_from_csv csv init_state)
      = (2, ["Line 2: " +:+ exn_str e]) /\
      live (fst (import_transactions_from_csv csv init_state))
      = [set_id (Some 1) t1; set_id (Some 2) t3]) /\
  (snd (import_transactions_from_csv three_lines init_state)
   = (2, ["Line 2: Line does not match expected format: not a transaction"]) /\
   live (fst (import_transactions_from_csv three_lines init_state))
   = [ mkTransaction (mkDate 2023 10 1) (-50)%Q "Groceries" (PyStr "Weekly shop") (Some 1);
       mkTransaction (mkDate 2023 10 2) 1000%Q "Income" (PyStr "") (Some 2) ]).
Proof.
  split; [|split].
  - intros csv s lines new. unfold import_transactions_from_csv.
    fold lines. rewrite import_loop_spec. reflexivity.
  - intros csv l1 l2 l3 t1 e t3 Hl H1 H2 H3.
    unfold import_transactions_from_csv. rewrite Hl, import_loop_spec.
    cbn [imported_transactions import_errors]. rewrite H1, H2, H3.
    split; reflexivity.
  - vm_compute. split; reflexivity.
Qed.

Lemma import_transactions_from_csv_spec_witness :
  snd (import_transactions_from_csv three_lines init_state)
  = (2, ["Line 2: Line does not match expected format: not a transaction"]).
Proof.
  apply (proj1 (proj1 (proj2 import_transactions_from_csv_spec) three_lines
              (text_of "2023-10-01,-50.00,Groceries,Weekly shop")
              (text_of "not a transaction")
              (text_of "10/02/2023,1000,Income")
              (mkTransaction (mkDate 2023 10 1) (-50)%Q "Groceries"
                             (PyStr "Weekly shop") None)
              (format_error "not a transaction")
              (mkTransaction (mkDate 2023 10 2) 1000%Q "Income" (PyStr "") None)
              eq_refl eq_refl eq_refl eq_refl)).
Defined.

(** ** The line parser *)

Lemma many_sound {R} p s (k : text -> option R) x :
  many p s k = Some x ->
  exists w s', s = w ++ s' /\ forallb p w = true /\ k s' = Some x.
Proof.
  induction s as [|c s IH]; cbn.
  - intros H. exists [], []. auto.
  - destruct (p c) eqn:Hc.
    + destruct (many p s k) as [y|] eqn:Hm.
      * intros [= <-]. destruct (IH eq_refl) as (w & s' & -> & Hw & Hk).
        exists (c :: w), s'. cbn. rewrite Hc, Hw. auto.
      * intros H. exists [], (c :: s). auto.
    + intros H. exists [], (c :: s). auto.
Qed.

(** Soundness of the matcher: when it succeeds, the text it has consumed
    before calling the continuation is in the language of the
    expression. *)
Lemma run_sound {R} r : forall s caps (k : text -> captures -> option R) x,
  run r s caps k = Some x ->
  exists w s' caps', s = w ++ s' /\ matches r w /\ k s' caps' = Some x.
Proof.
  induction r as [|p|r1 IH1 r2 IH2|r1 IH1 r2 IH2|r IH|p|name r IH];
    intros s caps k x; cbn.
  - intros H. exists [], s, caps. split; [reflexivity|]. split; [constructor|exact H].
  - destruct s as [|c s]; [discriminate|].
    destruct (p c) eqn:Hc; [|discriminate].
    intros H. exists [c], s, caps. split; [reflexivity|].
    split; [constructor; exact Hc|exact H].
  - intros H. apply IH1 in H as (w1 & s1 & c1 & -> & Hm1 & H).
    apply IH2 in H as (w2 & s2 & c2 & -> & Hm2 & H).
    exists (w1 ++ w2), s2, c2. rewrite <- app_assoc.
    split; [reflexivity|]. split; [constructor; assumption|exact H].
  - destruct (run r1 s caps k) as [y|] eqn:H1.
    + intros [= <-]. apply IH1 in H1 as (w & s' & c' & -> & Hm & H).
      exists w, s', c'. split; [reflexivity|]. split; [apply M_alt_l, Hm|exact H].
    + intros H. apply IH2 in H as (w & s' & c' & -> & Hm & H).
      exists w, s', c'. split; [reflexivity|]. split; [apply M_alt_r, Hm|exact H].
  - destruct (run r s caps k) as [y|] eqn:H1.
    + intros [= <-]. apply IH in H1 as (w & s' & c' & -> & Hm & H).
      exists w, s', c'. split; [reflexivity|]. split; [apply M_opt_some, Hm|exact H].
    + intros H. exists [], s, caps. split; [reflexivity|].
      split; [apply M_opt_none|exact H].
  - intros H. apply many_sound in H as (w & s' & -> & Hw & H).
    exists w, s', caps. split; [reflexivity|]. split; [constructor; exact Hw|exact H].
  - intros H. apply IH in H as (w & s' & c' & -> & Hm & H).
    eexists w, s', _. split; [reflexivity|]. split; [constructor; exact Hm|exact H].
Qed.

Lemma re_match_sound r s caps rest :
  re_match r s = Some (caps, rest) -> exists w, s = w ++ rest /\ matches r w.
Proof.
  unfold re_match. intros H.
  apply run_sound in H as (w & s' & c' & -> & Hm & [= _ <-]).
  exists w. split; [reflexivity|exact Hm].
Qed.

(** Character classes are disjoint where the pattern relies on it. *)
Lemma digit_class c :
  is_digit c = true ->
  is_space c = false /\ Ascii.eqb c "," = false /\ Ascii.eqb c "-" = false /\
  Ascii.eqb c "/" = false /\ Ascii.eqb c "." = false.
Proof.
  destruct c as [[] [] [] [] [] [] [] []]; vm_compute; intros H;
    first [discriminate H | repeat split].
Qed.

Lemma space_not_comma c : is_space c = true -> not_char "," c = true.
Proof.
  destruct c as [[] [] [] [] [] [] [] []]; vm_compute; intros H;
    first [discriminate H | reflexivity].
Qed.

Lemma digit_not_char sep c :
  In sep [","; "-"; "/"; "."]%char -> is_digit c = true -> not_char sep c = true.
Proof.
  intros Hsep Hc. destruct (digit_class c Hc) as (_ & H1 & H2 & H3 & H4).
  unfold not_char. cbn in Hsep.
  destruct Hsep as [<-|[<-|[<-|[<-|[]]]]]; rewrite ?H1, ?H2, ?H3, ?H4; reflexivity.
Qed.

Lemma forallb_impl (p q : ascii -> bool) (w : text) :
  (forall c, p c = true -> q c = true) -> forallb p w = true -> forallb q w = true.
Proof.
  intros Hpq. rewrite !forallb_forall. auto.
Qed.

Lemma is_char_eq a c : is_char a c = true -> c = a.
Proof. unfold is_char. apply Ascii.eqb_eq. Qed.

(** [split] and [strip] on texts of a known form *)
Lemma split_on_none sep u :
  forallb (not_char sep) u = true -> split_on sep u = [u].
Proof.
  induction u as [|c u IH]; cbn; [reflexivity|].
  rewrite andb_true_iff. unfold not_char at 1. intros [Hc Hu].
  apply negb_true_iff in Hc. rewrite Hc, (IH Hu). reflexivity.
Qed.

Lemma split_on_app sep u v :
  forallb (not_char sep) u = true ->
  split_on sep (u ++ sep :: v) = u :: split_on sep v.
Proof.
  induction u as [|c u IH]; cbn.
  - intros _. rewrite Ascii.eqb_refl. reflexivity.
  - rewrite andb_true_iff. unfold not_char at 1. intros [Hc Hu].
    apply negb_true_iff in Hc. rewrite Hc, (IH Hu). reflexivity.
Qed.

Lemma drop_while_all p u v :
  forallb p u = true -> drop_while p (u ++ v) = drop_while p v.
Proof.
  induction u as [|c u IH]; cbn; [reflexivity|].
  rewrite andb_true_iff. intros [Hc Hu]. rewrite Hc. apply IH, Hu.
Qed.

Lemma forallb_rev (p : ascii -> bool) u : forallb p (rev u) = forallb p u.
Proof.
  induction u as [|c u IH]; cbn; [reflexivity|].
  rewrite forallb_app, IH. cbn. rewrite andb_true_r. apply andb_comm.
Qed.

Lemma tight_ends w :
  tight w = true ->
  (forall v, drop_while is_space (w ++ v) = w ++ v) /\
  drop_while is_space (rev w) = rev w.
Proof.
  unfold tight. destruct w as [|c w]; [discriminate|].
  rewrite andb_true_iff, !negb_true_iff. intros [Hc Hl]. split.
  - intros v. cbn. rewrite Hc. reflexivity.
  - assert (Hne : c :: w <> []) by discriminate.
    rewrite (app_removelast_last c Hne) at 1 2.
    rewrite rev_unit. cbn [drop_while]. rewrite Hl. reflexivity.
Qed.

Lemma strip_around ws1 w ws2 :
  forallb is_space ws1 = true -> forallb is_space ws2 = true -> tight w = true ->
  strip (ws1 ++ w ++ ws2) = w.
Proof.
  intros H1 H2 Hw. apply tight_ends in Hw as [Hl Hr].
  unfold strip, lstrip, rstrip.
  rewrite (drop_while_all _ _ _ H1), Hl, rev_app_distr.
  rewrite drop_while_all by (rewrite forallb_rev; exact H2).
  rewrite Hr. apply rev_involutive.
Qed.

Ltac inv_matches :=
  repeat match goal with
  | H : matches (Cat _ _) _ |- _ => inversion H; subst; clear H
  | H : matches (Grp _ _) _ |- _ => inversion H; subst; clear H
  | H : matches (Many _) _ |- _ => inversion H; subst; clear H
  | H : matches (Class _) _ |- _ => inversion H; subst; clear H
  | H : matches Eps _ |- _ => inversion H; subst; clear H
  | H : is_char _ _ = true |- _ => apply is_char_eq in H; subst
  end.

Ltac digit_facts :=
  repeat match goal with
  | H : is_digit ?c = true |- _ =>
    let H' := fresh in
    pose proof (digit_class c H) as H'; destruct H' as (? & ? & ? & ? & ?);
    revert H
  end; intros.

Ltac crunch :=
  unfold digits, nonempty_digits, not_char;
  repeat (cbn [split_on app forallb length tight List.last
               negb andb orb Nat.leb Ascii.eqb Bool.eqb];
          repeat match goal with
          | H : _ = _ |- _ => rewrite H
          end).

(** The date group: a text of one of the two shapes, without comma,
    without white space at its ends. *)
Lemma date_regex_lang D :
  matches date_regex D ->
  date_shape D = true /\ forallb (not_char ",") D = true /\ tight D = true.
Proof.
  unfold date_regex. cbn [Seq]. unfold OneOrTwo, Lit, Digit. cbn [Times].
  intros H. inversion H; subst; clear H.
  - inv_matches. digit_facts. unfold date_shape, iso_shape. crunch.
    repeat split.
  - inv_matches.
    repeat match goal with
    | H : matches (Opt _) _ |- _ => inversion H; subst; clear H
    end; inv_matches; digit_facts; unfold date_shape, iso_shape, us_shape; crunch;
      repeat split.
Qed.

Lemma last_of_digits u d ds x :
  is_digit d = true -> forallb is_digit ds = true ->
  is_space (List.last (u ++ d :: ds) x) = false.
Proof.
  intros Hd Hds.
  assert (H : is_digit (List.last (u ++ d :: ds) x) = true).
  { induction u as [|c u IH].
    - cbn [app]. revert d Hd. induction ds as [|e ds IH]; intros d Hd.
      + exact Hd.
      + cbn in Hds. apply andb_true_iff in Hds as [He Hds].
        change (List.last (d :: e :: ds) x) with (List.last (e :: ds) x).
        apply IH; assumption.
    - destruct (u ++ d :: ds) eqn:E; [destruct u; discriminate|].
      rewrite <- app_comm_cons, E.
      change (List.last (c :: a :: l) x) with (List.last (a :: l) x). exact IH. }
  apply digit_class in H. tauto.
Qed.

Lemma digits_no_sep sep d ds :
  In sep [","; "-"; "/"; "."]%char ->
  is_digit d = true -> forallb is_digit ds = true ->
  forallb (not_char sep) (d :: ds) = true.
Proof.
  intros Hsep Hd Hds. apply (forallb_impl is_digit).
  - intros c. apply digit_not_char, Hsep.
  - cbn. rewrite Hd, Hds. reflexivity.
Qed.

Lemma nonempty_digits_cons d ds :
  is_digit d = true -> forallb is_digit ds = true -> nonempty_digits (d :: ds) = true.
Proof. intros Hd Hds. unfold nonempty_digits. cbn. rewrite Hd, Hds. reflexivity. Qed.

(** A text that starts without white space and ends with digits. *)
Lemma tight_digits_end u d ds :
  match u with [] => true | c :: _ => negb (is_space c) end = true ->
  is_digit d = true -> forallb is_digit ds = true ->
  tight (u ++ d :: ds) = true.
Proof.
  intros Hu Hd Hds. unfold tight.
  destruct u as [|c u]; cbn [app].
  - pose proof (last_of_digits [] d ds d Hd Hds) as Hl. cbn [app] in Hl.
    rewrite Hl. destruct (digit_class d Hd) as (-> & _). reflexivity.
  - pose proof (last_of_digits (c :: u) d ds c Hd Hds) as Hl.
    rewrite <- app_comm_cons in Hl. rewrite Hl, Hu. reflexivity.
Qed.

Lemma amount_shape_digits d ds f :
  is_digit d = true -> forallb is_digit ds = true ->
  match f with
  | [] => True
  | c :: f' => c = "."%char /\
               exists d' ds', f' = d' :: ds' /\ is_digit d' = true /\
                              forallb is_digit ds' = true
  end ->
  amount_shape (d :: ds ++ f) = true /\
  amount_shape ("-"%char :: d :: ds ++ f) = true.
Proof.
  intros Hd Hds Hf.
  assert (E : match split_on "." ((d :: ds) ++ f) with
              | [ip] => nonempty_digits ip
              | [ip; fp] => nonempty_digits ip && nonempty_digits fp
              | _ => false
              end = true).
  { destruct f as [|c f'].
    - rewrite app_nil_r, split_on_none by (apply digits_no_sep; cbn; tauto).
      apply nonempty_digits_cons; assumption.
    - destruct Hf as (-> & d' & ds' & -> & Hd' & Hds').
      rewrite split_on_app by (apply digits_no_sep; cbn; tauto).
      rewrite split_on_none by (apply digits_no_sep; cbn; tauto).
      rewrite !nonempty_digits_cons by assumption. reflexivity. }
  unfold amount_shape. split.
  - destruct (digit_class d Hd) as (_ & _ & -> & _ & _). exact E.
  - cbn [Ascii.eqb Bool.eqb andb]. exact E.
Qed.

Lemma matches_within q r w :
  classes_within q r -> matches r w -> forallb q w = true.
Proof.
  intros Hq Hm. induction Hm; cbn in Hq |- *; auto.
  - rewrite Hq by assumption. reflexivity.
  - destruct Hq as [Hq1 Hq2].
    rewrite forallb_app, IHHm1, IHHm2 by assumption. reflexivity.
  - apply IHHm, Hq.
  - apply IHHm, Hq.
  - eapply forallb_impl; eassumption.
Qed.

Lemma amount_regex_no_comma : classes_within (not_char ",") amount_regex.
Proof.
  cbn. repeat split; intros c Hc;
    first [ apply digit_not_char; [cbn; tauto|exact Hc]
          | apply is_char_eq in Hc; subst c; reflexivity ].
Qed.

(** The amount group: a decimal numeral, without comma, without white
    space at its ends. *)
Lemma amount_regex_lang A :
  matches amount_regex A ->
  amount_shape A = true /\ forallb (not_char ",") A = true /\ tight A = true.
Proof.
  intros H. split; [|split];
    [| apply (matches_within _ amount_regex); [apply amount_regex_no_comma|exact H] |].
  - revert H. unfold amount_regex. cbn [Seq]. unfold Plus, Lit.
    intros H. inv_matches.
    match goal with
    | H1 : matches (Opt (Class _)) ?s, H2 : matches (Opt (Cat _ _)) ?f |- _ =>
      inversion H1; subst; clear H1; inversion H2; subst; clear H2
    end; inv_matches; cbn [app];
      apply amount_shape_digits; eauto 10.
  - revert H. unfold amount_regex. cbn [Seq]. unfold Plus, Lit.
    intros H. inv_matches.
    match goal with
    | H1 : matches (Opt (Class _)) ?s, H2 : matches (Opt (Cat _ _)) ?f |- _ =>
      inversion H1; subst; clear H1; inversion H2; subst; clear H2
    end; inv_matches; cbn [app]; rewrite ?app_nil_r.
    + apply (tight_digits_end []); auto.
    + rewrite app_comm_cons.
      change ("."%char :: c0 :: w3) with (["."%char] ++ c0 :: w3).
      rewrite app_assoc. apply tight_digits_end; auto.
      cbn. destruct (digit_class c) as (-> & _); auto.
    + apply (tight_digits_end ["-"%char]); auto.
    + rewrite !app_comm_cons.
      change ("."%char :: c0 :: w5) with (["."%char] ++ c0 :: w5).
      rewrite app_assoc. apply tight_digits_end; auto.
Qed.

(** A line that matches the pattern: its first field is the date group
    and its second field the amount group. *)
Lemma csv_pattern_fields line caps rest :
  re_match csv_pattern (text_of line) = Some (caps, rest) ->
  date_shape (field 0 line) = true /\ amount_shape (field 1 line) = true.
Proof.
  intros H. apply re_match_sound in H as (w & Hline & Hm).
  unfold csv_pattern in Hm. cbn [Seq] in Hm. unfold Spaces, Lit in Hm.
  inv_matches.
  match goal with
  | Hd : matches date_regex ?D, Ha : matches amount_regex ?A |- _ =>
    apply date_regex_lang in Hd as (Hd1 & Hd2 & Hd3);
    apply amount_regex_lang in Ha as (Ha1 & Ha2 & Ha3)
  end.
  repeat match goal with
  | H : forallb is_space ?ws = true |- _ =>
    pose proof (forallb_impl _ _ _ space_not_comma H); generalize dependent H
  end. intros.
  unfold field. rewrite Hline. cbn [app].
  match goal with
  | |- context [split_on _ ((?ws1 ++ ?D ++ ?ws2 ++ _ :: ?ws3 ++ ?A ++ ?ws4 ++ _ :: ?tl) ++ rest)] =>
    replace ((ws1 ++ D ++ ws2 ++ ","%char :: ws3 ++ A ++ ws4 ++ ","%char :: tl) ++ rest)
      with ((ws1 ++ D ++ ws2) ++ ","%char :: (ws3 ++ A ++ ws4) ++ ","%char :: (tl ++ rest))
      by (repeat (rewrite <- ?app_assoc, <- ?app_comm_cons); reflexivity);
    rewrite (split_on_app ","%char (ws1 ++ D ++ ws2))
      by (rewrite !forallb_app; repeat (apply andb_true_iff; split); assumption);
    rewrite (split_on_app ","%char (ws3 ++ A ++ ws4))
      by (rewrite !forallb_app; repeat (apply andb_true_iff; split); assumption)
  end.
  cbn [nth]. rewrite !strip_around by assumption. split; assumption.
Qed.

Lemma parse_csv_line_no_match line :
  re_match csv_pattern (text_of line) = None ->
  parse_csv_line line = inl (format_error line).
Proof. intros H. unfold parse_csv_line. rewrite H. reflexivity. Qed.


(** ** The aggregations away from the boundary

    When no transaction of the account is dated on the first day of the
    next month, the aggregations of the service are those of the
    specification. *)

Lemma filter_map_comm {A B} (f : A -> B) (p : B -> bool) (l : list A) :
  List.filter p (map f l) = map f (List.filter (fun x => p (f x)) l).
Proof.
  induction l as [|x l IH]; cbn; [reflexivity|].
  destruct (p (f x)); cbn; rewrite IH; reflexivity.
Qed.

Lemma spec_window_refs s y m :
  spec_window s y m
  = map (deref (heap s))
        (List.filter (fun r => in_month_window y m (date_of s r))
                     (transactions (acct s))).
Proof. unfold spec_window, live. rewrite filter_map_comm. reflexivity. Qed.

Lemma get_monthly_spending_off_boundary s today y m :
  1 <= y <= 9998 -> 1 <= m <= 12 ->
  (forall r, In r (transactions (acct s)) -> date_of s r <> first_of_next_month y m) ->
  get_monthly_spending s today (Some y) (Some m) = inr (spec_monthly_spending s y m).
Proof.
  intros Hy Hm Hoff. unfold get_monthly_spending, spec_monthly_spending.
  rewrite monthly_transactions_off_boundary by assumption. cbn [bind ret].
  rewrite spec_window_refs, map_map, filter_map_comm, map_map. reflexivity.
Qed.

Lemma get_monthly_income_off_boundary s today y m :
  1 <= y <= 9998 -> 1 <= m <= 12 ->
  (forall r, In r (transactions (acct s)) -> date_of s r <> first_of_next_month y m) ->
  get_monthly_income s today (Some y) (Some m) = inr (spec_monthly_income s y m).
Proof.
  intros Hy Hm Hoff. unfold get_monthly_income, spec_monthly_income.
  rewrite monthly_transactions_off_boundary by assumption. cbn [bind ret].
  rewrite spec_window_refs, map_map, filter_map_comm. reflexivity.
Qed.

(** Dictionaries *)
Lemma dict_get_fresh {V} (d : dict V) k dflt :
  existsb (String.eqb k) (dict_keys d) = false -> dict_get d k dflt = dflt.
Proof.
  induction d as [|[k' v] d IH]; cbn; [reflexivity|].
  rewrite orb_false_iff, String.eqb_sym. intros [-> H]. apply IH, H.
Qed.

Lemma dict_set_fresh {V} (d : dict V) k v :
  existsb (String.eqb k) (dict_keys d) = false -> dict_set d k v = d ++ [(k, v)].
Proof.
  induction d as [|[k' v'] d IH]; cbn; [reflexivity|].
  rewrite orb_false_iff, String.eqb_sym. intros [-> H]. rewrite IH by exact H.
  reflexivity.
Qed.

Lemma dict_set_keys {V} (d : dict V) k v :
  existsb (String.eqb k) (dict_keys d) = true ->
  dict_keys (dict_set d k v) = dict_keys d.
Proof.
  unfold dict_keys.
  induction d as [|[k' v'] d IH]; cbn; [discriminate|].
  rewrite String.eqb_sym. destruct (String.eqb k' k) eqn:E; cbn.
  - intros _. reflexivity.
  - intros H. rewrite IH by exact H. reflexivity.
Qed.

Lemma existsb_eqb_In k (l : list string) :
  existsb (String.eqb k) l = true <-> In k l.
Proof.
  rewrite existsb_exists. split.
  - intros (x & Hx & E). apply String.eqb_eq in E. subst. exact Hx.
  - intros H. exists k. split; [exact H|apply String.eqb_refl].
Qed.

Lemma existsb_eqb_not_In k (l : list string) :
  existsb (String.eqb k) l = false <-> ~ In k l.
Proof.
  rewrite <- existsb_eqb_In. destruct (existsb (String.eqb k) l); split; congruence.
Qed.

Lemma amounts_in_other c t l :
  String.eqb (t_category t) c = false -> amounts_in c (t :: l) = amounts_in c l.
Proof. intros H. unfold amounts_in. cbn. rewrite H. reflexivity. Qed.

Lemma amounts_in_same c t l :
  String.eqb (t_category t) c = true ->
  amounts_in c (t :: l) = t_amount t :: amounts_in c l.
Proof. intros H. unfold amounts_in. cbn. rewrite H. reflexivity. Qed.

Lemma first_occurrences_fresh l : forall seen x,
  In x (first_occurrences seen l) -> ~ In x seen.
Proof.
  induction l as [|c l IH]; intros seen x; cbn; [tauto|].
  destruct (existsb (String.eqb c) seen) eqn:E.
  - apply IH.
  - intros [<-|H].
    + apply existsb_eqb_not_In, E.
    + apply IH in H. rewrite in_app_iff in H. tauto.
Qed.

Lemma first_occurrences_NoDup l : forall seen,
  List.NoDup (first_occurrences seen l).
Proof.
  induction l as [|c l IH]; intros seen; cbn; [constructor|].
  destruct (existsb (String.eqb c) seen); [apply IH|].
  constructor; [|apply IH].
  intros H. apply first_occurrences_fresh in H. rewrite in_app_iff in H.
  cbn in H. tauto.
Qed.

Lemma add_amount_existing l t : forall d,
  List.NoDup (dict_keys d) -> In (t_category t) (dict_keys d) ->
  map (fun kv => (fst kv, fold_left Qplus (amounts_in (fst kv) l) (snd kv)))
      (add_amount d t)
  = map (fun kv => (fst kv, fold_left Qplus (amounts_in (fst kv) (t :: l)) (snd kv))) d.
Proof.
  unfold add_amount, dict_keys.
  induction d as [|[k v] d IH]; intros Hnd Hin; [destruct Hin|].
  cbn [map fst] in Hnd, Hin. inversion Hnd as [|? ? Hk Hnd']; subst.
  cbn [dict_get dict_set]. destruct (String.eqb k (t_category t)) eqn:E.
  - apply String.eqb_eq in E. subst k. cbn [map fst snd]. f_equal.
    + rewrite amounts_in_same by apply String.eqb_refl. reflexivity.
    + apply map_ext_in. intros [k' v'] Hkv. cbn [fst snd].
      rewrite amounts_in_other; [reflexivity|].
      apply String.eqb_neq. intros E. apply Hk. rewrite E.
      apply in_map_iff. exists (k', v'). split; [reflexivity|exact Hkv].
  - cbn [map fst snd]. f_equal.
    + rewrite amounts_in_other; [reflexivity|].
      rewrite String.eqb_sym. exact E.
    + apply IH; [exact Hnd'|].
      destruct Hin as [Hin|Hin]; [|exact Hin].
      apply String.eqb_neq in E. congruence.
Qed.

Lemma add_amount_keep l t d :
  ~ In (t_category t) (dict_keys d) ->
  map (fun kv => (fst kv, fold_left Qplus (amounts_in (fst kv) l) (snd kv))) d
  = map (fun kv => (fst kv, fold_left Qplus (amounts_in (fst kv) (t :: l)) (snd kv))) d.
Proof.
  intros Hin. apply map_ext_in. intros [k v] Hkv. cbn [fst snd].
  rewrite amounts_in_other; [reflexivity|].
  apply String.eqb_neq. intros E. apply Hin. rewrite E.
  unfold dict_keys. apply in_map_iff. exists (k, v). split; [reflexivity|exact Hkv].
Qed.

(** The loop of [get_category_totals], started from a dictionary [d]:
    the entries of [d] receive the amounts of their category, and the
    categories not yet in [d] are appended in order of first occurrence. *)
Lemma fold_add_amount l : forall d,
  List.NoDup (dict_keys d) ->
  fold_left add_amount l d
  = map (fun kv => (fst kv, fold_left Qplus (amounts_in (fst kv) l) (snd kv))) d
    ++ map (fun c => (c, py_sum (amounts_in c l)))
           (first_occurrences (dict_keys d) (map t_category l)).
Proof.
  induction l as [|t l IH]; intros d Hnd.
  - cbn. rewrite app_nil_r. symmetry. rewrite <- (map_id d) at 2.
    apply map_ext. intros [k v]. reflexivity.
  - cbn [fold_left map first_occurrences].
    destruct (existsb (String.eqb (t_category t)) (dict_keys d)) eqn:E.
    + assert (Hin : In (t_category t) (dict_keys d)) by (apply existsb_eqb_In, E).
      assert (Hk : dict_keys (add_amount d t) = dict_keys d)
        by (apply dict_set_keys, E).
      rewrite IH by (rewrite Hk; exact Hnd).
      rewrite Hk, add_amount_existing by assumption. f_equal.
      apply map_ext_in. intros c Hc. f_equal. f_equal.
      rewrite amounts_in_other; [reflexivity|].
      apply String.eqb_neq. intros Ec. subst c.
      apply first_occurrences_fresh in Hc. contradiction.
    + assert (Hin : ~ In (t_category t) (dict_keys d))
        by (apply existsb_eqb_not_In, E).
      assert (Ea : add_amount d t = d ++ [(t_category t, (0 + t_amount t)%Q)])
        by (unfold add_amount; rewrite dict_get_fresh, dict_set_fresh by exact E;
            reflexivity).
      rewrite Ea.
      assert (Hk : dict_keys (d ++ [(t_category t, (0 + t_amount t)%Q)])
                   = dict_keys d ++ [t_category t])
        by (unfold dict_keys; rewrite map_app; reflexivity).
      rewrite IH.
      2:{ rewrite Hk. apply List.NoDup_app; [exact Hnd|repeat constructor; tauto|].
          intros x Hx [<-|[]]. contradiction. }
      rewrite Hk, map_app, <- app_assoc. cbn [map app fst snd].
      rewrite (add_amount_keep l t d Hin). f_equal. f_equal.
      * rewrite amounts_in_same by apply String.eqb_refl. reflexivity.
      * apply map_ext_in. intros c Hc. f_equal. f_equal.
        rewrite amounts_in_other; [reflexivity|].
        apply String.eqb_neq. intros Ec. subst c.
        apply first_occurrences_fresh in Hc. rewrite in_app_iff in Hc.
        cbn in Hc. tauto.
Qed.

Lemma fold_add_to_totals s txs : forall d,
  fold_left (add_to_totals s) txs d
  = fold_left add_amount (map (deref (heap s)) txs) d.
Proof.
  induction txs as [|r txs IH]; intros d; [reflexivity|].
  cbn [fold_left map]. rewrite IH. reflexivity.
Qed.

(** The dictionary built by the loop of [get_category_totals]: each
    category once, in order of first occurrence, with the sum of its
    amounts. *)
Lemma category_totals_loop s txs :
  fold_left (add_to_totals s) txs [] = totals_of (map (deref (heap s)) txs).
Proof.
  rewrite fold_add_to_totals, fold_add_amount by constructor. reflexivity.
Qed.

Lemma totals_of_keys l :
  dict_keys (totals_of l) = first_occurrences [] (map t_category l).
Proof.
  unfold dict_keys, totals_of. rewrite map_map. apply map_id.
Qed.

Lemma totals_of_NoDup l : List.NoDup (dict_keys (totals_of l)).
Proof. rewrite totals_of_keys. apply first_occurrences_NoDup. Qed.

Lemma get_category_totals_off_boundary s today y m :
  1 <= y <= 9998 -> 1 <= m <= 12 ->
  (forall r, In r (transactions (acct s)) -> date_of s r <> first_of_next_month y m) ->
  get_category_totals s today (Some y) (Some m) = inr (spec_category_totals s y m).
Proof.
  intros Hy Hm Hoff. unfold get_category_totals, spec_category_totals.
  rewrite monthly_transactions_off_boundary by assumption. cbn [bind ret].
  rewrite category_totals_loop, spec_window_refs. reflexivity.
Qed.

(** The comprehension of [get_category_spending] on a dictionary: the
    entries with a negative value, in order, with their magnitude. *)
Lemma spending_loop totals : forall acc,
  List.NoDup (dict_keys acc ++ dict_keys totals) ->
  fold_left (fun d '(k, v) => if Qltb v 0 then dict_set d k (Qabs v) else d)
            totals acc
  = acc ++ map (fun kv => (fst kv, Qabs (snd kv)))
               (List.filter (fun kv => Qltb (snd kv) 0) totals).
Proof.
  induction totals as [|[k v] totals IH]; intros acc Hnd.
  - cbn. rewrite app_nil_r. reflexivity.
  - cbn [fold_left List.filter snd].
    assert (Hk : ~ In k (dict_keys acc)).
    { intros Hin. unfold dict_keys in Hnd. cbn in Hnd.
      apply NoDup_remove_2 in Hnd. apply Hnd, in_or_app. left. exact Hin. }
    assert (Hnd' : List.NoDup (dict_keys acc ++ dict_keys totals)).
    { unfold dict_keys in *. cbn in Hnd. apply NoDup_remove_1 in Hnd. exact Hnd. }
    destruct (Qltb v 0).
    + rewrite dict_set_fresh by (apply existsb_eqb_not_In, Hk).
      rewrite IH.
      * rewrite <- app_assoc. reflexivity.
      * unfold dict_keys in *. rewrite map_app, <- app_assoc. exact Hnd.
    + apply IH, Hnd'.
Qed.

Lemma spending_of_totals_spec totals :
  List.NoDup (dict_keys totals) ->
  spending_of_totals totals
  = map (fun kv => (fst kv, Qabs (snd kv)))
        (List.filter (fun kv => Qltb (snd kv) 0) totals).
Proof. intros Hnd. unfold spending_of_totals. rewrite spending_loop; auto. Qed.

Lemma get_category_spending_off_boundary s today y m :
  1 <= y <= 9998 -> 1 <= m <= 12 ->
  (forall r, In r (transactions (acct s)) -> date_of s r <> first_of_next_month y m) ->
  get_category_spending s today (Some y) (Some m) = inr (spec_category_spending s y m).
Proof.
  intros Hy Hm Hoff. unfold get_category_spending, spec_category_spending.
  rewrite get_category_totals_off_boundary by assumption. cbn [bind ret].
  rewrite spending_of_totals_spec by apply totals_of_NoDup. reflexivity.
Qed.

(** The status of a category whose net total of the month is negative,
    away from the boundary, is that of the specification. *)
Lemma get_budget_status_negative_net s b today category :
  1 <= year today <= 9998 -> 1 <= month today <= 12 ->
  (forall r, In r (transactions (acct s)) ->
             date_of s r <> first_of_next_month (year today) (month today)) ->
  Qltb (dict_get (spec_category_totals s (year today) (month today)) category 0%Q) 0
  = true ->
  get_budget_status s (Some b) today category
  = inr (spec_budget_status s (Some b) today category).
Proof.
  intros Hy Hm Hoff Hneg. unfold get_budget_status, spec_budget_status.
  assert (E : get_category_totals s today None None
              = get_category_totals s today (Some (year today)) (Some (month today)))
    by reflexivity.
  rewrite E, get_category_totals_off_boundary by assumption. cbn [bind ret].
  rewrite Hneg. reflexivity.
Qed.

(** Acceptance, day by day: every day of the year 2023 and of the leap
    year 2024, written [YYYY-MM-DD], [M/D/YYYY] or [MM/DD/YYYY]; and the
    first and the last year of the calendar. *)
Example accepted_first_last_year :
  accepted (mkDate 1 1 1) = true /\ accepted (mkDate 9999 12 31) = true.
Proof. vm_compute. split; reflexivity. Qed.

Lemma accepted_days y m d :
  y = 2023 \/ y = 2024 -> valid_date (mkDate y m d) = true ->
  accepted (mkDate y m d) = true.
Proof.
  intros Hy Hv. pose proof (valid_date_bounds _ Hv) as (_ & Hm & Hd).
  cbn [year month day] in Hm, Hd.
  assert (H : forall y0, In y0 [2023; 2024] ->
            all_from (fun m => all_from (fun d =>
              negb (valid_date (mkDate y0 m d)) || accepted (mkDate y0 m d))
              0 (Z.to_nat 32)) 0 (Z.to_nat 13) = true).
  { intros y0 [<-|[<-|[]]]; vm_compute; reflexivity. }
  specialize (H y ltac:(cbn; lia)).
  pose proof (forall_below _ 13 H m ltac:(lia)) as Hm'. cbv beta in Hm'.
  pose proof (forall_below _ 32 Hm' d ltac:(lia)) as Hd'. cbv beta in Hd'.
  rewrite Hv in Hd'. exact Hd'.
Qed.

(** * Further properties of the account *)

(** ** Lookup by id *)

Lemma find_app_last {A} (p : A -> bool) (l : list A) (x : A) :
  p x = true -> (forall y, In y l -> p y = true -> y = x) ->
  List.find p (l ++ [x]) = Some x.
Proof.
  intros Hx. induction l as [|y l IH]; intros Hl; cbn.
  - rewrite Hx. reflexivity.
  - destruct (p y) eqn:Hy.
    + f_equal. apply Hl; [left; reflexivity|exact Hy].
    + apply IH. intros z Hz. apply Hl. right. exact Hz.
Qed.

Lemma id_is_idof s r i :
  In r (transactions (acct s)) -> ids_inv s ->
  id_is i (deref (heap s) r) = true -> idof s r = Some (Some i).
Proof.
  intros Hr (_ & H1 & _) Hid. destruct (H1 r Hr) as (j & Hj & _).
  unfold id_is in Hid. rewrite (idof_deref _ _ _ Hj) in Hid.
  apply Z.eqb_eq in Hid. subst j. exact Hj.
Qed.

Lemma find_just_added s r :
  ids_inv s -> (r < length (heap s))%nat ->
  get_transaction_by_id
    (mkState (alter (set_id (Some (next_id (acct s)))) r (heap s))
             (mkAccount (transactions (acct s) ++ [r]) (next_id (acct s) + 1)))
    (next_id (acct s)) = Some r.
Proof.
  intros Hinv Hr. unfold get_transaction_by_id. cbn [heap acct transactions].
  apply find_app_last.
  - unfold id_is. rewrite deref_alter by exact Hr. cbn. apply Z.eqb_refl.
  - intros y Hy Hid. destruct (Nat.eq_dec r y) as [->|Hne]; [reflexivity|].
    rewrite deref_alter_ne in Hid by exact Hne.
    destruct Hinv as (_ & H1 & _). destruct (H1 y Hy) as (j & Hj & Hb).
    unfold id_is in Hid. rewrite (idof_deref _ _ _ Hj) in Hid.
    apply Z.eqb_eq in Hid. lia.
Qed.

(** X1.  After [add_transaction], [get_transaction_by_id] with the id
    just assigned (the former value of [next_id]) returns the object that
    was added, and that object carries this id. *)
Theorem add_then_find s r t :
  ids_inv s -> heap s !! r = Some t ->
  let s' := fst (add_transaction r s) in
  snd (add_transaction r s) = inr tt /\
  get_transaction_by_id s' (next_id (acct s)) = Some r /\
  t_id (deref (heap s') r) = Some (next_id (acct s)).
Proof.
  intros Hinv Ht. rewrite (add_transaction_ok _ _ _ Ht). cbn [fst snd].
  assert (Hr : (r < length (heap s))%nat) by (eapply lookup_lt_Some; eassumption).
  split; [reflexivity|]. split.
  - apply find_just_added; assumption.
  - cbn [heap]. rewrite deref_alter by exact Hr. reflexivity.
Qed.

Lemma one_added_one_new_inv : ids_inv one_added_one_new.
Proof.
  split; [cbn; lia|]. split.
  - intros r [<-|[]]. exists 1. split; [reflexivity|cbn; lia].
  - intros r1 r2 [<-|[]] [<-|[]] _. reflexivity.
Qed.

Lemma add_then_find_witness :
  get_transaction_by_id (fst (add_transaction 1%nat one_added_one_new)) 2
  = Some 1%nat.
Proof.
  exact (proj1 (proj2 (add_then_find one_added_one_new 1%nat
    (mkTransaction (mkDate 2023 10 2) (-50)%Q "Groceries" (PyStr "") None)
    one_added_one_new_inv eq_refl))).
Defined.

(** ** Deletion *)

Lemma found_in_list s i r :
  get_transaction_by_id s i = Some r ->
  In r (transactions (acct s)) /\ id_is i (deref (heap s) r) = true.
Proof. unfold get_transaction_by_id. apply find_some. Qed.

Lemma delete_transaction_found s i r :
  get_transaction_by_id s i = Some r ->
  delete_transaction i s
  = (mkState (heap s)
             (mkAccount (remove_first r (transactions (acct s))) (next_id (acct s))),
     inr tt).
Proof. intros H. unfold delete_transaction. rewrite H. reflexivity. Qed.

Lemma remove_first_not_in r l : List.NoDup l -> ~ In r (remove_first r l).
Proof.
  induction 1 as [|x l Hx Hl IH]; cbn; [tauto|].
  destruct (Nat.eqb x r) eqn:E.
  - apply Nat.eqb_eq in E. subst x. exact Hx.
  - intros [->|Hin]; [rewrite Nat.eqb_refl in E; discriminate|]. tauto.
Qed.

Lemma remove_first_length r l :
  In r l -> (length (remove_first r l) + 1 = length l)%nat.
Proof.
  induction l as [|x l IH]; intros Hin; [destruct Hin|].
  cbn [remove_first]. destruct (Nat.eqb x r) eqn:E; cbn [length]; [lia|].
  destruct Hin as [->|Hin]; [rewrite Nat.eqb_refl in E; discriminate|].
  specialize (IH Hin). lia.
Qed.

(** X4.  A call of [delete_transaction] with an id that no transaction
    of the account has raises [InvalidTransactionError] with the message
    naming the id, and changes nothing; after a delete that returned, in an
    account that holds no object twice, the id is gone: a second delete of
    the same id raises. *)
Theorem delete_transaction_twice :
  (forall s i, get_transaction_by_id s i = None ->
               delete_transaction i s = (s, inl (not_found i))) /\
  (forall s i r,
      ids_inv s -> List.NoDup (transactions (acct s)) ->
      get_transaction_by_id s i = Some r ->
      let s' := fst (delete_transaction i s) in
      get_transaction_by_id s' i = None /\
      delete_transaction i s' = (s', inl (not_found i))).
Proof.
  split.
  - intros s i H. unfold delete_transaction. rewrite H. reflexivity.
  - intros s i r Hinv Hnd Hf s'.
    assert (Hnone : get_transaction_by_id s' i = None).
    { subst s'. rewrite (delete_transaction_found _ _ _ Hf). cbn [fst].
      unfold get_transaction_by_id. cbn [heap acct transactions].
      destruct (List.find _ _) as [x|] eqn:Hx; [|reflexivity]. exfalso.
      apply find_some in Hx as [Hin Hid].
      destruct (found_in_list _ _ _ Hf) as [Hr Hrid].
      assert (Hx' : In x (transactions (acct s))) by (eapply in_remove_first, Hin).
      assert (x = r).
      { destruct Hinv as (H0 & H1 & H2). apply H2; try assumption.
        rewrite (id_is_idof s x i), (id_is_idof s r i); auto;
          (split; [|split]; assumption). }
      subst x. exact (remove_first_not_in r _ Hnd Hin). }
    split; [exact Hnone|].
    unfold delete_transaction. rewrite Hnone. reflexivity.
Qed.

Lemma two_transactions_inv : ids_inv two_transactions.
Proof.
  split; [cbn; lia|]. split.
  - intros r [<-|[<-|[]]]; [exists 1|exists 2]; (split; [reflexivity|cbn; lia]).
  - intros r1 r2 [<-|[<-|[]]] [<-|[<-|[]]]; (reflexivity || discriminate).
Qed.

Lemma delete_transaction_twice_witness :
  get_transaction_by_id (fst (delete_transaction 2 two_transactions)) 2 = None.
Proof.
  refine (proj1 (proj2 delete_transaction_twice two_transactions 2 1%nat
                   two_transactions_inv _ eq_refl)).
  repeat constructor; cbn; intuition discriminate.
Defined.

(** ** Updates *)

Lemma alter_alter (f g : Transaction -> Transaction) r (h : list Transaction) :
  alter f r (alter g r h) = alter (fun t => f (g t)) r h.
Proof.
  apply list_eq. intros k. destruct (decide (r = k)) as [<-|Hne].
  - rewrite !list_lookup_alter_eq. destruct (h !! r); reflexivity.
  - rewrite !list_lookup_alter_ne by assumption. reflexivity.
Qed.

Lemma alter_same (f : Transaction -> Transaction) r (h : list Transaction) :
  (forall t, f t = t) -> alter f r h = h.
Proof.
  intros Hf. apply list_eq. intros k. destruct (decide (r = k)) as [<-|Hne].
  - rewrite list_lookup_alter_eq. destruct (h !! r); cbn; [rewrite Hf|]; reflexivity.
  - rewrite list_lookup_alter_ne by assumption. reflexivity.
Qed.

(** The outcome of [update_transaction] on an id that is found, stage by
    stage. *)
Lemma update_transaction_found s i r date amount category description :
  get_transaction_by_id s i = Some r ->
  valid_update date amount category = true ->
  update_transaction i date amount category description s
  = (mkState (alter (fun t => upd_description description
                              (upd_category category
                              (upd_amount amount (upd_date date t)))) r (heap s))
             (acct s),
     inr tt).
Proof.
  intros Hf Hv. unfold update_transaction. rewrite Hf.
  unfold valid_update in Hv. apply andb_true_iff in Hv as [Hv Hc].
  apply andb_true_iff in Hv as [Hd Ha].
  assert (E1 : cwhen (negb (is_none date))
                 match as_date date with
                 | Some d => mutate r (set_date d)
                 | None => craise (InvalidTransactionError
                                     "date must be a datetime.date instance")
                 end s
               = (mkState (alter (upd_date date) r (heap s)) (acct s), inr tt)).
  { unfold upd_date. destruct date; cbn in Hd |- *; try discriminate;
      unfold cret, mutate; cbn; rewrite ?alter_same by reflexivity;
      destruct s; reflexivity. }
  erewrite cbind_ret by exact E1.
  set (s1 := mkState (alter (upd_date date) r (heap s)) (acct s)).
  assert (E2 : cwhen (negb (is_none amount))
                 match as_number amount with
                 | Some a => mutate r (set_amount a)
                 | None => craise (InvalidTransactionError "amount must be a number")
                 end s1
               = (mkState (alter (upd_amount amount) r (heap s1)) (acct s), inr tt)).
  { unfold upd_amount. destruct amount; cbn in Ha |- *; try discriminate;
      unfold cret, mutate; cbn; rewrite ?alter_same by reflexivity; reflexivity. }
  erewrite cbind_ret by exact E2.
  set (s2 := mkState (alter (upd_amount amount) r (heap s1)) (acct s)).
  assert (E3 : cwhen (negb (is_none category))
                 match as_str category with
                 | Some c =>
                   if negb (str_truthy c)
                   then craise (InvalidTransactionError
                                  "category must be a non-empty string")
                   else mutate r (set_category c)
                 | None => craise (InvalidTransactionError
                                     "category must be a non-empty string")
                 end s2
               = (mkState (alter (upd_category category) r (heap s2)) (acct s), inr tt)).
  { unfold upd_category. destruct category; cbn in Hc |- *; try discriminate;
      unfold cret, mutate; cbn; rewrite ?alter_same by reflexivity; try reflexivity.
    rewrite Hc. reflexivity. }
  erewrite cbind_ret by exact E3.
  set (s3 := mkState (alter (upd_category category) r (heap s2)) (acct s)).
  assert (E4 : cwhen (negb (is_none description))
                 (mutate r (set_description description)) s3
               = (mkState (alter (upd_description description) r (heap s3)) (acct s),
                  inr tt)).
  { unfold upd_description, cwhen.
    destruct (is_none description); cbn [negb]; unfold cret, mutate; cbn;
      rewrite ?alter_same by reflexivity; reflexivity. }
  rewrite E4. subst s3 s2 s1. cbn [heap].
  rewrite !alter_alter. reflexivity.
Qed.

Lemma update_transaction_not_found s i date amount category description :
  get_transaction_by_id s i = None ->
  update_transaction i date amount category description s = (s, inl (not_found i)).
Proof. intros H. unfold update_transaction. rewrite H. reflexivity. Qed.

Lemma update_transaction_invalid s i r date amount category description :
  get_transaction_by_id s i = Some r ->
  valid_update date amount category = false ->
  exists msg, snd (update_transaction i date amount category description s)
              = inl (InvalidTransactionError msg).
Proof.
  intros Hf Hv. unfold update_transaction. rewrite Hf.
  unfold valid_update in Hv.
  destruct date, amount, category; cbn in Hv; try discriminate;
    try (destruct s0 as [|? ?]; cbn in Hv; try discriminate);
    try (destruct s1 as [|? ?]; cbn in Hv; try discriminate);
    cbv [cbind cwhen is_none negb as_date as_number as_str mutate craise cret
         str_truthy snd fst raise ret];
    eexists; reflexivity.
Qed.

(** X5.  [update_transaction] returns exactly when the id is found and
    each of date, amount and category is [None] or passes the check of its
    field; it then has replaced the fields that were given and kept the
    others; with no field given it changes nothing.  Otherwise it raises
    [InvalidTransactionError]. *)
Theorem update_transaction_outcome s i date amount category description :
  (snd (update_transaction i date amount category description s) = inr tt
   <-> (exists r, get_transaction_by_id s i = Some r) /\
       valid_update date amount category = true) /\
  (forall r, get_transaction_by_id s i = Some r ->
             valid_update date amount category = true ->
             fst (update_transaction i date amount category description s)
             = mkState (alter (fun t => upd_description description
                                          (upd_category category
                                          (upd_amount amount (upd_date date t))))
                              r (heap s))
                       (acct s)) /\
  fst (update_transaction i PyNone PyNone PyNone PyNone s) = s /\
  (snd (update_transaction i date amount category description s) <> inr tt ->
   exists msg, snd (update_transaction i date amount category description s)
               = inl (InvalidTransactionError msg)).
Proof.
  assert (Hcases :
    (exists r, get_transaction_by_id s i = Some r /\
               valid_update date amount category = true /\
               update_transaction i date amount category description s
               = (mkState (alter (fun t => upd_description description
                                   (upd_category category
                                   (upd_amount amount (upd_date date t)))) r (heap s))
                          (acct s), inr tt)) \/
    ((~ ((exists r, get_transaction_by_id s i = Some r) /\
         valid_update date amount category = true)) /\
     exists msg, snd (update_transaction i date amount category description s)
                 = inl (InvalidTransactionError msg))).
  { destruct (get_transaction_by_id s i) as [r|] eqn:Hf.
    - destruct (valid_update date amount category) eqn:Hv.
      + left. exists r. split; [reflexivity|]. split; [reflexivity|].
        apply update_transaction_found; assumption.
      + right. split; [intros [_ H]; discriminate|].
        eapply update_transaction_invalid; eassumption.
    - right. split; [intros [[r Hr] _]; discriminate|].
      rewrite update_transaction_not_found by assumption. eexists. reflexivity. }
  split; [|split; [|split]].
  - destruct Hcases as [(r & Hf & Hv & E)|(Hn & msg & E)].
    + rewrite E. cbn. split; [intros _; eauto|reflexivity].
    + rewrite E. split; [discriminate|]. intros H. contradiction.
  - intros r Hf Hv. rewrite (update_transaction_found s i r) by assumption.
    reflexivity.
  - destruct (get_transaction_by_id s i) as [r|] eqn:Hf.
    + rewrite (update_transaction_found s i r) by (assumption || reflexivity).
      cbn [fst]. rewrite alter_same by reflexivity. destruct s; reflexivity.
    + rewrite update_transaction_not_found by assumption. reflexivity.
  - intros Hne. destruct Hcases as [(r & Hf & Hv & E)|(Hn & msg & E)].
    + rewrite E in Hne. contradiction.
    + eauto.
Qed.

Lemma update_transaction_outcome_witness :
  fst (update_transaction 2 PyNone (PyFloat (-60)) (PyStr "Food") PyNone
                          two_transactions)
  = mkState [ mkTransaction (mkDate 2023 10 1) 100%Q "Income" (PyStr "") (Some 1);
              mkTransaction (mkDate 2023 10 1) (-60)%Q "Food" (PyStr "") (Some 2) ]
            (mkAccount [0%nat; 1%nat] 3).
Proof.
  exact (proj1 (proj2 (update_transaction_outcome two_transactions 2 PyNone
                         (PyFloat (-60)) (PyStr "Food") PyNone))
               1%nat eq_refl eq_refl).
Defined.

Lemma only_touches_cret {A} r (a : A) : only_touches r (cret a).
Proof. intros s. split; [reflexivity|]. intros; reflexivity. Qed.

Lemma only_touches_craise {A} r e : only_touches r (@craise A e).
Proof. intros s. split; [reflexivity|]. intros; reflexivity. Qed.

Lemma only_touches_cbind {A B} r (m : Cmd A) (f : A -> Cmd B) :
  only_touches r m -> (forall a, only_touches r (f a)) -> only_touches r (cbind m f).
Proof.
  intros Hm Hf s. unfold cbind. specialize (Hm s).
  destruct (m s) as [s' [e|a]]; cbn [fst] in *; [exact Hm|].
  destruct Hm as [Hl Hx]. destruct (Hf a s') as [Hl' Hx'].
  split; [congruence|]. intros x Hne. rewrite Hx' by exact Hne. apply Hx, Hne.
Qed.

Lemma only_touches_cwhen r b (m : Cmd unit) :
  only_touches r m -> only_touches r (cwhen b m).
Proof. intros Hm. destruct b; [exact Hm|apply only_touches_cret]. Qed.

Lemma only_touches_mutate r f : only_touches r (mutate r f).
Proof.
  intros s. unfold mutate. cbn. split; [apply length_alter|].
  intros x Hne. apply list_lookup_alter_ne. congruence.
Qed.

(** X6.  Whether it returns or raises, [update_transaction] leaves the
    list of the account and [next_id], the number of objects and the id of
    every object as they were, and writes to no object other than the one
    it found. *)
Theorem update_transaction_frame s i date amount category description :
  let s' := fst (update_transaction i date amount category description s) in
  acct s' = acct s /\
  length (heap s') = length (heap s) /\
  (forall x, t_id <$> heap s' !! x = t_id <$> heap s !! x) /\
  (forall x, get_transaction_by_id s i <> Some x -> heap s' !! x = heap s !! x).
Proof.
  intros s'. destruct (keeps_ids_update i date amount category description s)
    as [Ha Hi]. fold s' in Ha, Hi.
  split; [exact Ha|].
  assert (H : length (heap s') = length (heap s) /\
              forall x, get_transaction_by_id s i <> Some x ->
                        heap s' !! x = heap s !! x).
  { subst s'. unfold update_transaction.
    destruct (get_transaction_by_id s i) as [r|] eqn:Hf.
    2:{ split; [reflexivity|]. intros; reflexivity. }
    assert (Ht : only_touches r
      (cbind (cwhen (negb (is_none date))
                match as_date date with
                | Some d => mutate r (set_date d)
                | None => craise (InvalidTransactionError
                                    "date must be a datetime.date instance")
                end) (fun _ =>
       cbind (cwhen (negb (is_none amount))
                match as_number amount with
                | Some a => mutate r (set_amount a)
                | None => craise (InvalidTransactionError "amount must be a number")
                end) (fun _ =>
       cbind (cwhen (negb (is_none category))
                match as_str category with
                | Some c =>
                  if negb (str_truthy c)
                  then craise (InvalidTransactionError
                                 "category must be a non-empty string")
                  else mutate r (set_category c)
                | None => craise (InvalidTransactionError
                                    "category must be a non-empty string")
                end) (fun _ =>
       cwhen (negb (is_none description))
             (mutate r (set_description description))))))).
    { repeat first
        [ apply only_touches_cbind; [|intros _]
        | apply only_touches_cwhen ].
      - destruct (as_date date);
          [apply only_touches_mutate|apply only_touches_craise].
      - destruct (as_number amount);
          [apply only_touches_mutate|apply only_touches_craise].
      - destruct (as_str category) as [c|]; [|apply only_touches_craise].
        destruct (negb (str_truthy c));
          [apply only_touches_craise|apply only_touches_mutate].
      - apply only_touches_mutate. }
    destruct (Ht s) as [Hl Hx]. split; [exact Hl|].
    intros x Hne. apply Hx. congruence. }
  destruct H as [Hl Hx]. split; [exact Hl|]. split; [|exact Hx].
  exact Hi.
Qed.

(** ** Queries *)

Lemma filter_sublist {A} (p : A -> bool) (l : list A) : sublist (List.filter p l) l.
Proof.
  induction l as [|x l IH]; cbn; [constructor|].
  destruct (p x); [apply sublist_skip|apply sublist_cons]; exact IH.
Qed.

Lemma filter_true {A} (l : list A) : List.filter (fun _ => true) l = l.
Proof. induction l as [|x l IH]; cbn; [|rewrite IH]; reflexivity. Qed.

Lemma list_transactions_filter s start_date end_date category :
  list_transactions s start_date end_date category
  = List.filter
      (fun r =>
         match start_date with Some d => date_leb d (date_of s r) | None => true end
         && match end_date with Some d => date_leb (date_of s r) d | None => true end
         && match category with
            | Some c => if str_truthy c then String.eqb (category_of s r) c else true
            | None => true
            end)
      (transactions (acct s)).
Proof.
  unfold list_transactions, date_of, category_of, date_geb.
  rewrite <- !filter_filter.
  destruct start_date, end_date, category as [c|]; try destruct (str_truthy c);
    rewrite ?filter_true; reflexivity.
Qed.

(** X7.  [list_transactions] returns the transactions of the account, in
    the order of the account, that satisfy every filter given: dated on or
    after [start_date], on or before [end_date], and of the category when
    it is given and is not the empty string. *)
Theorem list_transactions_spec s start_date end_date category :
  sublist (list_transactions s start_date end_date category)
          (transactions (acct s)) /\
  forall r,
    In r (list_transactions s start_date end_date category) <->
    In r (transactions (acct s)) /\
    (forall d, start_date = Some d -> date_leb d (date_of s r) = true) /\
    (forall d, end_date = Some d -> date_leb (date_of s r) d = true) /\
    (forall c, category = Some c -> c <> "" -> category_of s r = c).
Proof.
  rewrite list_transactions_filter. split; [apply filter_sublist|].
  intros r. rewrite filter_In, !andb_true_iff.
  assert (H1 : match start_date with
               | Some d => date_leb d (date_of s r) | None => true end = true
               <-> forall d, start_date = Some d -> date_leb d (date_of s r) = true).
  { destruct start_date as [d|]; split; auto; try discriminate.
    intros H d' [= <-]. exact H. }
  assert (H2 : match end_date with
               | Some d => date_leb (date_of s r) d | None => true end = true
               <-> forall d, end_date = Some d -> date_leb (date_of s r) d = true).
  { destruct end_date as [d|]; split; auto; try discriminate.
    intros H d' [= <-]. exact H. }
  assert (H3 : match category with
               | Some c => if str_truthy c then String.eqb (category_of s r) c else true
               | None => true end = true
               <-> forall c, category = Some c -> c <> "" -> category_of s r = c).
  { destruct category as [c|]; [|split; auto; discriminate].
    destruct c as [|x c]; cbn [str_truthy].
    - split; auto. intros _ c' [= <-] Hne. contradiction.
    - rewrite String.eqb_eq. split.
      + intros H c' [= <-] _. exact H.
      + intros H. apply H; [reflexivity|discriminate]. }
  rewrite H1, H2, H3. tauto.
Qed.

(** ** The month windows of the service *)

Lemma date_leb_refl a : date_leb a a = true.
Proof. unfold date_leb, date_compare. rewrite !Z.compare_refl. reflexivity. Qed.

Lemma date_leb_antisym a b : date_leb a b = true -> date_leb b a = true -> a = b.
Proof.
  unfold date_leb, date_compare. destruct a as [y1 m1 d1], b as [y2 m2 d2]; cbn.
  destruct (Z.compare_spec y1 y2), (Z.compare_spec y2 y1); try lia; try discriminate;
    destruct (Z.compare_spec m1 m2), (Z.compare_spec m2 m1); try lia; try discriminate;
    destruct (Z.compare_spec d1 d2), (Z.compare_spec d2 d1); try lia; try discriminate;
    intros _ _; f_equal; lia.
Qed.

Lemma first_of_month_le_next y m :
  date_leb (first_of_month y m) (first_of_next_month y m) = true.
Proof.
  unfold date_leb, date_compare, first_of_month, first_of_next_month.
  destruct (m =? 12) eqn:E; cbn.
  - destruct (Z.compare_spec y (y + 1)); try lia; reflexivity.
  - rewrite Z.compare_refl.
    destruct (Z.compare_spec m (m + 1)); try lia; reflexivity.
Qed.

(** The month that follows [(y, m)]. *)
Lemma first_of_next_month_is_first y m :
  first_of_next_month y m
  = first_of_month (if m =? 12 then y + 1 else y) (if m =? 12 then 1 else m + 1).
Proof. unfold first_of_next_month, first_of_month. destruct (m =? 12); reflexivity. Qed.

(** X8.  The transactions read by the monthly aggregations for a month
    and for the month that follows have in common exactly the transactions
    dated on the first day of the second month: such a transaction is
    counted in both months. *)
Theorem month_windows_share_first_day s today y m :
  1 <= y <= 9997 -> 1 <= m <= 12 ->
  let y' := if m =? 12 then y + 1 else y in
  let m' := if m =? 12 then 1 else m + 1 in
  exists l l',
    monthly_transactions s today (Some y) (Some m) = inr l /\
    monthly_transactions s today (Some y') (Some m') = inr l' /\
    forall r, In r l /\ In r l' <->
              In r (transactions (acct s)) /\ date_of s r = mkDate y' m' 1.
Proof.
  intros Hy Hm y' m'.
  assert (Hy' : 1 <= y' <= 9998) by (subst y'; destruct (m =? 12); lia).
  assert (Hm' : 1 <= m' <= 12) by (subst m'; destruct (m =? 12) eqn:E; lia).
  rewrite !monthly_transactions_inclusive by (assumption || lia).
  eexists _, _. split; [reflexivity|]. split; [reflexivity|].
  intros r. rewrite !filter_In, !andb_true_iff.
  assert (E : first_of_next_month y m = mkDate y' m' 1)
    by apply first_of_next_month_is_first.
  rewrite E. change (first_of_month y' m') with (mkDate y' m' 1). split.
  - intros [(Hin & _ & H1) (_ & H2 & _)]. split; [exact Hin|].
    apply date_leb_antisym; assumption.
  - intros [Hin Hd]. rewrite Hd. repeat split; try assumption;
      try apply date_leb_refl.
    + rewrite <- E. apply first_of_month_le_next.
    + apply (first_of_month_le_next y' m').
Qed.

Lemma month_windows_share_first_day_witness :
  exists l l',
    monthly_transactions november_first mid_october (Some 2023) (Some 10) = inr l /\
    monthly_transactions november_first mid_october (Some 2023) (Some 11) = inr l' /\
    forall r, In r l /\ In r l' <->
              In r (transactions (acct november_first)) /\
              date_of november_first r = mkDate 2023 11 1.
Proof.
  apply (month_windows_share_first_day november_first mid_october 2023 10); lia.
Defined.

(** * Further properties of the budget *)

Lemma Qltb_lt x y : Qltb x y = true <-> (x < y)%Q.
Proof.
  unfold Qltb. rewrite Qlt_alt. destruct (x ?= y)%Q; split; congruence.
Qed.

Lemma Qltb_ge x y : Qltb x y = false <-> (y <= x)%Q.
Proof.
  split.
  - intros H. apply Qnot_lt_le. intros Hlt. apply Qltb_lt in Hlt. congruence.
  - intros H. destruct (Qltb x y) eqn:E; [|reflexivity].
    apply Qltb_lt in E. exfalso. exact (Qle_not_lt _ _ H E).
Qed.

(** X9.  [set_budget] with a negative amount raises [ValueError]; with
    another amount it stores the amount, which [get_budget] then returns
    for that category, and leaves the other categories as they were; a
    category that was never set has budget 0. *)
Theorem set_budget_get_budget :
  (forall b c amount, (amount < 0)%Q ->
      set_budget b c amount = inl (ValueError "Budget amount cannot be negative")) /\
  (forall b c amount, (0 <= amount)%Q ->
      exists b', set_budget b c amount = inr b' /\
                 get_budget b' c = amount /\
                 forall c', c' <> c -> get_budget b' c' = get_budget b c') /\
  (forall c, get_budget Budget_init c = 0%Q).
Proof.
  split; [|split].
  - intros b c amount H. unfold set_budget. apply Qltb_lt in H. rewrite H. reflexivity.
  - intros b c amount H. unfold set_budget. apply Qltb_ge in H. rewrite H.
    eexists. split; [reflexivity|]. unfold get_budget. cbn. split.
    + rewrite lookup_insert_eq. reflexivity.
    + intros c' Hne. rewrite lookup_insert_ne by congruence. reflexivity.
  - intros c. reflexivity.
Qed.

Lemma set_budget_get_budget_witness :
  exists b', set_budget Budget_init "Groceries" 500 = inr b' /\
             get_budget b' "Groceries" = 500%Q /\
             forall c', c' <> "Groceries" -> get_budget b' c' = get_budget Budget_init c'.
Proof.
  apply (proj1 (proj2 set_budget_get_budget) Budget_init "Groceries" 500%Q).
  discriminate.
Defined.

Lemma set_budget_nonneg b c amount :
  (forall k, 0 <= get_budget b k)%Q ->
  forall k, (0 <= get_budget match set_budget b c amount with
                             | inr b' => b'
                             | inl _ => b
                             end k)%Q.
Proof.
  intros Hb k. unfold set_budget. destruct (Qltb amount 0) eqn:E; [apply Hb|].
  apply Qltb_ge in E. unfold get_budget. cbn.
  destruct (decide (c = k)) as [->|Hne].
  - rewrite lookup_insert_eq. exact E.
  - rewrite lookup_insert_ne by exact Hne. apply Hb.
Qed.

(** X10.  Whatever calls of [set_budget] are made on a new budget, no
    category ever has a negative budget. *)
Theorem budgets_never_negative calls c :
  (0 <= get_budget (set_budget_calls Budget_init calls) c)%Q.
Proof.
  unfold set_budget_calls.
  assert (H : forall b, (forall k, 0 <= get_budget b k)%Q ->
            forall k, (0 <= get_budget
              (fold_left (fun b call =>
                 match set_budget b (fst call) (snd call) with
                 | inr b' => b'
                 | inl _ => b
                 end) calls b) k)%Q).
  { induction calls as [|[k0 a] calls IH]; intros b Hb k; [apply Hb|].
    cbn [fold_left fst snd]. apply IH. apply set_budget_nonneg, Hb. }
  apply H. intros k. cbn. discriminate.
Qed.

(** * Further properties of the service *)

(** ** Signs of the monthly sums *)

Lemma py_sum_nonneg l : Forall (fun a => 0 <= a)%Q l -> (0 <= py_sum l)%Q.
Proof.
  unfold py_sum. assert (H : forall x, (0 <= x)%Q ->
    Forall (fun a => 0 <= a)%Q l -> (0 <= fold_left Qplus l x)%Q).
  { induction l as [|a l IH]; intros x Hx Hl; [exact Hx|].
    inversion Hl; subst. cbn. apply IH; [|assumption].
    rewrite <- (Qplus_0_r 0). apply Qplus_le_compat; assumption. }
  apply H. discriminate.
Qed.

(** X11.  Monthly spending and monthly income are never negative. *)
Theorem monthly_sums_nonnegative s today y m :
  (forall q, get_monthly_spending s today y m = inr q -> (0 <= q)%Q) /\
  (forall q, get_monthly_income s today y m = inr q -> (0 <= q)%Q).
Proof.
  unfold get_monthly_spending, get_monthly_income.
  destruct (monthly_transactions s today y m) as [e|txs]; cbn [bind ret];
    (split; intros q [= <-]); apply py_sum_nonneg.
  - apply List.Forall_forall. intros a Ha. apply in_map_iff in Ha as (r & <- & _).
    apply Qabs_nonneg.
  - apply List.Forall_forall. intros a Ha. apply in_map_iff in Ha as (r & <- & Hr).
    apply filter_In in Hr as [_ Hr]. apply Qltb_lt in Hr. apply Qlt_le_weak, Hr.
Qed.

(** ** Magnitudes *)

Lemma Qabs_of_neg a : (a < 0)%Q -> (Qabs a == - a)%Q.
Proof. intros H. apply Qabs_neg, Qlt_le_weak, H. Qed.

(** ** Category totals *)

Lemma first_occurrences_complete l : forall seen c,
  In c l -> In c seen \/ In c (first_occurrences seen l).
Proof.
  induction l as [|x l IH]; intros seen c Hc; [destruct Hc|].
  cbn [first_occurrences]. destruct (existsb (String.eqb x) seen) eqn:E.
  - destruct Hc as [<-|Hc]; [left; apply existsb_eqb_In, E|apply IH, Hc].
  - destruct Hc as [<-|Hc]; [right; left; reflexivity|].
    destruct (IH (seen ++ [x]) c Hc) as [H|H].
    + apply in_app_or in H as [H|[<-|[]]]; [left; exact H|right; left; reflexivity].
    + right. right. exact H.
Qed.

Lemma first_occurrences_In l : forall seen c,
  In c (first_occurrences seen l) -> In c l.
Proof.
  induction l as [|x l IH]; intros seen c; cbn [first_occurrences]; [tauto|].
  destruct (existsb (String.eqb x) seen).
  - intros H. right. eapply IH, H.
  - intros [<-|H]; [left; reflexivity|right; eapply IH, H].
Qed.

(** X13.  The keys of the dictionary of [get_category_totals] are the
    categories of the transactions read for the month, each once, in the
    order in which they first occur: a category is a key exactly when
    some transaction read has it. *)
Theorem category_totals_keys s today y m txs totals :
  monthly_transactions s today y m = inr txs ->
  get_category_totals s today y m = inr totals ->
  dict_keys totals = first_occurrences [] (map (category_of s) txs) /\
  List.NoDup (dict_keys totals) /\
  (forall c, In c (dict_keys totals) <->
             exists r, In r txs /\ category_of s r = c).
Proof.
  intros Ht. unfold get_category_totals. rewrite Ht. cbn [bind ret].
  intros [= <-]. rewrite category_totals_loop, totals_of_keys, map_map.
  fold (category_of s). split; [reflexivity|].
  split; [apply first_occurrences_NoDup|]. intros c. split.
  - intros H. apply first_occurrences_In, in_map_iff in H as (r & Hr & Hin).
    exists r. auto.
  - intros (r & Hin & Hr).
    destruct (first_occurrences_complete (map (category_of s) txs) [] c) as [[]|H];
      [|exact H].
    apply in_map_iff. exists r. auto.
Qed.

Lemma category_totals_keys_witness :
  dict_keys [("Groceries", (-20)%Q); ("Rent", (-700)%Q)]
  = first_occurrences [] (map (category_of rent_on_boundary) [0%nat; 1%nat]).
Proof.
  exact (proj1 (category_totals_keys rent_on_boundary mid_october (Some 2023) (Some 10)
                  [0%nat; 1%nat] [("Groceries", (-20)%Q); ("Rent", (-700)%Q)]
                  eq_refl eq_refl)).
Defined.

(** ** Category spending *)

Lemma get_category_totals_NoDup s today y m totals :
  get_category_totals s today y m = inr totals -> List.NoDup (dict_keys totals).
Proof.
  unfold get_category_totals.
  destruct (monthly_transactions s today y m) as [e|txs]; [discriminate|].
  cbn [bind ret]. intros [= <-]. rewrite category_totals_loop.
  apply totals_of_NoDup.
Qed.

(** X15.  The dictionary of [get_category_spending] has one entry for
    each category whose total is negative, with the magnitude of that
    total, and no other entry; its values are positive and no key occurs
    twice. *)
Theorem category_spending_entries s today y m totals spending :
  get_category_totals s today y m = inr totals ->
  get_category_spending s today y m = inr spending ->
  List.NoDup (dict_keys spending) /\
  (forall k v, In (k, v) spending <->
               exists v0, In (k, v0) totals /\ (v0 < 0)%Q /\ v = Qabs v0) /\
  (forall k v, In (k, v) spending -> (0 < v)%Q).
Proof.
  intros Ht. pose proof (get_category_totals_NoDup _ _ _ _ _ Ht) as Hnd.
  unfold get_category_spending. rewrite Ht. cbn [bind ret]. intros [= <-].
  rewrite spending_of_totals_spec by exact Hnd.
  assert (Hiff : forall k v,
    In (k, v) (map (fun kv => (fst kv, Qabs (snd kv)))
                   (List.filter (fun kv => Qltb (snd kv) 0) totals)) <->
    exists v0, In (k, v0) totals /\ (v0 < 0)%Q /\ v = Qabs v0).
  { intros k v. rewrite in_map_iff. split.
    - intros ([k0 v0] & [= <- <-] & Hin). apply filter_In in Hin as [Hin Hneg].
      exists v0. split; [exact Hin|]. split; [apply Qltb_lt, Hneg|reflexivity].
    - intros (v0 & Hin & Hneg & ->). exists (k, v0). split; [reflexivity|].
      apply filter_In. split; [exact Hin|apply Qltb_lt, Hneg]. }
  split; [|split].
  - unfold dict_keys in *. rewrite map_map. cbn [fst].
    clear Hiff Ht. induction totals as [|[k v] totals IH]; [constructor|].
    cbn [List.filter snd map fst] in *. inversion Hnd as [|? ? Hk Hnd']; subst.
    destruct (Qltb v 0); [|apply IH, Hnd'].
    cbn [map fst]. constructor; [|apply IH, Hnd'].
    intros Hin. apply Hk. apply in_map_iff in Hin as (kv & <- & Hkv).
    apply filter_In in Hkv as [Hkv _]. apply in_map. exact Hkv.
  - exact Hiff.
  - intros k v Hin. apply Hiff in Hin as (v0 & _ & Hneg & ->).
    rewrite (Qabs_of_neg v0 Hneg).
    apply (Qopp_lt_compat v0 0) in Hneg. exact Hneg.
Qed.

Lemma category_spending_entries_witness :
  In ("Rent", 700%Q) [("Groceries", 20%Q); ("Rent", 700%Q)] <->
  exists v0, In ("Rent", v0) [("Groceries", (-20)%Q); ("Rent", (-700)%Q)] /\
             (v0 < 0)%Q /\ 700%Q = Qabs v0.
Proof.
  exact (proj1 (proj2 (category_spending_entries rent_on_boundary mid_october
                         (Some 2023) (Some 10)
                         [("Groceries", (-20)%Q); ("Rent", (-700)%Q)]
                         [("Groceries", 20%Q); ("Rent", 700%Q)] eq_refl eq_refl))
               "Rent" 700%Q).
Defined.

(** ** Budget status *)



(** ** Creation *)

Lemma ids_inv_allocated s : ids_inv s -> allocated s.
Proof.
  intros (_ & H1 & _) r Hr. destruct (H1 r Hr) as (i & Hi & _).
  unfold idof in Hi. destruct (heap s !! r) eqn:E; [|discriminate].
  eapply lookup_lt_Some, E.
Qed.

Lemma deref_app_l h h' r : (r < length h)%nat -> deref (h ++ h') r = deref h r.
Proof.
  intros Hr. unfold deref. rewrite !list_lookup_total_alt, lookup_app_l by exact Hr.
  reflexivity.
Qed.

Lemma create_transaction_spec date amount category description s :
  create_transaction date amount category description s
  = match Transaction_init date amount category description None with
    | inl e => (s, inl e)
    | inr t =>
      (mkState (heap s ++ [set_id (Some (next_id (acct s))) t])
               (mkAccount (transactions (acct s) ++ [length (heap s)])
                          (next_id (acct s) + 1)),
       inr (length (heap s)))
    end.
Proof.
  unfold create_transaction, cbind, Transaction_new.
  destruct (Transaction_init _ _ _ _ _) as [e|t]; [reflexivity|].
  unfold alloc, add_transaction, ret, cret. cbn [heap acct].
  rewrite lookup_app_r, Nat.sub_diag by lia. cbn.
  rewrite alter_last. reflexivity.
Qed.

Lemma create_transaction_appends s date amount category description t :
  ids_inv s ->
  Transaction_init date amount category description None = inr t ->
  exists s' r,
    create_transaction date amount category description s = (s', inr r) /\
    deref (heap s') r = set_id (Some (next_id (acct s))) t /\
    live s' = live s ++ [set_id (Some (next_id (acct s))) t] /\
    next_id (acct s') = next_id (acct s) + 1 /\
    get_transaction_by_id s' (next_id (acct s)) = Some r /\
    ids_inv s'.
Proof.
  intros Hinv Hinit. rewrite create_transaction_spec, Hinit.
  pose proof (ids_inv_allocated s Hinv) as Halloc.
  set (s1 := mkState (heap s ++ [t]) (acct s)).
  assert (Hs1 : ids_inv s1).
  { pose proof (step_inv s (OpNew date amount category description None) Hinv) as H.
    unfold step in H. cbn [exec] in H. unfold cbind, Transaction_new in H.
    rewrite Hinit in H. exact H. }
  assert (Hl : heap s1 !! length (heap s) = Some t).
  { cbn. rewrite lookup_app_r, Nat.sub_diag by lia. reflexivity. }
  assert (Hlt : (length (heap s) < length (heap s1))%nat).
  { eapply lookup_lt_Some, Hl. }
  pose proof (find_just_added s1 (length (heap s)) Hs1 Hlt) as Hfind.
  pose proof (step_inv s1 (OpAdd (length (heap s))) Hs1) as Hinv'.
  unfold step in Hinv'. cbn [exec] in Hinv'.
  rewrite (add_transaction_ok _ _ _ Hl) in Hinv'. cbn [fst] in Hinv'.
  cbn [heap acct s1] in Hfind, Hinv'. rewrite alter_last in Hfind, Hinv'.
  eexists _, _. split; [reflexivity|].
  assert (Hold : forall h', map (deref (heap s ++ h')) (transactions (acct s))
                            = map (deref (heap s)) (transactions (acct s))).
  { intros h'. apply map_ext_in. intros x Hx. apply deref_app_l, Halloc, Hx. }
  split; [|split; [|split; [|split]]].
  - unfold deref. cbn [heap].
    rewrite list_lookup_total_alt, lookup_app_r, Nat.sub_diag by lia. reflexivity.
  - unfold live. cbn [heap acct transactions]. rewrite map_app, Hold. cbn [map].
    f_equal. f_equal. unfold deref.
    rewrite list_lookup_total_alt, lookup_app_r, Nat.sub_diag by lia. reflexivity.
  - reflexivity.
  - exact Hfind.
  - exact Hinv'.
Qed.

(** X17.  [create_transaction] with arguments that the constructor
    rejects raises the constructor's error and leaves the account as it
    was.  Otherwise it returns a new object, appended to the account with
    the former [next_id] as id; [get_transaction_by_id] with that id then
    returns the object, and the transactions that were in the account
    are unchanged. *)
Theorem create_transaction_outcome s date amount category description :
  ids_inv s ->
  match Transaction_init date amount category description None with
  | inl e => create_transaction date amount category description s = (s, inl e)
  | inr t =>
    exists s' r,
      create_transaction date amount category description s = (s', inr r) /\
      deref (heap s') r = set_id (Some (next_id (acct s))) t /\
      live s' = live s ++ [set_id (Some (next_id (acct s))) t] /\
      next_id (acct s') = next_id (acct s) + 1 /\
      get_transaction_by_id s' (next_id (acct s)) = Some r /\
      ids_inv s'
  end.
Proof.
  intros Hinv.
  destruct (Transaction_init date amount category description None) as [e|t] eqn:Hinit.
  - rewrite create_transaction_spec, Hinit. reflexivity.
  - eapply create_transaction_appends; eassumption.
Qed.

Lemma create_transaction_outcome_witness :
  exists s' r,
    create_transaction (PyDate (mkDate 2023 10 3)) (PyFloat (-5)) (PyStr "Coffee")
                       (PyStr "") two_transactions = (s', inr r) /\
    get_transaction_by_id s' 3 = Some r.
Proof.
  destruct (create_transaction_outcome two_transactions (PyDate (mkDate 2023 10 3))
              (PyFloat (-5)) (PyStr "Coffee") (PyStr "") two_transactions_inv)
    as (s' & r & Hc & _ & _ & _ & Hf & _).
  exists s', r. split; [exact Hc|exact Hf].
Defined.

(** * Further properties of the import *)

Lemma import_counts lines : forall i,
  (length (imported_transactions lines) + length (import_errors i lines)
   = length lines)%nat.
Proof.
  induction lines as [|line lines IH]; intros i; [reflexivity|].
  cbn [imported_transactions import_errors length].
  destruct (line_result line); cbn [length]; rewrite <- (IH (i + 1)); lia.
Qed.

Lemma drop_while_all_nil p u : forallb p u = true -> drop_while p u = [].
Proof.
  intros H. rewrite <- (app_nil_r u). rewrite drop_while_all by exact H. reflexivity.
Qed.

(** X18.  Every line of the trimmed input is either imported or
    reported: the count returned and the number of messages add up to the
    number of lines.  An input made of white space only has no line:
    nothing is imported, nothing reported, and the account is unchanged. *)
Theorem import_accounts_for_every_line :
  (forall csv s,
      fst (snd (import_transactions_from_csv csv s))
      + Z.of_nat (length (snd (snd (import_transactions_from_csv csv s))))
      = Z.of_nat (length (splitlines (strip (text_of csv))))) /\
  (forall csv s, forallb is_space (text_of csv) = true ->
                 import_transactions_from_csv csv s = (s, (0, []))).
Proof.
  split.
  - intros csv s. unfold import_transactions_from_csv. rewrite import_loop_spec.
    cbn [fst snd app]. rewrite <- (import_counts _ 0). lia.
  - intros csv s H. unfold import_transactions_from_csv, strip, lstrip, rstrip.
    rewrite (drop_while_all_nil _ _ H). reflexivity.
Qed.

Lemma import_accounts_for_every_line_witness :
  import_transactions_from_csv (String " " (String "010" "")) one_transaction
  = (one_transaction, (0, [])).
Proof.
  exact (proj2 import_accounts_for_every_line (String " " (String "010" ""))
               one_transaction eq_refl).
Defined.

(** The body of the loop is a call of [create_transaction] on the fields
    of the line. *)
Lemma import_line_create line s :
  import_line line s
  = match parse_csv_line (str_of line) with
    | inl e => (s, inl e)
    | inr (d, a, c, ds) =>
      match create_transaction (PyDate d) (PyFloat a) (PyStr c) (PyStr ds) s with
      | (s', inl e) => (s', inl e)
      | (s', inr _) => (s', inr tt)
      end
    end.
Proof.
  unfold import_line. destruct (parse_csv_line (str_of line)) as [e|[[[d a] c] ds]];
    [reflexivity|]. unfold cbind.
  destruct (create_transaction _ _ _ _ s) as [s' [e|r]]; reflexivity.
Qed.

Lemma import_loop_inv lines : forall i s imported errors,
  ids_inv s ->
  let s' := fst (import_loop i lines s imported errors) in
  ids_inv s' /\
  live s' = live s ++ number_from (next_id (acct s)) (imported_transactions lines).
Proof.
  induction lines as [|line lines IH]; intros i s imported errors Hinv.
  - cbn. rewrite app_nil_r. auto.
  - cbn [import_loop imported_transactions]. rewrite import_line_create.
    unfold line_result.
    destruct (parse_csv_line (str_of line)) as [e|[[[d a] c] ds]]; cbn [bind].
    + apply IH, Hinv.
    + destruct (Transaction_init (PyDate d) (PyFloat a) (PyStr c) (PyStr ds) None)
        as [e|t] eqn:Hinit.
      * rewrite create_transaction_spec, Hinit. apply IH, Hinv.
      * destruct (create_transaction_appends s _ _ _ _ t Hinv Hinit)
          as (s1 & r & -> & _ & Hlive & Hn & _ & Hinv1).
        destruct (IH (i + 1) s1 (imported + 1) errors Hinv1) as (H1 & H2).
        split; [exact H1|].
        rewrite H2, Hlive, Hn, <- app_assoc. reflexivity.
Qed.

(** X19.  An import into an account that satisfies the invariant of the
    identifiers leaves an account that satisfies it; the transactions that
    were in the account are unchanged and keep their place, the imported
    ones follow in the order of their lines with consecutive ids from
    [next_id] on. *)
Theorem import_extends_account csv s :
  ids_inv s ->
  let new := imported_transactions (splitlines (strip (text_of csv))) in
  let s' := fst (import_transactions_from_csv csv s) in
  ids_inv s' /\
  live s' = live s ++ number_from (next_id (acct s)) new.
Proof.
  intros Hinv. unfold import_transactions_from_csv. apply import_loop_inv, Hinv.
Qed.

Lemma import_extends_account_witness :
  live (fst (import_transactions_from_csv three_lines two_transactions))
  = live two_transactions
    ++ [ mkTransaction (mkDate 2023 10 1) (-50)%Q "Groceries" (PyStr "Weekly shop") (Some 3);
         mkTransaction (mkDate 2023 10 2) 1000%Q "Income" (PyStr "") (Some 4) ].
Proof.
  exact (proj2 (import_extends_account three_lines two_transactions
                  two_transactions_inv)).
Defined.

(** The outcome of a line, by cases on what [parse_csv_line] returns. *)
Lemma line_result_cases line :
  (forall t, line_result line = inr t <->
             exists d a c ds,
               parse_csv_line (str_of line) = inr (d, a, c, ds) /\ c <> "" /\
               t = mkTransaction d a c (PyStr ds) None) /\
  (forall d a ds,
      parse_csv_line (str_of line) = inr (d, a, "", ds) ->
      line_result line
      = inl (InvalidTransactionError "category must be a non-empty string")) /\
  (forall e, parse_csv_line (str_of line) = inl e -> line_result line = inl e).
Proof.
  unfold line_result. split; [|split].
  - intros t. destruct (parse_csv_line (str_of line)) as [e|[[[d a] c] ds]]; cbn [bind].
    + split; [discriminate|]. intros (? & ? & ? & ? & H & _). discriminate.
    + unfold Transaction_init. cbn. destruct c as [|x c]; cbn.
      * split; [discriminate|]. intros (? & ? & ? & ? & [= <- <- <- <-] & H & _).
        contradiction.
      * split.
        -- intros [= <-]. eexists _, _, _, _. split; [reflexivity|].
           split; [discriminate|reflexivity].
        -- intros (? & ? & ? & ? & [= <- <- <- <-] & _ & ->). reflexivity.
  - intros d a ds ->. reflexivity.
  - intros e ->. reflexivity.
Qed.

(** X20.  One turn of the import loop completes exactly when the line
    parses and its category, once trimmed, is not empty.  A line that
    parses with an empty category (white space between the commas) is
    reported with the message of the constructor, a line that does not
    parse with the message of [parse_csv_line]; in both cases the account
    is unchanged. *)
Theorem import_line_outcome line s :
  (snd (import_line line s) = inr tt <->
   exists d a c ds, parse_csv_line (str_of line) = inr (d, a, c, ds) /\ c <> "") /\
  (forall d a ds,
      parse_csv_line (str_of line) = inr (d, a, "", ds) ->
      import_line line s
      = (s, inl (InvalidTransactionError "category must be a non-empty string"))) /\
  (forall e, parse_csv_line (str_of line) = inl e -> import_line line s = (s, inl e)).
Proof.
  rewrite import_line_spec.
  destruct (line_result_cases line) as (Hok & Hempty & Herr).
  split; [|split].
  - destruct (line_result line) as [e|t] eqn:E; cbn [snd].
    + split; [discriminate|]. intros (d & a & c & ds & Hp & Hc).
      assert (H : inl e = inr (mkTransaction d a c (PyStr ds) None)
                  :> result Transaction).
      { apply Hok. exists d, a, c, ds. auto. }
      discriminate H.
    + split; [|reflexivity]. intros _.
      destruct (proj1 (Hok t) eq_refl) as (d & a & c & ds & Hp & Hc & _).
      exists d, a, c, ds. auto.
  - intros d a ds Hp. rewrite (Hempty d a ds Hp). reflexivity.
  - intros e Hp. rewrite (Herr e Hp). reflexivity.
Qed.

Lemma import_line_outcome_witness :
  import_line (text_of "2023-10-01,5, ,x") two_transactions
  = (two_transactions,
     inl (InvalidTransactionError "category must be a non-empty string")).
Proof.
  exact (proj1 (proj2 (import_line_outcome (text_of "2023-10-01,5, ,x")
                         two_transactions))
               (mkDate 2023 10 1) 5%Q "x" eq_refl).
Defined.

(** * The repository *)

Lemma remove_first_app_last r l : ~ In r l -> remove_first r (l ++ [r]) = l.
Proof.
  induction l as [|x l IH]; intros Hn; cbn.
  - rewrite Nat.eqb_refl. reflexivity.
  - destruct (Nat.eqb x r) eqn:E.
    + apply Nat.eqb_eq in E. subst x. exfalso. apply Hn. left. reflexivity.
    + f_equal. apply IH. intros H. apply Hn. right. exact H.
Qed.

(** X21.  [TransactionRepository.delete] never raises: it returns
    [True] exactly when a transaction with the id exists.  When it returns
    [False] nothing has changed; when it returns [True] the count has
    dropped by one, and neither the objects nor [next_id] have changed. *)
Theorem repository_delete s i :
  let s' := fst (TransactionRepository.delete i s) in
  snd (TransactionRepository.delete i s) = inr (TransactionRepository.exists_ s i) /\
  (TransactionRepository.exists_ s i = false -> s' = s) /\
  (TransactionRepository.exists_ s i = true ->
   (TransactionRepository.count s' + 1 = TransactionRepository.count s)%nat /\
   heap s' = heap s /\ next_id (acct s') = next_id (acct s)).
Proof.
  unfold TransactionRepository.delete, TransactionRepository.catch_invalid,
    TransactionRepository.exists_, TransactionRepository.find_by_id,
    TransactionRepository.count.
  destruct (get_transaction_by_id s i) as [r|] eqn:Hf.
  - rewrite (delete_transaction_found _ _ _ Hf). cbn [fst snd].
    split; [reflexivity|]. split; [discriminate|]. intros _.
    cbn [acct heap transactions next_id].
    split; [|split; reflexivity].
    apply remove_first_length, (found_in_list _ _ _ Hf).
  - assert (E : delete_transaction i s = (s, inl (not_found i))).
    { unfold delete_transaction. rewrite Hf. reflexivity. }
    rewrite E. cbn. split; [reflexivity|]. split; [reflexivity|discriminate].
Qed.

Lemma repository_delete_witness :
  (TransactionRepository.count (fst (TransactionRepository.delete 2 two_transactions)) + 1
   = TransactionRepository.count two_transactions)%nat.
Proof.
  exact (proj1 (proj2 (proj2 (repository_delete two_transactions 2)) eq_refl)).
Defined.

(** X22.  [TransactionRepository.update], called with keyword arguments
    among date, amount, category and description, never raises: it returns
    [True] exactly when the id exists and update_transaction accepts the
    values.  With an unknown id nothing changes.  [False] does not mean
    that nothing changed: when the id exists and the date is accepted but
    the amount or the category is not, the transaction has the new date. *)
Theorem repository_update s i date amount category description :
  let out := TransactionRepository.update i date amount category description s in
  snd out = inr (TransactionRepository.exists_ s i
                 && valid_update date amount category) /\
  (TransactionRepository.exists_ s i = false -> fst out = s) /\
  (forall r d, get_transaction_by_id s i = Some r -> date = PyDate d ->
               valid_update PyNone amount category = false ->
               snd out = inr false /\ t_date (deref (heap (fst out)) r) = d).
Proof.
  cbv zeta.
  unfold TransactionRepository.update, TransactionRepository.catch_invalid,
    TransactionRepository.exists_, TransactionRepository.find_by_id.
  destruct (get_transaction_by_id s i) as [r|] eqn:Hf.
  - split; [|split; [discriminate|]].
    + destruct (valid_update date amount category) eqn:Hv.
      * rewrite (update_transaction_found s i r) by assumption. reflexivity.
      * destruct (update_transaction_invalid s i r date amount category description
                    Hf Hv) as (msg & Hmsg).
        destruct (update_transaction i date amount category description s)
          as [s' [e|u]]; cbn [snd] in Hmsg; [|discriminate].
        injection Hmsg as ->. reflexivity.
    + intros r' d [= <-] -> Hv.
      pose proof (found_is_allocated _ _ _ Hf) as Hr.
      unfold update_transaction. rewrite Hf.
      unfold valid_update in Hv.
      destruct amount, category; cbn in Hv; try discriminate;
        try (match goal with x : string |- _ => destruct x; cbn in Hv; try discriminate end);
        cbv [cbind cwhen is_none negb as_date as_number as_str mutate craise cret
             str_truthy snd fst raise ret heap acct];
        (split; [reflexivity|]);
        repeat (rewrite deref_alter by (rewrite ?length_alter; exact Hr));
        reflexivity.
  - rewrite (update_transaction_not_found _ _ _ _ _ _ Hf). cbn.
    split; [reflexivity|]. split; [reflexivity|]. discriminate.
Qed.

Lemma repository_update_witness :
  snd (TransactionRepository.update 2 (PyDate (mkDate 2024 1 1)) (PyStr "ten")
         PyNone PyNone two_transactions) = inr false /\
  t_date (deref (heap (fst (TransactionRepository.update 2 (PyDate (mkDate 2024 1 1))
                              (PyStr "ten") PyNone PyNone two_transactions))) 1%nat)
  = mkDate 2024 1 1.
Proof.
  exact (proj2 (proj2 (repository_update two_transactions 2 (PyDate (mkDate 2024 1 1))
                         (PyStr "ten") PyNone PyNone))
               1%nat (mkDate 2024 1 1) eq_refl eq_refl eq_refl).
Defined.

(** X23.  [TransactionRepository.save] of an object that is not yet in
    the account returns that object, raises the count by one and makes it
    found under the former [next_id]; a [delete] of that id then returns
    [True] and restores the list of transactions and the balance, but not
    [next_id]: the id is not given again. *)
Theorem repository_save_delete s r t :
  ids_inv s -> heap s !! r = Some t -> ~ In r (transactions (acct s)) ->
  exists s1 s2,
    TransactionRepository.save r s = (s1, inr r) /\
    TransactionRepository.count s1 = S (TransactionRepository.count s) /\
    TransactionRepository.find_by_id s1 (next_id (acct s)) = Some r /\
    TransactionRepository.delete (next_id (acct s)) s1 = (s2, inr true) /\
    transactions (acct s2) = transactions (acct s) /\
    TransactionRepository.get_balance s2 = TransactionRepository.get_balance s /\
    next_id (acct s2) = next_id (acct s) + 1.
Proof.
  intros Hinv Ht Hnew.
  assert (Hr : (r < length (heap s))%nat) by (eapply lookup_lt_Some; eassumption).
  pose proof (find_just_added s r Hinv Hr) as Hfind.
  unfold TransactionRepository.save, cbind, cret.
  rewrite (add_transaction_ok _ _ _ Ht).
  eexists _, _. split; [reflexivity|].
  split; [unfold TransactionRepository.count; cbn; rewrite length_app; cbn; lia|].
  split; [exact Hfind|].
  unfold TransactionRepository.delete, TransactionRepository.catch_invalid.
  rewrite (delete_transaction_found _ _ _ Hfind). cbn [heap acct transactions next_id].
  rewrite (remove_first_app_last _ _ Hnew).
  split; [reflexivity|]. split; [reflexivity|]. split; [|reflexivity].
  unfold TransactionRepository.get_balance, get_balance. cbn [heap acct transactions].
  f_equal. apply map_ext_in. intros x Hx.
  destruct (Nat.eq_dec r x) as [<-|Hne]; [contradiction|].
  rewrite deref_alter_ne by exact Hne. reflexivity.
Qed.

Lemma repository_save_delete_witness :
  exists s1 s2,
    TransactionRepository.save 1%nat one_added_one_new = (s1, inr 1%nat) /\
    TransactionRepository.delete 2 s1 = (s2, inr true) /\
    transactions (acct s2) = [0%nat] /\ next_id (acct s2) = 3.
Proof.
  destruct (repository_save_delete one_added_one_new 1%nat
              (mkTransaction (mkDate 2023 10 2) (-50)%Q "Groceries" (PyStr "") None)
              one_added_one_new_inv eq_refl)
    as (s1 & s2 & H1 & _ & _ & H2 & H3 & _ & H4).
  - intros [H|[]]. discriminate H.
  - exists s1, s2. repeat split; assumption.
Defined.

(** * The groups of a match *)

Lemma run_sound_with {R} r : forall s caps (k : text -> captures -> option R) x,
  run r s caps k = Some x ->
  exists w s' caps', s = w ++ s' /\ matches_with r w caps caps' /\ k s' caps' = Some x.
Proof.
  induction r as [|p|r1 IH1 r2 IH2|r1 IH1 r2 IH2|r IH|p|name r IH];
    intros s caps k x; cbn.
  - intros H. exists [], s, caps. split; [reflexivity|]. split; [constructor|exact H].
  - destruct s as [|c s]; [discriminate|].
    destruct (p c) eqn:Hc; [|discriminate].
    intros H. exists [c], s, caps. split; [reflexivity|].
    split; [constructor; exact Hc|exact H].
  - intros H. apply IH1 in H as (w1 & s1 & c1 & -> & Hm1 & H).
    apply IH2 in H as (w2 & s2 & c2 & -> & Hm2 & H).
    exists (w1 ++ w2), s2, c2. rewrite <- app_assoc.
    split; [reflexivity|]. split; [econstructor; eassumption|exact H].
  - destruct (run r1 s caps k) as [y|] eqn:H1.
    + intros [= <-]. apply IH1 in H1 as (w & s' & c' & -> & Hm & H).
      exists w, s', c'. split; [reflexivity|]. split; [apply MW_alt_l, Hm|exact H].
    + intros H. apply IH2 in H as (w & s' & c' & -> & Hm & H).
      exists w, s', c'. split; [reflexivity|]. split; [apply MW_alt_r, Hm|exact H].
  - destruct (run r s caps k) as [y|] eqn:H1.
    + intros [= <-]. apply IH in H1 as (w & s' & c' & -> & Hm & H).
      exists w, s', c'. split; [reflexivity|]. split; [apply MW_opt_some, Hm|exact H].
    + intros H. exists [], s, caps. split; [reflexivity|].
      split; [apply MW_opt_none|exact H].
  - intros H. apply many_sound in H as (w & s' & -> & Hw & H).
    exists w, s', caps. split; [reflexivity|]. split; [constructor; exact Hw|exact H].
  - intros H. apply IH in H as (w & s' & c' & -> & Hm & H).
    rewrite length_app, Nat.add_sub, take_app_length in H.
    exists w, s', ((name, w) :: c'). split; [reflexivity|].
    split; [constructor; exact Hm|exact H].
Qed.

Lemma re_match_sound_with r s caps rest :
  re_match r s = Some (caps, rest) ->
  exists w, s = w ++ rest /\ matches_with r w [] caps.
Proof.
  unfold re_match. intros H.
  apply run_sound_with in H as (w & s' & c' & -> & Hm & [= <- <-]).
  exists w. split; [reflexivity|exact Hm].
Qed.

Lemma matches_with_matches r w c c' : matches_with r w c c' -> matches r w.
Proof. induction 1; econstructor; eassumption. Qed.

Lemma matches_with_group_free r w c c' :
  matches_with r w c c' -> group_free r = true -> c' = c.
Proof.
  induction 1; cbn; intros Hg; try reflexivity; try discriminate.
  - apply andb_true_iff in Hg as [H1 H2]. rewrite IHmatches_with2, IHmatches_with1; auto.
  - apply andb_true_iff in Hg as [H1 H2]. auto.
  - apply andb_true_iff in Hg as [H1 H2]. auto.
  - auto.
Qed.


Ltac inv_matches_with :=
  repeat match goal with
  | H : matches_with (Cat _ _) _ _ _ |- _ => inversion H; subst; clear H
  | H : matches_with (Grp _ _) _ _ _ |- _ => inversion H; subst; clear H
  | H : matches_with (Many _) _ _ _ |- _ => inversion H; subst; clear H
  | H : matches_with (Class _) _ _ _ |- _ => inversion H; subst; clear H
  | H : matches_with Eps _ _ _ |- _ => inversion H; subst; clear H
  | H : is_char _ _ = true |- _ => apply is_char_eq in H; subst
  end.

(** The pieces without group leave the captures as they are; what is left
    of them is their language. *)
Ltac forget_captures :=
  repeat match goal with
  | H : matches_with ?r _ ?c ?c' |- _ =>
    lazymatch r with
    | Opt _ => fail
    | _ => pose proof (matches_with_group_free _ _ _ _ H eq_refl); subst c';
           apply matches_with_matches in H
    end
  end.

(** A line that matches the pattern: the date group is its first field,
    the amount group its second field; the category group has no comma and
    the description group no line feed. *)
Lemma csv_pattern_groups line caps rest :
  re_match csv_pattern (text_of line) = Some (caps, rest) ->
  group caps "date" = Some (field 0 line) /\
  group caps "amount" = Some (field 1 line) /\
  (exists C, group caps "category" = Some C /\ forallb (not_char ",") C = true) /\
  (forall Dd, group caps "description" = Some Dd ->
              forallb (not_char "010") Dd = true).
Proof.
  intros H. apply re_match_sound_with in H as (w & Hline & Hm).
  unfold csv_pattern in Hm. cbn [Seq] in Hm. unfold Spaces, Lit in Hm.
  inv_matches_with. forget_captures.
  match goal with
  | Hd : matches date_regex ?D, Ha : matches amount_regex ?A,
    Hc : matches (Plus _) ?C |- _ =>
    apply date_regex_lang in Hd as (Hd1 & Hd2 & Hd3);
    apply amount_regex_lang in Ha as (Ha1 & Ha2 & Ha3);
    apply (matches_within (not_char ",")) in Hc; [|cbn; split; auto];
    assert (F : field 0 line = D /\ field 1 line = A)
  end.
  { repeat match goal with
    | H : forallb is_space ?ws = true |- _ =>
      pose proof (forallb_impl _ _ _ space_not_comma H); generalize dependent H
    end. intros.
    unfold field. rewrite Hline. cbn [app].
    match goal with
    | |- context [split_on _ ((?ws1 ++ ?D ++ ?ws2 ++ _ :: ?ws3 ++ ?A ++ ?ws4 ++ _ :: ?tl) ++ rest)] =>
      replace ((ws1 ++ D ++ ws2 ++ ","%char :: ws3 ++ A ++ ws4 ++ ","%char :: tl) ++ rest)
        with ((ws1 ++ D ++ ws2) ++ ","%char :: (ws3 ++ A ++ ws4) ++ ","%char :: (tl ++ rest))
        by (repeat (rewrite <- ?app_assoc, <- ?app_comm_cons); reflexivity);
      rewrite (split_on_app ","%char (ws1 ++ D ++ ws2))
        by (rewrite !forallb_app; repeat (apply andb_true_iff; split); assumption);
      rewrite (split_on_app ","%char (ws3 ++ A ++ ws4))
        by (rewrite !forallb_app; repeat (apply andb_true_iff; split); assumption)
    end.
    cbn [nth]. rewrite !strip_around by assumption. split; reflexivity. }
  destruct F as [-> ->].
  match goal with
  | Ho : matches_with (Opt _) _ _ _ |- _ => inversion Ho; subst; clear Ho
  end.
  - cbn. repeat split; [eexists; split; [reflexivity|assumption]|discriminate].
  - inv_matches_with. cbn.
    repeat split; [eexists; split; [reflexivity|assumption]|].
    intros Dd [= <-]. assumption.
Qed.

Lemma forallb_drop_while (p q : ascii -> bool) w :
  forallb p w = true -> forallb p (drop_while q w) = true.
Proof.
  induction w as [|c w IH]; cbn; [reflexivity|].
  rewrite andb_true_iff. intros [Hc Hw].
  destruct (q c); [apply IH, Hw|]. cbn. rewrite Hc, Hw. reflexivity.
Qed.

Lemma forallb_strip (p : ascii -> bool) w :
  forallb p w = true -> forallb p (strip w) = true.
Proof.
  intros H. unfold strip, rstrip, lstrip.
  rewrite forallb_rev. apply forallb_drop_while. rewrite forallb_rev.
  apply forallb_drop_while, H.
Qed.

Lemma date_new_inr y m dd d :
  date_new y m dd = inr d ->
  d = mkDate y m dd /\ 1 <= y <= 9999 /\ 1 <= m <= 12 /\ 1 <= dd <= days_in_month y m.
Proof.
  unfold date_new.
  destruct ((1 <=? y) && (y <=? 9999)) eqn:Hy; [|discriminate].
  destruct ((1 <=? m) && (m <=? 12)) eqn:Hm; [|discriminate].
  destruct ((1 <=? dd) && (dd <=? days_in_month y m)) eqn:Hd; [|discriminate].
  cbn. intros [= <-]. repeat split; lia.
Qed.

Lemma date_new_valid y m dd d : date_new y m dd = inr d -> valid_date d = true.
Proof.
  intros H. destruct (date_new_inr _ _ _ _ H) as (-> & _).
  unfold valid_date. cbn [year month day]. rewrite H. reflexivity.
Qed.

(** The classes of the directives of [strptime] hold no separator. *)
Lemma directive_classes sep f :
  In sep ["-"; "/"]%char -> In f [Dir_Y; Dir_m; Dir_d] ->
  classes_within (not_char sep) (fmt_item_regex f).
Proof.
  intros Hsep Hf. cbn in Hsep, Hf.
  destruct Hsep as [<-|[<-|[]]]; destruct Hf as [<-|[<-|[<-|[]]]];
    cbn; repeat split; intros c;
    destruct c as [[] [] [] [] [] [] [] []]; vm_compute; intros H;
    first [discriminate H | reflexivity].
Qed.

(** A date accepted by [strptime] with the ISO format is made of the
    three numbers between the hyphens, in the order year, month, day. *)
Lemma strptime_iso D d :
  strptime D fmt_iso = inr d ->
  exists y m dd, split_on "-" D = [y; m; dd] /\
                 date_new (py_int y) (py_int m) (py_int dd) = inr d.
Proof.
  unfold strptime.
  destruct (re_match (Seq (map fmt_item_regex fmt_iso)) D) as [[found rest]|] eqn:Hm;
    [|discriminate].
  destruct rest as [|x rest]; [|discriminate].
  apply re_match_sound_with in Hm as (w & HD & Hm). rewrite app_nil_r in HD. subst w.
  unfold fmt_iso in Hm. cbn [map Seq] in Hm.
  change (fmt_item_regex (Fmt_lit "-")) with (Class (is_char "-")) in Hm.
  inversion Hm as [| |? ? wY w1 ? c1 ? HY H1| | | | | |]; subst; clear Hm.
  inversion H1 as [| |? ? ws1 w2 ? c2 ? Hs1 H2| | | | | |]; subst; clear H1.
  inversion H2 as [| |? ? wm w3 ? c3 ? Hmo H3| | | | | |]; subst; clear H2.
  inversion H3 as [| |? ? ws2 wd ? c4 ? Hs2 Hd| | | | | |]; subst; clear H3.
  inversion Hs1; subst. inversion Hs2; subst.
  repeat match goal with
  | H : is_char _ _ = true |- _ => apply is_char_eq in H; subst
  end.
  pose proof (matches_within _ _ _ (directive_classes "-" Dir_Y ltac:(cbn; tauto)
                ltac:(cbn; tauto)) (matches_with_matches _ _ _ _ HY)) as HnY.
  pose proof (matches_within _ _ _ (directive_classes "-" Dir_m ltac:(cbn; tauto)
                ltac:(cbn; tauto)) (matches_with_matches _ _ _ _ Hmo)) as Hnm.
  pose proof (matches_within _ _ _ (directive_classes "-" Dir_d ltac:(cbn; tauto)
                ltac:(cbn; tauto)) (matches_with_matches _ _ _ _ Hd)) as Hnd.
  cbn [fmt_item_regex] in HY, Hmo, Hd.
  inversion HY as [| | | | | | | |? ? ? ? cY HY']; subst; clear HY.
  inversion Hmo as [| | | | | | | |? ? ? ? cm Hmo']; subst; clear Hmo.
  inversion Hd as [| | | | | | | |? ? ? ? cd Hd']; subst; clear Hd.
  pose proof (matches_with_group_free _ _ _ _ HY' eq_refl). subst.
  pose proof (matches_with_group_free _ _ _ _ Hmo' eq_refl). subst.
  pose proof (matches_with_group_free _ _ _ _ Hd' eq_refl). subst.
  cbn. intros Hnew. exists wY, wm, wd. split; [|exact Hnew].
  cbn [app]. rewrite (split_on_app _ wY) by exact HnY.
  rewrite (split_on_app _ wm) by exact Hnm.
  rewrite (split_on_none _ wd) by exact Hnd. reflexivity.
Qed.

(** With the format of the slashes the order is month, day, year. *)
Lemma strptime_us D d :
  strptime D fmt_us = inr d ->
  exists m dd y, split_on "/" D = [m; dd; y] /\
                 date_new (py_int y) (py_int m) (py_int dd) = inr d.
Proof.
  unfold strptime.
  destruct (re_match (Seq (map fmt_item_regex fmt_us)) D) as [[found rest]|] eqn:Hm;
    [|discriminate].
  destruct rest as [|x rest]; [|discriminate].
  apply re_match_sound_with in Hm as (w & HD & Hm). rewrite app_nil_r in HD. subst w.
  unfold fmt_us in Hm. cbn [map Seq] in Hm.
  change (fmt_item_regex (Fmt_lit "/")) with (Class (is_char "/")) in Hm.
  inversion Hm as [| |? ? wm w1 ? c1 ? Hmo H1| | | | | |]; subst; clear Hm.
  inversion H1 as [| |? ? ws1 w2 ? c2 ? Hs1 H2| | | | | |]; subst; clear H1.
  inversion H2 as [| |? ? wd w3 ? c3 ? Hd H3| | | | | |]; subst; clear H2.
  inversion H3 as [| |? ? ws2 wY ? c4 ? Hs2 HY| | | | | |]; subst; clear H3.
  inversion Hs1; subst. inversion Hs2; subst.
  repeat match goal with
  | H : is_char _ _ = true |- _ => apply is_char_eq in H; subst
  end.
  pose proof (matches_within _ _ _ (directive_classes "/" Dir_Y ltac:(cbn; tauto)
                ltac:(cbn; tauto)) (matches_with_matches _ _ _ _ HY)) as HnY.
  pose proof (matches_within _ _ _ (directive_classes "/" Dir_m ltac:(cbn; tauto)
                ltac:(cbn; tauto)) (matches_with_matches _ _ _ _ Hmo)) as Hnm.
  pose proof (matches_within _ _ _ (directive_classes "/" Dir_d ltac:(cbn; tauto)
                ltac:(cbn; tauto)) (matches_with_matches _ _ _ _ Hd)) as Hnd.
  cbn [fmt_item_regex] in HY, Hmo, Hd.
  inversion HY as [| | | | | | | |? ? ? ? cY HY']; subst; clear HY.
  inversion Hmo as [| | | | | | | |? ? ? ? cm Hmo']; subst; clear Hmo.
  inversion Hd as [| | | | | | | |? ? ? ? cd Hd']; subst; clear Hd.
  pose proof (matches_with_group_free _ _ _ _ Hmo' eq_refl). subst.
  pose proof (matches_with_group_free _ _ _ _ Hd' eq_refl). subst.
  pose proof (matches_with_group_free _ _ _ _ HY' eq_refl). subst.
  cbn. intros Hnew. exists wm, wd, wY. split; [|exact Hnew].
  cbn [app]. rewrite (split_on_app _ wm) by exact Hnm.
  rewrite (split_on_app _ wd) by exact Hnd.
  rewrite (split_on_none _ wY) by exact HnY. reflexivity.
Qed.

(** The outcome of [parse_csv_line] on a line that matches, in terms of
    the fields of the line. *)
Lemma parse_csv_line_inr line d a c ds :
  parse_csv_line line = inr (d, a, c, ds) ->
  strptime (field 0 line) (format_of (field 0 line)) = inr d /\
  forallb (not_char ",") (text_of c) = true /\
  forallb (not_char "010") (text_of ds) = true.
Proof.
  unfold parse_csv_line.
  destruct (re_match csv_pattern (text_of line)) as [[m rest]|] eqn:Hm; [|discriminate].
  destruct (csv_pattern_groups _ _ _ Hm) as (Hd & Ha & (C & HC & HnC) & Hds).
  rewrite Hd, Ha, HC. cbn [default from_option id]. unfold format_of.
  destruct (if existsb (is_char "/") (field 0 line)
            then strptime (field 0 line) fmt_us
            else strptime (field 0 line) fmt_iso) as [e|d'] eqn:Hp;
    [cbn [bind]; discriminate|].
  cbn [bind ret]. intros [= <- <- <- <-].
  split; [|split].
  - destruct (existsb (is_char "/") (field 0 line)); exact Hp.
  - unfold text_of, str_of. rewrite list_ascii_of_string_of_list_ascii.
    apply forallb_strip, HnC.
  - destruct (group m "description") as [Dd|] eqn:HD; [|reflexivity].
    unfold text_of, str_of. rewrite list_ascii_of_string_of_list_ascii.
    apply Hds. reflexivity.
Qed.

(** X24.  In every result of [parse_csv_line] the date is a date of the
    calendar whose year, month and day are the numbers written in the
    first comma-separated field of the line: in the order year-month-day
    between hyphens, in the order month/day/year between slashes.  The
    category holds no comma and the description no line feed. *)
Theorem parse_csv_line_fields line d a c ds :
  parse_csv_line line = inr (d, a, c, ds) ->
  valid_date d = true /\
  ((exists y m dd, split_on "-" (field 0 line) = [y; m; dd] /\
                   d = mkDate (py_int y) (py_int m) (py_int dd)) \/
   (exists m dd y, split_on "/" (field 0 line) = [m; dd; y] /\
                   d = mkDate (py_int y) (py_int m) (py_int dd))) /\
  forallb (not_char ",") (text_of c) = true /\
  forallb (not_char "010") (text_of ds) = true.
Proof.
  intros H. apply parse_csv_line_inr in H as (H & Hc & Hds).
  cut (valid_date d = true /\
       ((exists y m dd, split_on "-" (field 0 line) = [y; m; dd] /\
                        d = mkDate (py_int y) (py_int m) (py_int dd)) \/
        (exists m dd y, split_on "/" (field 0 line) = [m; dd; y] /\
                        d = mkDate (py_int y) (py_int m) (py_int dd)))).
  { intros [H1 H2]. auto. }
  clear Hc Hds.
  unfold format_of in H.
  destruct (existsb (is_char "/") (field 0 line)).
  - apply strptime_us in H as (m & dd & y & Hs & Hn).
    split; [eapply date_new_valid, Hn|]. right. exists m, dd, y.
    split; [exact Hs|]. apply (date_new_inr _ _ _ _ Hn).
  - apply strptime_iso in H as (y & m & dd & Hs & Hn).
    split; [eapply date_new_valid, Hn|]. left. exists y, m, dd.
    split; [exact Hs|]. apply (date_new_inr _ _ _ _ Hn).
Qed.

Lemma parse_csv_line_fields_witness :
  valid_date (mkDate 2023 3 4) = true /\
  ((exists y m dd, split_on "-" (field 0 " 03/04/2023 , -50.00 ,Food,Lunch") = [y; m; dd] /\
                   mkDate 2023 3 4 = mkDate (py_int y) (py_int m) (py_int dd)) \/
   (exists m dd y, split_on "/" (field 0 " 03/04/2023 , -50.00 ,Food,Lunch") = [m; dd; y] /\
                   mkDate 2023 3 4 = mkDate (py_int y) (py_int m) (py_int dd))) /\
  forallb (not_char ",") (text_of "Food") = true /\
  forallb (not_char "010") (text_of "Lunch") = true.
Proof.
  exact (parse_csv_line_fields " 03/04/2023 , -50.00 ,Food,Lunch"
                               (mkDate 2023 3 4) (-50)%Q "Food" "Lunch" eq_refl).
Defined.


(** * The greedy choices of the matcher *)

Lemma run_csv_pattern {R} s c (k : text -> captures -> option R) :
  run csv_pattern s c k = run csv_head s c (fun s' c' => run csv_tail s' c' k).
Proof. reflexivity. Qed.

Lemma take_drop_while p s : take_while p s ++ drop_while p s = s.
Proof.
  induction s as [|c s IH]; cbn; [reflexivity|].
  destruct (p c); cbn; [rewrite IH|]; reflexivity.
Qed.

Lemma forallb_take_while p s : forallb p (take_while p s) = true.
Proof.
  induction s as [|c s IH]; cbn; [reflexivity|].
  destruct (p c) eqn:E; cbn; [rewrite E, IH|]; reflexivity.
Qed.

Lemma drop_while_stops p s : stops p (drop_while p s).
Proof.
  induction s as [|c s IH]; cbn; [exact I|].
  destruct (p c) eqn:E; [exact IH|exact E].
Qed.

Lemma stops_drop_while p u : stops p u -> drop_while p u = u.
Proof. destruct u as [|y u]; cbn; [reflexivity|]. intros ->. reflexivity. Qed.

Lemma stops_take_while p u : stops p u -> take_while p u = [].
Proof. destruct u as [|y u]; cbn; [reflexivity|]. intros ->. reflexivity. Qed.

Lemma take_while_app p u v :
  forallb p u = true -> take_while p (u ++ v) = u ++ take_while p v.
Proof.
  induction u as [|c u IH]; cbn; [reflexivity|].
  rewrite andb_true_iff. intros [-> Hu]. rewrite (IH Hu). reflexivity.
Qed.

Lemma take_prefix (w s : text) : take (length (w ++ s) - length s) (w ++ s) = w.
Proof. rewrite length_app, Nat.add_sub. apply take_app_length. Qed.

Lemma run_Cat {R} r1 r2 s c (k : text -> captures -> option R) :
  run (Cat r1 r2) s c k = run r1 s c (fun s1 c1 => run r2 s1 c1 k).
Proof. reflexivity. Qed.

Lemma take_before_drop p s :
  take (length s - length (drop_while p s)) s = take_while p s.
Proof.
  pose proof (take_prefix (take_while p s) (drop_while p s)) as H.
  rewrite take_drop_while in H. exact H.
Qed.

(** A greedy repetition whose continuation succeeds at the longest run
    returns what the continuation returns there. *)
Lemma many_greedy {R} p s (k : text -> option R) x :
  k (drop_while p s) = Some x -> many p s k = Some x.
Proof.
  induction s as [|c s IH]; cbn; [auto|].
  destruct (p c); [|auto]. intros H. rewrite (IH H). reflexivity.
Qed.

Lemma many_stops {R} p u (k : text -> option R) : stops p u -> many p u k = k u.
Proof. destruct u as [|y u]; cbn; [reflexivity|]. intros ->. reflexivity. Qed.

(** When the continuation fails at the longest run and succeeds one
    character before, the repetition gives that character back. *)
Lemma many_backtrack {R} p P z u (k : text -> option R) x :
  forallb p P = true -> p z = true -> stops p u ->
  k u = None -> k (z :: u) = Some x ->
  many p (P ++ z :: u) k = Some x.
Proof.
  intros HP Hz Hu Hn Hs.
  assert (E : many p (z :: u) k = Some x).
  { cbn. rewrite Hz, (many_stops _ _ _ Hu), Hn. exact Hs. }
  induction P as [|c P IH]; [exact E|].
  cbn in HP |- *. apply andb_true_iff in HP as [-> HP]. rewrite (IH HP). reflexivity.
Qed.

Lemma stops_comma u :
  stops (not_char ",") u -> u = [] \/ exists v, u = ","%char :: v.
Proof.
  destruct u as [|y v]; [left; reflexivity|]. cbn. unfold not_char. intros H.
  apply negb_false_iff, Ascii.eqb_eq in H. subst y. right. exists v. reflexivity.
Qed.

(** The end of the pattern, after the category: the optional group is
    taken when a comma follows, and the description then is the rest of
    the text without the white space in front, up to a line feed. *)
Lemma run_after_category u caps :
  stops (not_char ",") u ->
  run (Cat Spaces
           (Opt (Seq [Lit ","; Spaces; Grp "description" (Many (not_char "010"))])))
      u caps (fun s' c => Some (c, s'))
  = Some (match u with
          | [] => (caps, [])
          | _ :: v => (("description", take_while (not_char "010") (lstrip v)) :: caps,
                       drop_while (not_char "010") (lstrip v))
          end).
Proof.
  intros Hu. destruct (stops_comma u Hu) as [->|(v & ->)]; [reflexivity|].
  cbn [Seq]. unfold Spaces, Lit. cbn [run].
  rewrite many_stops by reflexivity.
  change (is_char "," ","%char) with true. cbv iota.
  rewrite (many_greedy is_space v _
             (("description", take_while (not_char "010") (lstrip v)) :: caps,
              drop_while (not_char "010") (lstrip v))); [reflexivity|].
  apply many_greedy. fold (lstrip v). rewrite take_before_drop. reflexivity.
Qed.

(** The category group takes every character up to the next comma. *)
Lemma run_category {R} C u c (K : text -> captures -> option R) x :
  C <> [] -> forallb (not_char ",") C = true -> stops (not_char ",") u ->
  K u (("category", C) :: c) = Some x ->
  run (Grp "category" (Plus (not_char ","))) (C ++ u) c K = Some x.
Proof.
  intros Hne HC Hu HK. destruct C as [|a C]; [contradiction|].
  cbn in HC. apply andb_true_iff in HC as [Ha HC].
  unfold Plus. cbn [run app]. rewrite Ha. apply many_greedy.
  rewrite (drop_while_all _ _ _ HC), (stops_drop_while _ _ Hu).
  change (a :: C ++ u) with ((a :: C) ++ u). rewrite take_prefix. exact HK.
Qed.

Lemma run_category_none {R} u c (K : text -> captures -> option R) :
  stops (not_char ",") u ->
  run (Grp "category" (Plus (not_char ","))) u c K = None.
Proof.
  intros Hu. destruct (stops_comma u Hu) as [->|(v & ->)]; reflexivity.
Qed.

Lemma strip_spaces ws : forallb is_space ws = true -> strip ws = [].
Proof.
  intros H. unfold strip, lstrip, rstrip. rewrite (drop_while_all_nil _ _ H).
  reflexivity.
Qed.

Lemma strip_lead ws w : forallb is_space ws = true -> strip (ws ++ w) = strip w.
Proof.
  intros H. unfold strip, lstrip. rewrite (drop_while_all _ _ _ H). reflexivity.
Qed.

Lemma last_split (l : text) : l = [] \/ exists P z, l = P ++ [z].
Proof.
  destruct l as [|c l]; [left; reflexivity|]. right.
  destruct (exists_last (l := c :: l)) as (P & z & E); [discriminate|].
  exists P, z. exact E.
Qed.

(** The groups that the end of the pattern adds: the category group,
    trimmed, is the text up to the next comma, trimmed; the description is
    the text after that comma. *)
Lemma csv_tail_groups s' c0 caps rest :
  group c0 "description" = None ->
  run csv_tail s' c0 (fun s c => Some (c, s)) = Some (caps, rest) ->
  exists C,
    group caps "category" = Some C /\
    strip C = strip (take_while (not_char ",") s') /\
    match group caps "description" with Some d => d | None => [] end
    = match after_comma s' with
      | Some v => take_while (not_char "010") (lstrip v)
      | None => []
      end.
Proof.
  intros Hc0.
  pose proof (take_drop_while is_space s') as Es.
  pose proof (forallb_take_while is_space s') as Hws.
  pose proof (drop_while_stops is_space s') as Ht.
  set (ws := take_while is_space s') in *. set (t := drop_while is_space s') in *.
  pose proof (take_drop_while (not_char ",") t) as Et.
  pose proof (forallb_take_while (not_char ",") t) as HC.
  pose proof (drop_while_stops (not_char ",") t) as Hu.
  set (C := take_while (not_char ",") t) in *.
  set (u := drop_while (not_char ",") t) in *.
  pose proof (forallb_impl _ _ _ space_not_comma Hws) as Hwsc.
  assert (Etake : take_while (not_char ",") s' = ws ++ C).
  { rewrite <- Es, <- Et. rewrite (take_while_app _ _ _ Hwsc).
    rewrite (take_while_app _ _ _ HC), (stops_take_while _ _ Hu), app_nil_r.
    reflexivity. }
  assert (Eafter : after_comma s' = match u with [] => None | _ :: v => Some v end).
  { unfold after_comma. rewrite <- Es, <- Et.
    rewrite (drop_while_all _ _ _ Hwsc), (drop_while_all _ _ _ HC).
    rewrite (stops_drop_while _ _ Hu). reflexivity. }
  unfold csv_tail. cbn [Seq]. unfold Spaces at 1.
  change (run (Cat (Many is_space) ?r) s' c0 ?k)
    with (many is_space s' (fun s1 => run r s1 c0 k)).
  cbn beta.
  set (K := fun s1 : text =>
              run (Cat (Grp "category" (Plus (not_char ","))) _) s1 c0 _).
  assert (EK : forall C1 x, C1 <> [] -> forallb (not_char ",") C1 = true ->
                 x = match u with
                     | [] => (("category", C1) :: c0, [])
                     | _ :: v =>
                       (("description", take_while (not_char "010") (lstrip v))
                          :: ("category", C1) :: c0,
                        drop_while (not_char "010") (lstrip v))
                     end ->
                 K (C1 ++ u) = Some x).
  { intros C1 x Hne HC1 ->. unfold K. rewrite run_Cat.
    apply run_category; [exact Hne|exact HC1|exact Hu|].
    exact (run_after_category u _ Hu). }
  assert (Hfin : forall C1, strip C1 = strip (ws ++ C) ->
            Some (match u with
                  | [] => (("category", C1) :: c0, [])
                  | _ :: v =>
                    (("description", take_while (not_char "010") (lstrip v))
                       :: ("category", C1) :: c0,
                     drop_while (not_char "010") (lstrip v))
                  end) = Some (caps, rest) ->
            exists C0,
              group caps "category" = Some C0 /\
              strip C0 = strip (take_while (not_char ",") s') /\
              match group caps "description" with Some d => d | None => [] end
              = match after_comma s' with
                | Some v => take_while (not_char "010") (lstrip v)
                | None => []
                end).
  { intros C1 HC1 E. rewrite Etake, Eafter. exists C1.
    destruct u as [|y v]; injection E as <- <-; cbn [group String.eqb Ascii.eqb Bool.eqb];
      cbn; rewrite ?Hc0; auto. }
  destruct C as [|a C'] eqn:EC.
  - (* no character of the category after the white space *)
    cbn [app] in Et. destruct (last_split ws) as [Ews|(P & z & Ews)].
    + assert (Erun : many is_space s' K = None).
      { rewrite <- Es, Ews. cbn [app]. rewrite (many_stops _ _ _ Ht).
        unfold K. rewrite run_Cat, <- Et. apply run_category_none, Hu. }
      intros Hrun. rewrite Erun in Hrun. discriminate.
    + rewrite Ews, forallb_app in Hws.
      apply andb_true_iff in Hws as [HP Hz]. cbn in Hz. rewrite andb_true_r in Hz.
      assert (Erun : many is_space s' K
                     = Some (match u with
                             | [] => (("category", [z]) :: c0, [])
                             | _ :: v =>
                               (("description", take_while (not_char "010") (lstrip v))
                                  :: ("category", [z]) :: c0,
                                drop_while (not_char "010") (lstrip v))
                             end)).
      { rewrite <- Es, Ews, <- app_assoc. cbn [app].
        apply (many_backtrack is_space P z t K _ HP Hz Ht).
        - unfold K. rewrite run_Cat, <- Et. apply run_category_none, Hu.
        - rewrite <- Et. apply (EK [z]); [discriminate| |reflexivity].
          cbn. rewrite (space_not_comma _ Hz). reflexivity. }
      intros Hrun. rewrite Erun in Hrun. refine (Hfin [z] _ Hrun).
      rewrite app_nil_r, Ews.
      rewrite !strip_spaces; [reflexivity| |].
      * rewrite forallb_app, HP. cbn. rewrite Hz. reflexivity.
      * cbn. rewrite Hz. reflexivity.
  - assert (Erun : many is_space s' K
                   = Some (match u with
                           | [] => (("category", a :: C') :: c0, [])
                           | _ :: v =>
                             (("description", take_while (not_char "010") (lstrip v))
                                :: ("category", a :: C') :: c0,
                              drop_while (not_char "010") (lstrip v))
                           end)).
    { apply many_greedy. fold t. rewrite <- Et.
      apply EK; [discriminate|exact HC|reflexivity]. }
    intros Hrun. rewrite Erun in Hrun. refine (Hfin (a :: C') _ Hrun).
    rewrite (strip_lead _ _ Hws). reflexivity.
Qed.


(** The beginning of the pattern, up to the second comma, matches a text
    with two commas, the first two fields of the line. *)
Lemma csv_head_sound {R} s (K : text -> captures -> option R) x :
  run csv_head s [] K = Some x ->
  exists P0 P1 s' c0,
    s = P0 ++ ","%char :: P1 ++ ","%char :: s' /\
    forallb (not_char ",") P0 = true /\ forallb (not_char ",") P1 = true /\
    group c0 "description" = None /\ K s' c0 = Some x.
Proof.
  intros H. apply run_sound_with in H as (w & s' & c0 & -> & Hm & HK).
  unfold csv_head in Hm. cbn [Seq] in Hm. unfold Spaces, Lit in Hm.
  inv_matches_with. forget_captures.
  match goal with
  | Hd : matches date_regex ?D, Ha : matches amount_regex ?A |- _ =>
    apply date_regex_lang in Hd as (_ & Hd2 & _);
    apply amount_regex_lang in Ha as (_ & Ha2 & _)
  end.
  repeat match goal with
  | H : forallb is_space ?ws = true |- _ =>
    pose proof (forallb_impl _ _ _ space_not_comma H); generalize dependent H
  end. intros. cbn [app].
  match goal with
  | |- context [(?ws1 ++ ?D ++ ?ws2 ++ _ :: ?ws3 ++ ?A ++ ?ws4 ++ [_]) ++ s'] =>
    exists (ws1 ++ D ++ ws2), (ws3 ++ A ++ ws4), s'
  end.
  eexists. split; [|split; [|split; [|split; [|exact HK]]]].
  - repeat (rewrite <- ?app_assoc, <- ?app_comm_cons). reflexivity.
  - rewrite !forallb_app; repeat (apply andb_true_iff; split); assumption.
  - rewrite !forallb_app; repeat (apply andb_true_iff; split); assumption.
  - reflexivity.
Qed.

Lemma split_on_head sep s :
  nth 0 (split_on sep s) [] = take_while (not_char sep) s.
Proof.
  induction s as [|c s IH]; [reflexivity|].
  cbn [split_on take_while]. unfold not_char at 1.
  destruct (Ascii.eqb c sep); cbn [negb]; [reflexivity|].
  destruct (split_on sep s) as [|h t]; cbn [nth] in IH |- *; rewrite <- IH; reflexivity.
Qed.

Lemma after_comma_app P v :
  forallb (not_char ",") P = true -> after_comma (P ++ ","%char :: v) = Some v.
Proof.
  intros H. unfold after_comma. rewrite (drop_while_all _ _ _ H). reflexivity.
Qed.

(** The groups of a match, in terms of the fields of the line *)
Lemma csv_groups_fields line m rest :
  re_match csv_pattern (text_of line) = Some (m, rest) ->
  exists C,
    group m "date" = Some (field 0 line) /\ group m "amount" = Some (field 1 line) /\
    group m "category" = Some C /\ strip C = field 2 line /\
    match group m "description" with Some d => d | None => [] end
    = description_field line.
Proof.
  intros Hm. destruct (csv_pattern_groups _ _ _ Hm) as (Hd & Ha & _).
  unfold re_match in Hm. rewrite run_csv_pattern in Hm.
  apply csv_head_sound in Hm as (P0 & P1 & s' & c0 & Hline & H0 & H1 & Hc0 & Hm).
  apply (csv_tail_groups _ _ _ _ Hc0) in Hm as (C & HC & HsC & Hdesc).
  exists C. split; [exact Hd|]. split; [exact Ha|]. split; [exact HC|]. split.
  - unfold field. rewrite Hline.
    rewrite (split_on_app _ _ _ H0), (split_on_app _ _ _ H1). cbn [nth].
    rewrite split_on_head, HsC. reflexivity.
  - unfold description_field. rewrite Hline.
    rewrite (after_comma_app _ _ H0), (after_comma_app _ _ H1), <- Hdesc.
    reflexivity.
Qed.

(** [parse_csv_line] on a line that matches the pattern *)
Lemma parse_csv_line_matched line m rest :
  re_match csv_pattern (text_of line) = Some (m, rest) ->
  parse_csv_line line
  = let* d := strptime (field 0 line) (format_of (field 0 line)) in
    ret (d, py_float (field 1 line), str_of (field 2 line),
         str_of (description_field line)).
Proof.
  intros Hm. unfold parse_csv_line. rewrite Hm.
  destruct (csv_groups_fields _ _ _ Hm) as (C & Hd & Ha & HC & HsC & Hdesc).
  rewrite Hd, Ha, HC. cbn [default from_option id]. unfold format_of.
  rewrite HsC, <- Hdesc.
  destruct (existsb (is_char "/") (field 0 line)), (group m "description");
    reflexivity.
Qed.

(** X25.  In every result of [parse_csv_line] the category is the third
    comma-separated field of the line, without the white space around
    it, and the description is the text after the third comma, without the
    white space in front of it, up to the first line feed (with its commas
    and the white space at its end); it is empty when there is no third
    comma. *)
Theorem parse_csv_line_category_description line d a c ds :
  parse_csv_line line = inr (d, a, c, ds) ->
  c = str_of (field 2 line) /\ ds = str_of (description_field line).
Proof.
  intros H.
  destruct (re_match csv_pattern (text_of line)) as [[m rest]|] eqn:Hm.
  - rewrite (parse_csv_line_matched _ _ _ Hm) in H.
    destruct (strptime (field 0 line) (format_of (field 0 line))) as [e|d'];
      [discriminate H|].
    cbn [bind ret] in H. injection H as _ _ <- <-. split; reflexivity.
  - rewrite (parse_csv_line_no_match _ Hm) in H. discriminate H.
Qed.

Lemma parse_csv_line_category_description_witness :
  "Eating out" = str_of (field 2 "2023-10-01, 5 ,  Eating out  ,  a, b  ") /\
  "a, b  " = str_of (description_field "2023-10-01, 5 ,  Eating out  ,  a, b  ").
Proof.
  exact (parse_csv_line_category_description
           "2023-10-01, 5 ,  Eating out  ,  a, b  "
           (mkDate 2023 10 1) 5%Q "Eating out" "a, b  " eq_refl).
Defined.


(** * Completeness of the matcher *)

Lemma many_complete {R} p w rest (k : text -> option R) :
  forallb p w = true -> is_Some (k rest) -> is_Some (many p (w ++ rest) k).
Proof.
  intros Hw Hk. induction w as [|c w IH]; cbn [app].
  - destruct rest as [|c rest]; cbn; [exact Hk|].
    destruct (p c); [|exact Hk]. destruct (many p rest k); [eauto|exact Hk].
  - cbn in Hw |- *. apply andb_true_iff in Hw as [-> Hw].
    destruct (IH Hw) as [x ->]. eauto.
Qed.

(** When a prefix of the text is in the language of the expression and
    the continuation accepts what follows, the matcher finds a match (the
    one it finds may be another one). *)
Lemma run_complete {R} r w c c' :
  matches_with r w c c' ->
  forall rest (k : text -> captures -> option R),
    is_Some (k rest c') -> is_Some (run r (w ++ rest) c k).
Proof.
  induction 1 as [c|p a c Ha|r1 r2 w1 w2 c c1 c2 _ IH1 _ IH2|r1 r2 w c c' _ IH
                  |r1 r2 w c c' _ IH|r c|r w c c' _ IH|p w c Hw|name r w c c' _ IH];
    intros rest k Hk; cbn [run app].
  - exact Hk.
  - rewrite Ha. exact Hk.
  - rewrite <- app_assoc. apply IH1, IH2, Hk.
  - destruct (IH rest k Hk) as [x ->]. eauto.
  - destruct (run r1 (w ++ rest) c k); [eauto|]. apply IH, Hk.
  - destruct (run r rest c k); [eauto|exact Hk].
  - destruct (IH rest k Hk) as [x ->]. eauto.
  - apply many_complete; assumption.
  - apply IH. rewrite take_prefix. exact Hk.
Qed.

Lemma matches_to_with r w :
  matches r w -> group_free r = true -> forall c, matches_with r w c c.
Proof.
  induction 1; cbn; intros Hg c0; try discriminate;
    try (apply andb_true_iff in Hg as [Hg1 Hg2]); try (econstructor; eauto; fail).
Qed.

(** ** From the shape of a field to the language of its group *)

Lemma split_on_cons sep s h t :
  split_on sep s = h :: t ->
  forallb (not_char sep) h = true /\
  ((t = [] /\ s = h) \/ (exists v, s = h ++ sep :: v /\ split_on sep v = t)).
Proof.
  revert h t. induction s as [|c s IH]; intros h t; cbn [split_on].
  - intros [= <- <-]. split; [reflexivity|]. left. split; reflexivity.
  - destruct (Ascii.eqb c sep) eqn:E.
    + apply Ascii.eqb_eq in E. subst c. intros [= <- <-]. split; [reflexivity|].
      right. exists s. split; reflexivity.
    + destruct (split_on sep s) as [|h' t'] eqn:Es.
      * intros [= <- <-]. destruct s as [|c' s]; [|cbn in Es;
          destruct (Ascii.eqb c' sep); [discriminate|];
          destruct (split_on sep s); discriminate].
        cbn. unfold not_char. rewrite E. split; [reflexivity|]. left. split; reflexivity.
      * intros [= <- <-]. destruct (IH h' t' eq_refl) as (Hh & Hs).
        split; [cbn; unfold not_char at 1; rewrite E; exact Hh|].
        destruct Hs as [(-> & ->)|(v & -> & Hv)].
        -- left. split; reflexivity.
        -- right. exists v. split; [reflexivity|exact Hv].
Qed.

Lemma split_on_three sep s a b c :
  split_on sep s = [a; b; c] -> s = a ++ sep :: b ++ sep :: c.
Proof.
  intros H. apply split_on_cons in H as (_ & [(H & _)|(v & -> & H)]); [discriminate|].
  apply split_on_cons in H as (_ & [(H & _)|(v' & -> & H)]); [discriminate|].
  apply split_on_cons in H as (_ & [(_ & ->)|(v'' & _ & H)]); [reflexivity|].
  destruct v''; cbn in H; [discriminate|].
  destruct (Ascii.eqb _ _); [discriminate|]. destruct (split_on sep v''); discriminate.
Qed.

Lemma digits_cases lo hi w :
  digits lo hi w = true ->
  forallb is_digit w = true /\ (lo <= length w <= hi)%nat.
Proof.
  unfold digits. rewrite !andb_true_iff, !Nat.leb_le. tauto.
Qed.

Ltac explicit_digits :=
  repeat match goal with
  | H : digits _ _ ?w = true |- _ =>
    let Hl := fresh "Hl" in
    apply digits_cases in H; destruct H as [H Hl];
    repeat (destruct w as [|? w]; cbn [length] in Hl; try lia);
    clear Hl
  end;
  repeat match goal with
  | H : forallb is_digit (_ :: _) = true |- _ => cbn [forallb] in H
  end;
  repeat match goal with
  | H : _ && _ = true |- _ => apply andb_true_iff in H; destruct H as [? ?]
  end.

Ltac build_match :=
  repeat first
    [ apply M_class; assumption
    | apply M_class; reflexivity
    | match goal with
      | |- matches (Cat _ _) (?a :: ?w) => apply (M_cat _ _ [a] w)
      end ].

Lemma one_or_two_digits w : digits 1 2 w = true -> matches (OneOrTwo Digit) w.
Proof.
  intros Hw. unfold OneOrTwo, Digit. explicit_digits.
  - apply (M_cat _ _ [_] []); [build_match|apply M_opt_none].
  - apply (M_cat _ _ [_] [_]); [build_match|apply M_opt_some; build_match].
Qed.

Lemma date_shape_matches D : date_shape D = true -> matches date_regex D.
Proof.
  unfold date_shape. intros H. apply orb_true_iff in H as [H|H].
  - unfold iso_shape in H.
    destruct (split_on "-" D) as [|y [|m [|dd [|? ?]]]] eqn:E; try discriminate.
    apply split_on_three in E. subst D.
    apply andb_true_iff in H as [H Hd]. apply andb_true_iff in H as [Hy Hm].
    explicit_digits. apply M_alt_l. cbn [Seq Times app]. unfold Lit, Digit.
    match goal with
    | |- matches _ (?a :: ?b :: ?c :: ?d :: ?w) => apply (M_cat _ _ [a; b; c; d] w)
    end; [build_match|].
    match goal with
    | |- matches _ (?s :: ?a :: ?b :: ?w) =>
      apply (M_cat _ _ [s] (a :: b :: w)); [build_match|];
      apply (M_cat _ _ [a; b] w); [build_match|]
    end.
    build_match.
  - unfold us_shape in H.
    destruct (split_on "/" D) as [|m [|dd [|y [|? ?]]]] eqn:E; try discriminate.
    apply split_on_three in E. subst D.
    apply andb_true_iff in H as [H Hy]. apply andb_true_iff in H as [Hm Hd].
    apply M_alt_r. cbn [Seq Times]. unfold Lit.
    apply M_cat; [apply one_or_two_digits, Hm|].
    apply (M_cat _ _ [_] _); [apply M_class; reflexivity|].
    apply M_cat; [apply one_or_two_digits, Hd|].
    apply (M_cat _ _ [_] _); [apply M_class; reflexivity|].
    clear Hm Hd. explicit_digits. unfold Digit. build_match.
Qed.

Lemma nonempty_digits_cases w :
  nonempty_digits w = true ->
  exists d ds, w = d :: ds /\ is_digit d = true /\ forallb is_digit ds = true.
Proof.
  unfold nonempty_digits. rewrite andb_true_iff, Nat.leb_le.
  destruct w as [|d ds]; cbn; [lia|]. rewrite andb_true_iff. intros [[H1 H2] _].
  exists d, ds. auto.
Qed.

Lemma plus_digits w : nonempty_digits w = true -> matches (Plus is_digit) w.
Proof.
  intros H. apply nonempty_digits_cases in H as (d & ds & -> & Hd & Hds).
  apply (M_cat _ _ [d] ds); [apply M_class, Hd|apply M_many, Hds].
Qed.

Lemma unsigned_amount_matches w :
  match split_on "." w with
  | [ip] => nonempty_digits ip
  | [ip; fp] => nonempty_digits ip && nonempty_digits fp
  | _ => false
  end = true ->
  matches (Cat (Plus is_digit) (Opt (Cat (Lit ".") (Plus is_digit)))) w.
Proof.
  destruct (split_on "." w) as [|ip [|fp [|? ?]]] eqn:E; try discriminate.
  - intros H. apply split_on_cons in E as (_ & [(_ & ->)|(v & _ & E)]).
    + rewrite <- (app_nil_r ip). apply M_cat; [apply plus_digits, H|apply M_opt_none].
    + destruct v; cbn in E; [discriminate|].
      destruct (Ascii.eqb _ _); [discriminate|]. destruct (split_on "." v); discriminate.
  - intros H. apply andb_true_iff in H as [Hi Hf].
    apply split_on_cons in E as (_ & [(E & _)|(v & -> & E)]); [discriminate|].
    apply split_on_cons in E as (_ & [(_ & ->)|(v' & _ & E)]).
    + apply M_cat; [apply plus_digits, Hi|]. apply M_opt_some.
      apply (M_cat _ _ [_] _); [apply M_class; reflexivity|apply plus_digits, Hf].
    + destruct v'; cbn in E; [discriminate|].
      destruct (Ascii.eqb _ _); [discriminate|]. destruct (split_on "." v'); discriminate.
Qed.

Lemma amount_shape_matches A : amount_shape A = true -> matches amount_regex A.
Proof.
  unfold amount_shape, amount_regex. cbn [Seq].
  destruct A as [|c r].
  - cbn. discriminate.
  - destruct (Ascii.eqb c "-") eqn:E.
    + apply Ascii.eqb_eq in E. subst c. intros H.
      apply (M_cat _ _ [_] _); [apply M_opt_some, M_class; reflexivity|].
      apply unsigned_amount_matches, H.
    + intros H. apply (M_cat _ _ [] _); [apply M_opt_none|].
      apply unsigned_amount_matches, H.
Qed.

(** ** The lines that the pattern accepts *)

Lemma strip_decompose s :
  exists l r, s = l ++ strip s ++ r /\
              forallb is_space l = true /\ forallb is_space r = true.
Proof.
  exists (take_while is_space s), (rev (take_while is_space (rev (lstrip s)))).
  split; [|split].
  - unfold strip, rstrip. rewrite <- rev_app_distr, take_drop_while, rev_involutive.
    unfold lstrip. rewrite take_drop_while. reflexivity.
  - apply forallb_take_while.
  - rewrite forallb_rev. apply forallb_take_while.
Qed.

Lemma line_pieces l :
  nth 2 (split_on "," l) [] <> [] ->
  exists s', l = nth 0 (split_on "," l) [] ++ ","%char ::
                 nth 1 (split_on "," l) [] ++ ","%char :: s' /\
             take_while (not_char ",") s' <> [].
Proof.
  destruct (split_on "," l) as [|p0 t0] eqn:E0; [intros H; contradiction H; reflexivity|].
  apply split_on_cons in E0 as (_ & [(-> & _)|(s1 & -> & E1)]);
    [intros H; contradiction H; reflexivity|].
  destruct t0 as [|p1 t1]; [intros H; contradiction H; reflexivity|].
  apply split_on_cons in E1 as (_ & [(-> & _)|(s2 & -> & E2)]);
    [intros H; contradiction H; reflexivity|].
  cbn [nth]. intros H. exists s2. split; [reflexivity|].
  rewrite <- split_on_head, E2. exact H.
Qed.

(** A line whose first two fields have the shapes of a date and of an
    amount, and which has something after its second comma, matches. *)
Lemma csv_pattern_accepts line :
  date_shape (field 0 line) = true -> amount_shape (field 1 line) = true ->
  nth 2 (split_on "," (text_of line)) [] <> [] ->
  is_Some (re_match csv_pattern (text_of line)).
Proof.
  intros Hd Ha H3. unfold field in Hd, Ha.
  destruct (line_pieces _ H3) as (s' & Hline & Hcat).
  destruct (strip_decompose (nth 0 (split_on "," (text_of line)) []))
    as (l0 & r0 & E0 & Hl0 & Hr0).
  destruct (strip_decompose (nth 1 (split_on "," (text_of line)) []))
    as (l1 & r1 & E1 & Hl1 & Hr1).
  set (D := strip (nth 0 (split_on "," (text_of line)) [])) in *.
  set (A := strip (nth 1 (split_on "," (text_of line)) [])) in *.
  set (C := take_while (not_char ",") s') in *.
  assert (E : text_of line
              = (l0 ++ D ++ r0 ++ [","%char] ++ l1 ++ A ++ r1 ++ [","%char]
                   ++ [] ++ C ++ [] ++ [])
                ++ drop_while (not_char ",") s').
  { rewrite Hline at 1. rewrite E0, E1.
    rewrite <- (take_drop_while (not_char ",") s') at 1. fold C.
    cbn [app]. rewrite app_nil_r.
    repeat (rewrite <- !app_assoc; cbn [app]). reflexivity. }
  rewrite E. unfold re_match.
  assert (HC : matches (Plus (not_char ",")) C).
  { pose proof (forallb_take_while (not_char ",") s') as HnC. fold C in HnC.
    destruct C as [|a C']; [contradiction Hcat; reflexivity|].
    cbn in HnC. apply andb_true_iff in HnC as [Ha' HC'].
    apply (M_cat _ _ [a] C'); [apply M_class, Ha'|apply M_many, HC']. }
  eapply run_complete; [|eexists; reflexivity].
  unfold csv_pattern. cbn [Seq]. unfold Spaces, Lit.
  eapply MW_cat; [apply MW_many, Hl0|].
  eapply MW_cat; [apply MW_grp, matches_to_with;
                  [apply date_shape_matches, Hd|reflexivity]|].
  eapply MW_cat; [apply MW_many, Hr0|].
  eapply MW_cat; [apply MW_class; reflexivity|].
  eapply MW_cat; [apply MW_many, Hl1|].
  eapply MW_cat; [apply MW_grp, matches_to_with;
                  [apply amount_shape_matches, Ha|reflexivity]|].
  eapply MW_cat; [apply MW_many, Hr1|].
  eapply MW_cat; [apply MW_class; reflexivity|].
  eapply MW_cat; [apply MW_many; reflexivity|].
  eapply MW_cat; [apply MW_grp, matches_to_with; [exact HC|reflexivity]|].
  eapply MW_cat; [apply MW_many; reflexivity|].
  apply MW_opt_none.
Qed.

(** X26.  [parse_csv_line] does not raise its format error on a line
    whose first field has the shape of a date, whose second field has the
    shape of an amount and which has at least one character between its
    second comma and the next comma or its end: when [strptime] raises on
    the first field, it raises that error; otherwise it returns the date
    of [strptime] with an amount, the third field and the description.  A
    line with two fields only is not among them. *)
Theorem parse_csv_line_accepts line :
  date_shape (field 0 line) = true -> amount_shape (field 1 line) = true ->
  nth 2 (split_on "," (text_of line)) [] <> [] ->
  match strptime (field 0 line) (format_of (field 0 line)) with
  | inl e => parse_csv_line line = inl e
  | inr d =>
    exists a,
      parse_csv_line line
      = inr (d, a, str_of (field 2 line), str_of (description_field line))
  end.
Proof.
  intros Hd Ha H3.
  destruct (csv_pattern_accepts line Hd Ha H3) as [[m rest] Hm].
  rewrite (parse_csv_line_matched _ _ _ Hm).
  destruct (strptime (field 0 line) (format_of (field 0 line))) as [e|d];
    [reflexivity|]. eexists. reflexivity.
Qed.

Lemma parse_csv_line_accepts_witness :
  exists a,
    parse_csv_line "1/2/2023 ,7.5, Food and drink "
    = inr (mkDate 2023 1 2, a, str_of (field 2 "1/2/2023 ,7.5, Food and drink "),
           str_of (description_field "1/2/2023 ,7.5, Food and drink ")).
Proof.
  exact (parse_csv_line_accepts "1/2/2023 ,7.5, Food and drink " eq_refl eq_refl
                                ltac:(discriminate)).
Defined.


(** * The dates that [strptime] accepts *)

Lemma run_Grp_first {R} name r w rest c (k : text -> captures -> option R) x :
  first_match r w rest -> k rest ((name, w) :: c) = Some x ->
  run (Grp name r) (w ++ rest) c k = Some x.
Proof.
  intros Hr Hk. cbn [run]. apply Hr. rewrite take_prefix. exact Hk.
Qed.

Lemma run_Lit {R} a s c (k : text -> captures -> option R) :
  run (Lit a) (a :: s) c k = k s c.
Proof. cbn. unfold is_char. rewrite Ascii.eqb_refl. reflexivity. Qed.

Lemma digit_char_cases c :
  is_digit c = true ->
  In c ["0"; "1"; "2"; "3"; "4"; "5"; "6"; "7"; "8"; "9"]%char.
Proof.
  destruct c as [[] [] [] [] [] [] [] []]; vm_compute; intros H;
    first [discriminate H | tauto].
Qed.

(** The texts of one or two digits, one by one. *)
Ltac concrete_digits :=
  repeat match goal with
  | H : digits _ _ ?w = true |- _ =>
    let Hl := fresh "Hl" in
    apply digits_cases in H; destruct H as [H Hl];
    repeat (destruct w as [|? w]; cbn [length] in Hl; try lia);
    clear Hl
  end;
  repeat match goal with
  | H : forallb is_digit (_ :: _) = true |- _ => cbn [forallb] in H
  end;
  repeat match goal with
  | H : _ && _ = true |- _ => apply andb_true_iff in H; destruct H as [? ?]
  end;
  repeat match goal with
  | H : is_digit ?c = true |- _ =>
    apply digit_char_cases in H; cbn [In] in H;
    repeat (destruct H as [H|H]; [subst c|]); [..|destruct H]
  end.

Ltac value_of_text H :=
  match type of H with
  | context [py_int ?m] =>
    let v := eval vm_compute in (py_int m) in
    change (py_int m) with v in H
  end.

(** The directive of the month on a text of one or two digits that
    denotes a month, followed by a separator. *)
Lemma run_month {R} m sep rest c (k : text -> captures -> option R) x :
  sep = "/"%char \/ sep = "-"%char ->
  digits 1 2 m = true -> 1 <= py_int m <= 12 ->
  k (sep :: rest) (("m", m) :: c) = Some x ->
  run (fmt_item_regex Dir_m) (m ++ sep :: rest) c k = Some x.
Proof.
  intros Hsep Hm Hv Hk. cbn [fmt_item_regex].
  apply run_Grp_first; [|exact Hk]. clear Hk.
  destruct Hsep as [-> | ->]; concrete_digits; value_of_text Hv;
    first [ exfalso; lia
          | intros R' c' k' x' Hk'; cbn; rewrite Hk'; reflexivity ].
Qed.

(** The directive of the day on a text of one or two digits that denotes
    a day, at the end of the text or followed by a slash. *)
Lemma run_day {R} dd rest c (k : text -> captures -> option R) x :
  rest = [] \/ (exists rest', rest = "/"%char :: rest') ->
  digits 1 2 dd = true -> 1 <= py_int dd <= 31 ->
  k rest (("d", dd) :: c) = Some x ->
  run (fmt_item_regex Dir_d) (dd ++ rest) c k = Some x.
Proof.
  intros Hrest Hd Hv Hk. cbn [fmt_item_regex].
  apply run_Grp_first; [|exact Hk]. clear Hk.
  destruct Hrest as [-> | (rest' & ->)]; concrete_digits; value_of_text Hv;
    first [ exfalso; lia
          | intros R' c' k' x' Hk'; cbn; rewrite Hk'; reflexivity ].
Qed.

(** The directive of the year on four digits. *)
Lemma run_year {R} y rest c (k : text -> captures -> option R) x :
  digits 4 4 y = true ->
  k rest (("Y", y) :: c) = Some x ->
  run (fmt_item_regex Dir_Y) (y ++ rest) c k = Some x.
Proof.
  intros Hy Hk. cbn [fmt_item_regex].
  apply run_Grp_first; [|exact Hk]. clear Hk.
  explicit_digits.
  intros R' c' k' x' Hk'. unfold Digit. cbn [Times run app].
  repeat match goal with H : is_digit _ = true |- _ => rewrite H; clear H end.
  exact Hk'.
Qed.

(** [strptime] with the format of the slashes accepts every text
    [M/D/YYYY] of one or two digits for a month from 1 to 12, one or two
    digits for a day from 1 to 31 and four digits, and builds the date from
    these numbers, in this order. *)
Lemma strptime_us_accepts m dd y :
  digits 1 2 m = true -> digits 1 2 dd = true -> digits 4 4 y = true ->
  1 <= py_int m <= 12 -> 1 <= py_int dd <= 31 ->
  strptime (m ++ "/"%char :: dd ++ "/"%char :: y) fmt_us
  = date_new (py_int y) (py_int m) (py_int dd).
Proof.
  intros Hm Hd Hy Hvm Hvd. unfold strptime, re_match, fmt_us. cbn [map Seq].
  change (fmt_item_regex (Fmt_lit "/")) with (Lit "/").
  match goal with
  | |- context [run ?r ?s ?c ?k] =>
    assert (E : run r s c k = Some ([("Y", y); ("d", dd); ("m", m)], []))
  end.
  { rewrite run_Cat. apply run_month; [left; reflexivity|exact Hm|exact Hvm|].
    rewrite run_Cat, run_Lit, run_Cat.
    apply run_day; [right; eexists; reflexivity|exact Hd|exact Hvd|].
    rewrite run_Cat, run_Lit.
    pose proof (fun c k x => run_year (R := captures * text) y [] c k x Hy) as HY.
    rewrite app_nil_r in HY. apply HY. reflexivity. }
  rewrite E. reflexivity.
Qed.

Lemma digits_two_one_or_two w : digits 2 2 w = true -> digits 1 2 w = true.
Proof.
  unfold digits. rewrite !andb_true_iff, !Nat.leb_le. intros [[H1 H2] H3].
  repeat split; [exact H1|lia|exact H3].
Qed.

(** [strptime] with the ISO format accepts every text [YYYY-MM-DD] of
    four digits, two digits for a month from 1 to 12 and two digits for a
    day from 1 to 31. *)
Lemma strptime_iso_accepts y m dd :
  digits 4 4 y = true -> digits 2 2 m = true -> digits 2 2 dd = true ->
  1 <= py_int m <= 12 -> 1 <= py_int dd <= 31 ->
  strptime (y ++ "-"%char :: m ++ "-"%char :: dd) fmt_iso
  = date_new (py_int y) (py_int m) (py_int dd).
Proof.
  intros Hy Hm Hd Hvm Hvd. unfold strptime, re_match, fmt_iso. cbn [map Seq].
  pose proof (digits_two_one_or_two _ Hm) as Hm'.
  pose proof (digits_two_one_or_two _ Hd) as Hd'.
  change (fmt_item_regex (Fmt_lit "-")) with (Lit "-").
  match goal with
  | |- context [run ?r ?s ?c ?k] =>
    assert (E : run r s c k = Some ([("d", dd); ("m", m); ("Y", y)], []))
  end.
  { rewrite run_Cat. apply run_year; [exact Hy|].
    rewrite run_Cat, run_Lit, run_Cat.
    apply run_month; [right; reflexivity|exact Hm'|exact Hvm|].
    rewrite run_Cat, run_Lit.
    pose proof (fun c k x => run_day (R := captures * text) dd [] c k x
                               (or_introl eq_refl) Hd' Hvd) as HD.
    rewrite app_nil_r in HD. apply HD. reflexivity. }
  rewrite E. reflexivity.
Qed.

(** * The lines that [parse_csv_line] accepts *)

Lemma existsb_is_char a w :
  existsb (is_char a) w = negb (forallb (not_char a) w).
Proof.
  induction w as [|c w IH]; [reflexivity|]. cbn. rewrite IH.
  unfold is_char, not_char. destruct (Ascii.eqb c a); reflexivity.
Qed.

Lemma days_in_month_le y m : days_in_month y m <= 31.
Proof.
  unfold days_in_month.
  repeat match goal with |- context [if ?b then _ else _] => destruct b end; lia.
Qed.

Lemma digits_not_char sep lo hi w :
  In sep [","; "-"; "/"; "."]%char -> digits lo hi w = true ->
  forallb (not_char sep) w = true.
Proof.
  intros Hsep Hw. apply digits_cases in Hw as [Hw _].
  eapply forallb_impl; [|exact Hw]. intros c. apply digit_not_char, Hsep.
Qed.

(** A line whose first field is a date of the calendar written in one of
    the two shapes, whose second field is a decimal numeral and which has
    something after its second comma is parsed to that date. *)
Lemma parse_csv_line_calendar line y m dd dt :
  (split_on "-" (field 0 line) = [y; m; dd] /\
   digits 4 4 y = true /\ digits 2 2 m = true /\ digits 2 2 dd = true) \/
  (split_on "/" (field 0 line) = [m; dd; y] /\
   digits 1 2 m = true /\ digits 1 2 dd = true /\ digits 4 4 y = true) ->
  date_new (py_int y) (py_int m) (py_int dd) = inr dt ->
  amount_shape (field 1 line) = true ->
  nth 2 (split_on "," (text_of line)) [] <> [] ->
  parse_csv_line line
  = inr (dt, py_float (field 1 line), str_of (field 2 line),
         str_of (description_field line)).
Proof.
  intros Hshape Hnew Ha H3.
  destruct (date_new_inr _ _ _ _ Hnew) as (_ & _ & Hvm & Hvd).
  pose proof (days_in_month_le (py_int y) (py_int m)) as Hle.
  assert (Hvd' : 1 <= py_int dd <= 31) by lia.
  destruct Hshape as [(Hs & Hy & Hm & Hd)|(Hs & Hm & Hd & Hy)].
  - assert (Hds : date_shape (field 0 line) = true).
    { unfold date_shape, iso_shape. rewrite Hs, Hy, Hm, Hd. reflexivity. }
    destruct (csv_pattern_accepts line Hds Ha H3) as [[caps rest] Hmatch].
    rewrite (parse_csv_line_matched _ _ _ Hmatch).
    apply split_on_three in Hs.
    assert (Hfmt : format_of (field 0 line) = fmt_iso).
    { unfold format_of. rewrite Hs, existsb_is_char, forallb_app. cbn [forallb].
      rewrite forallb_app. cbn [forallb].
      rewrite (digits_not_char "/" 4 4 y), (digits_not_char "/" 2 2 m),
        (digits_not_char "/" 2 2 dd) by (cbn; tauto || assumption).
      reflexivity. }
    rewrite Hfmt, Hs, (strptime_iso_accepts y m dd Hy Hm Hd Hvm Hvd'), Hnew.
    reflexivity.
  - assert (Hds : date_shape (field 0 line) = true).
    { unfold date_shape, us_shape. rewrite Hs, Hy, Hm, Hd. apply orb_true_r. }
    destruct (csv_pattern_accepts line Hds Ha H3) as [[caps rest] Hmatch].
    rewrite (parse_csv_line_matched _ _ _ Hmatch).
    apply split_on_three in Hs.
    assert (Hfmt : format_of (field 0 line) = fmt_us).
    { unfold format_of. rewrite Hs, existsb_is_char, forallb_app. cbn [forallb].
      rewrite andb_false_r. reflexivity. }
    rewrite Hfmt, Hs, (strptime_us_accepts m dd y Hm Hd Hy Hvm Hvd'), Hnew.
    reflexivity.
Qed.

(** C6.  A line whose date field has neither the shape [YYYY-MM-DD] nor
    the shape [M/D/YYYY] is rejected, and so is a line whose amount field
    is not a decimal numeral, with the error whose message ends with the
    text of the line.  A line is accepted whenever its date field is
    written [YYYY-MM-DD], with four, two and two digits, or [M/D/YYYY],
    with one or two digits for the month and for the day and four for the
    year, the three numbers are a date of the calendar, its amount field
    is a decimal numeral and something follows its second comma: the
    result then holds that date, the third field as category and the
    description.  The two lines of the test suite are parsed to the date
    2023-10-01, the amount -50, the category [Groceries] and the
    description [Weekly shop], respectively the empty description. *)
Theorem parse_csv_line_shapes :
  (forall line, date_shape (field 0 line) = false ->
                parse_csv_line line = inl (format_error line)) /\
  parse_csv_line "2023-10-01,-50.00,Groceries,Weekly shop"
  = inr (mkDate 2023 10 1, (-50)%Q, "Groceries", "Weekly shop") /\
  parse_csv_line "10/01/2023,-50.00,Groceries"
  = inr (mkDate 2023 10 1, (-50)%Q, "Groceries", "") /\
  (forall line, amount_shape (field 1 line) = false ->
                parse_csv_line line
                = inl (ValueError ("Line does not match expected format: " +:+ line))) /\
  (forall line y m dd dt,
      (split_on "-" (field 0 line) = [y; m; dd] /\
       digits 4 4 y = true /\ digits 2 2 m = true /\ digits 2 2 dd = true) \/
      (split_on "/" (field 0 line) = [m; dd; y] /\
       digits 1 2 m = true /\ digits 1 2 dd = true /\ digits 4 4 y = true) ->
      date_new (py_int y) (py_int m) (py_int dd) = inr dt ->
      amount_shape (field 1 line) = true ->
      nth 2 (split_on "," (text_of line)) [] <> [] ->
      exists a,
        parse_csv_line line
        = inr (dt, a, str_of (field 2 line), str_of (description_field line))).
Proof.
  split; [|split; [|split; [|split]]].
  - intros line Hs. apply parse_csv_line_no_match.
    destruct (re_match csv_pattern (text_of line)) as [[caps rest]|] eqn:E;
      [|reflexivity].
    apply csv_pattern_fields in E as [E _]. congruence.
  - vm_compute. reflexivity.
  - vm_compute. reflexivity.
  - intros line Hs. apply parse_csv_line_no_match.
    destruct (re_match csv_pattern (text_of line)) as [[caps rest]|] eqn:E;
      [|reflexivity].
    apply csv_pattern_fields in E as [_ E]. congruence.
  - intros line y m dd dt Hshape Hnew Ha H3. eexists.
    apply (parse_csv_line_calendar line y m dd dt); assumption.
Qed.

(** The line of the test suite with a word in place of the amount, a date
    written with dots, and a date written with one digit for the month
    and for the day. *)
Lemma parse_csv_line_shapes_witness :
  parse_csv_line "2023-10-01,fifty,Groceries"
  = inl (ValueError "Line does not match expected format: 2023-10-01,fifty,Groceries") /\
  parse_csv_line "01.10.2023,-50.00,Groceries"
  = inl (ValueError "Line does not match expected format: 01.10.2023,-50.00,Groceries") /\
  (exists a, parse_csv_line "1/2/2023, 7.5 ,Food"
             = inr (mkDate 2023 1 2, a, str_of (field 2 "1/2/2023, 7.5 ,Food"),
                    str_of (description_field "1/2/2023, 7.5 ,Food"))).
Proof.
  split; [|split].
  - apply (proj1 (proj2 (proj2 (proj2 parse_csv_line_shapes)))). vm_compute. reflexivity.
  - apply (proj1 parse_csv_line_shapes). vm_compute. reflexivity.
  - apply (proj2 (proj2 (proj2 (proj2 parse_csv_line_shapes)))
             "1/2/2023, 7.5 ,Food" (text_of "2023") (text_of "1") (text_of "2")
             (mkDate 2023 1 2)).
    + right. repeat split; reflexivity.
    + reflexivity.
    + reflexivity.
    + discriminate.
Defined.
